(** * Online voting system: election clock, ballot admission and tally

    A shallow embedding of the Express/Mongoose back end (routes
    [elections.js] and [admin.js], models [Election], [Candidate], [Vote])
    and of the two React pages that classify an election and display a
    winner ([AdminElections.getElectionStatus], [Vote.isElectionActive],
    [Results]).

    Conventions.
    - A JavaScript [Date] is its millisecond count, an integer [Z]; every
      [new Date()] of the source is an explicit [now] argument.
    - A Mongo [ObjectId] is a natural number [N]; the [_id] index of a
      collection is the key of a [gmap].  The path parameter [:id] is taken
      as a well-formed ObjectId.
    - The [Vote] collection is the list of its documents in insertion order;
      its unique index on (voter, election) is enforced by [Vote_save].
    - A [find] that no index serves scans the collection.  The scan of the
      candidates yields them in the order of their insertion, that is of
      their [createdAt] stamps; [.sort] then orders the scanned documents
      by its key and keeps documents with equal keys as scanned.
    - A handler returns the HTTP response it sends together with the store
      it leaves behind. *)

From stdpp Require Import gmap strings list fin_maps sorting.

Local Open Scope Z_scope.

Abbreviation ObjectId := N.

(** ** Documents *)

Module Election.
Record t : Type := mk {
  title : string;
  description : string;
  startDate : Z;
  endDate : Z;
  isActive : bool;
  createdBy : ObjectId
}.
End Election.

Module Candidate.
Record t : Type := mk {
  name : string;
  party : string;
  description : string;
  photo : string;
  election : ObjectId;
  voteCount : Z;
  createdAt : Z
}.
End Candidate.

Module Vote.
Record t : Type := mk {
  voter : ObjectId;
  candidate : ObjectId;
  election : ObjectId;
  timestamp : Z
}.
End Vote.

(** ** Election clock *)

(** The [status] strings of [getElectionStatus]: 'inactive', 'upcoming',
    'active', 'ended' (the specification's Inactive, Upcoming, Open,
    Closed). *)
Inductive ElectionStatus : Type := inactive | upcoming | active | ended.

#[global] Instance ElectionStatus_eq_dec : EqDecision ElectionStatus.
Proof. solve_decision. Defined.

(** [getElectionStatus] of the admin elections page. *)
Definition getElectionStatus (now : Z) (election : Election.t) : ElectionStatus :=
  let start := Election.startDate election in
  let end_ := Election.endDate election in
  if negb (Election.isActive election) then inactive
  else if now <? start then upcoming
  else if (now >=? start) && (now <=? end_) then active
  else ended.

(** [isElectionActive] of the voting page. *)
Definition isElectionActive (now : Z) (election : Election.t) : bool :=
  Election.isActive election
  && (now >=? Election.startDate election)
  && (now <=? Election.endDate election).

(** The virtuals [isRunning] and [hasEnded] of the Election schema. *)
Definition isRunning (now : Z) (election : Election.t) : bool :=
  Election.isActive election
  && (now >=? Election.startDate election)
  && (now <=? Election.endDate election).

Definition hasEnded (now : Z) (election : Election.t) : bool :=
  now >? Election.endDate election.

(** The validator of the schema path [endDate]:
    [function(value) { return value > this.startDate; }]. *)
Definition endDate_validator (election : Election.t) : bool :=
  Election.endDate election >? Election.startDate election.

(** ** HTTP responses *)

(** The payload of GET /api/elections/:id/results, the [ElectionResults]
    of the front end.  [userVote] is the populated [candidate] of the
    caller's vote: its [_id] and [name]. *)
Module ElectionResults.
Record t : Type := mk {
  election : Election.t;
  candidates : list (ObjectId * Candidate.t);
  totalVotes : nat;
  userVote : option (ObjectId * string);
  hasVoted : bool
}.
End ElectionResults.

Inductive Body : Type :=
| Message (message : string)
| ValidationErrors
| VoteReceipt (message : string) (candidate : string) (election : string)
    (timestamp : Z)
| ResultsJson (results : ElectionResults.t)
| ElectionJson (election : Election.t).

Record Response : Type := mkResponse { status : Z; body : Body }.

Definition json (code : Z) (b : Body) : Response := mkResponse code b.

(** ** The store and the Mongoose calls the handlers make *)

Record Store : Type := mkStore {
  elections : gmap N Election.t;
  candidates : gmap N Candidate.t;
  votes : list Vote.t
}.

Definition set_votes (st : Store) (vs : list Vote.t) : Store :=
  mkStore (elections st) (candidates st) vs.

Definition set_candidates (st : Store) (cs : gmap N Candidate.t) : Store :=
  mkStore (elections st) cs (votes st).

Definition set_elections (st : Store) (es : gmap N Election.t) : Store :=
  mkStore es (candidates st) (votes st).

(** [Election.findById(id)]. *)
Definition Election_findById (st : Store) (id : ObjectId) : option Election.t :=
  elections st !! id.

(** [Candidate.findById(id)]. *)
Definition Candidate_findById (st : Store) (id : ObjectId) : option Candidate.t :=
  candidates st !! id.

(** [Candidate.findOne({ _id: candidateId, election: electionId })]. *)
Definition Candidate_findOne (st : Store) (candidateId electionId : ObjectId)
  : option Candidate.t :=
  match candidates st !! candidateId with
  | Some c => if N.eqb (Candidate.election c) electionId then Some c else None
  | None => None
  end.

(** The filter [{ voter, election }] on a vote document. *)
Definition vote_of (voterId electionId : ObjectId) (v : Vote.t) : bool :=
  N.eqb (Vote.voter v) voterId && N.eqb (Vote.election v) electionId.

(** [Vote.findOne({ voter, election })]. *)
Definition Vote_findOne (st : Store) (voterId electionId : ObjectId)
  : option Vote.t :=
  List.find (vote_of voterId electionId) (votes st).

(** What a rejected write carries: Mongo's duplicate-key code 11000, or any
    other failure. *)
Inductive MongoError : Type := E11000 | OtherError.

(** [vote.save()]: the unique index [{ voter: 1, election: 1 }] refuses a
    second document with the same pair; otherwise the document is
    appended. *)
Definition Vote_save (st : Store) (v : Vote.t) : MongoError + Store :=
  if existsb (vote_of (Vote.voter v) (Vote.election v)) (votes st)
  then inl E11000
  else inr (set_votes st (votes st ++ [v])).

Definition inc_voteCount (c : Candidate.t) : Candidate.t :=
  Candidate.mk (Candidate.name c) (Candidate.party c)
    (Candidate.description c) (Candidate.photo c) (Candidate.election c)
    (Candidate.voteCount c + 1) (Candidate.createdAt c).

(** [Candidate.findByIdAndUpdate(candidateId, { $inc: { voteCount: 1 } })]:
    a missing document is left missing. *)
Definition Candidate_findByIdAndUpdate_inc (st : Store) (candidateId : ObjectId)
  : Store :=
  set_candidates st (alter inc_voteCount candidateId (candidates st)).

(** [Vote.countDocuments({ election })] and
    [Vote.countDocuments({ candidate })]. *)
Definition Vote_countDocuments_election (st : Store) (electionId : ObjectId)
  : nat :=
  length (List.filter (fun v => N.eqb (Vote.election v) electionId) (votes st)).

Definition Vote_countDocuments_candidate (st : Store) (candidateId : ObjectId)
  : nat :=
  length (List.filter (fun v => N.eqb (Vote.candidate v) candidateId) (votes st)).

(** The documents that match [Candidate.find({ election })]; the order in
    which the query yields them is that of [insertion_order] below. *)
Definition Candidate_find (st : Store) (electionId : ObjectId)
  : list (ObjectId * Candidate.t) :=
  List.filter (fun d => N.eqb (Candidate.election (snd d)) electionId)
    (map_to_list (candidates st)).

(** ** POST /api/elections/:id/vote *)

(** The request: [req.user._id], [req.params.id], [req.body.candidateId]
    ([None] when it is not a Mongo id, which [isMongoId] reports), the
    instant read by [new Date()] and the default [timestamp] of the new
    vote document. *)
Record VoteReq : Type := mkVoteReq {
  user : ObjectId;
  electionId : ObjectId;
  candidateId : option ObjectId;
  now : Z;
  stamp : Z
}.

Definition already_voted : Response :=
  json 400 (Message "You have already voted in this election").

(** The window checks of the handler, between [Election.findById] and
    [Candidate.findOne]: the response sent when the election is not open,
    [None] when voting may go on. *)
Definition window_check (now : Z) (election : Election.t) : option Response :=
  if negb (Election.isActive election)
  then Some (json 400 (Message "Election is not active"))
  else if now <? Election.startDate election
  then Some (json 400 (Message "Election has not started yet"))
  else if now >? Election.endDate election
  then Some (json 400 (Message "Election has ended"))
  else None.

Definition new_vote (req : VoteReq) (cid : ObjectId) : Vote.t :=
  Vote.mk (user req) cid (electionId req) (stamp req).

Definition vote_cast (election : Election.t) (candidate : Candidate.t)
  (vote : Vote.t) : Response :=
  json 201 (VoteReceipt "Vote cast successfully" (Candidate.name candidate)
              (Election.title election) (Vote.timestamp vote)).

(** The handler run from its first line to its response, no store call
    failing and no other request in between. *)
Definition castVote (req : VoteReq) (st : Store) : Response * Store :=
  match candidateId req with
  | None => (json 400 ValidationErrors, st)
  | Some cid =>
    match Election_findById st (electionId req) with
    | None => (json 404 (Message "Election not found"), st)
    | Some election =>
      match window_check (now req) election with
      | Some r => (r, st)
      | None =>
        match Candidate_findOne st cid (electionId req) with
        | None =>
          (json 404 (Message "Candidate not found in this election"), st)
        | Some candidate =>
          match Vote_findOne st (user req) (electionId req) with
          | Some _ => (already_voted, st)
          | None =>
            let vote := new_vote req cid in
            match Vote_save st vote with
            | inl E11000 => (already_voted, st)
            | inl OtherError => (json 500 (Message "Server error"), st)
            | inr st1 =>
              (vote_cast election candidate vote,
               Candidate_findByIdAndUpdate_inc st1 cid)
            end
          end
        end
      end
    end
  end.

(** *** The handler between its awaits

    Every [await] of the handler is one call to the store; another request
    may run between two of them, and the awaited call may be rejected.  A
    program point names the call the request is waiting for and what the
    handler holds by then. *)
Inductive VotePc : Type :=
| AtFindElection (cid : ObjectId)
| AtFindCandidate (cid : ObjectId) (election : Election.t)
| AtFindVote (cid : ObjectId) (election : Election.t) (candidate : Candidate.t)
| AtSave (cid : ObjectId) (election : Election.t) (candidate : Candidate.t)
| AtIncrement (cid : ObjectId) (election : Election.t)
    (candidate : Candidate.t) (vote : Vote.t)
| Responded (r : Response).

(** From the first line to the first await: the validation result. *)
Definition vote_enter (req : VoteReq) : VotePc :=
  match candidateId req with
  | None => Responded (json 400 ValidationErrors)
  | Some cid => AtFindElection cid
  end.

(** The awaited call and the code after it, up to the next await or to the
    response. *)
Definition vote_step (req : VoteReq) (pc : VotePc) (st : Store)
  : VotePc * Store :=
  match pc with
  | AtFindElection cid =>
    match Election_findById st (electionId req) with
    | None => (Responded (json 404 (Message "Election not found")), st)
    | Some election =>
      match window_check (now req) election with
      | Some r => (Responded r, st)
      | None => (AtFindCandidate cid election, st)
      end
    end
  | AtFindCandidate cid election =>
    match Candidate_findOne st cid (electionId req) with
    | None =>
      (Responded (json 404 (Message "Candidate not found in this election")),
       st)
    | Some candidate => (AtFindVote cid election candidate, st)
    end
  | AtFindVote cid election candidate =>
    match Vote_findOne st (user req) (electionId req) with
    | Some _ => (Responded already_voted, st)
    | None => (AtSave cid election candidate, st)
    end
  | AtSave cid election candidate =>
    let vote := new_vote req cid in
    match Vote_save st vote with
    | inl E11000 => (Responded already_voted, st)
    | inl OtherError => (Responded (json 500 (Message "Server error")), st)
    | inr st1 => (AtIncrement cid election candidate vote, st1)
    end
  | AtIncrement cid election candidate vote =>
    (Responded (vote_cast election candidate vote),
     Candidate_findByIdAndUpdate_inc st cid)
  | Responded r => (Responded r, st)
  end.

Definition awaiting (pc : VotePc) : bool :=
  match pc with Responded _ => false | _ => true end.

(** An awaited call rejected with an error other than the duplicate key:
    the [catch] block answers 500 and nothing is written. *)
Definition vote_reject (pc : VotePc) : VotePc :=
  Responded (json 500 (Message "Server error")).

Fixpoint vote_run (fuel : nat) (req : VoteReq) (pc : VotePc) (st : Store)
  : VotePc * Store :=
  match fuel with
  | O => (pc, st)
  | S fuel' =>
    let '(pc', st') := vote_step req pc st in vote_run fuel' req pc' st'
  end.

(** *** The handler run alone, store calls failing or not

    [fails pc] tells whether the call awaited at [pc] is rejected with an
    error other than the duplicate key. *)
Definition vote_step_with (fails : VotePc → bool) (req : VoteReq)
  (pc : VotePc) (st : Store) : VotePc * Store :=
  if awaiting pc && fails pc then (vote_reject pc, st)
  else vote_step req pc st.

Fixpoint vote_run_with (fails : VotePc → bool) (fuel : nat) (req : VoteReq)
  (pc : VotePc) (st : Store) : VotePc * Store :=
  match fuel with
  | O => (pc, st)
  | S fuel' =>
    let '(pc', st') := vote_step_with fails req pc st in
    vote_run_with fails fuel' req pc' st'
  end.

(** The handler from its first line to its response, no other request in
    between: it awaits five calls at most. *)
Definition castVote_with (fails : VotePc → bool) (req : VoteReq) (st : Store)
  : Response * Store :=
  match vote_run_with fails 5 req (vote_enter req) st with
  | (Responded r, st') => (r, st')
  | (_, st') => (json 500 (Message "Server error"), st')
  end.

(** No store call is rejected. *)
Definition no_failure (pc : VotePc) : bool := false.

(** *** Requests in flight against one store *)

Record Thread : Type := mkThread { t_req : VoteReq; t_pc : VotePc }.

Record System : Type := mkSystem { store : Store; threads : list Thread }.

(** One move of the system: a request arrives, a request gets its awaited
    call served, or (when [faulty]) an awaited call is rejected. *)
Inductive sys_step (faulty : bool) : System → System → Prop :=
| step_arrive st ts req :
    sys_step faulty (mkSystem st ts)
      (mkSystem st (ts ++ [mkThread req (vote_enter req)]))
| step_serve st ts1 ts2 req pc pc' st' :
    vote_step req pc st = (pc', st') →
    sys_step faulty (mkSystem st (ts1 ++ mkThread req pc :: ts2))
      (mkSystem st' (ts1 ++ mkThread req pc' :: ts2))
| step_reject st ts1 ts2 req pc :
    faulty = true →
    awaiting pc = true →
    sys_step faulty (mkSystem st (ts1 ++ mkThread req pc :: ts2))
      (mkSystem st (ts1 ++ mkThread req (vote_reject pc) :: ts2)).

Definition reachable (faulty : bool) (st0 : Store) (sys : System) : Prop :=
  rtc (sys_step faulty) (mkSystem st0 []) sys.

(** ** Counting the vote log *)

Definition votes_of (st : Store) (voterId electionId : ObjectId) : nat :=
  length (List.filter (vote_of voterId electionId) (votes st)).

(** At most one vote document for every (voter, election) pair. *)
Definition votes_unique (st : Store) : Prop :=
  ∀ voterId electionId, (votes_of st voterId electionId ≤ 1)%nat.

Definition vote_for (electionId candidateId : ObjectId) (v : Vote.t) : bool :=
  N.eqb (Vote.election v) electionId && N.eqb (Vote.candidate v) candidateId.

(** The number of vote documents with (election, candidate). *)
Definition tally (st : Store) (electionId candidateId : ObjectId) : nat :=
  length (List.filter (vote_for electionId candidateId) (votes st)).

(** Every candidate's counter equals its count in the vote log. *)
Definition tally_consistent (st : Store) : Prop :=
  ∀ cid c, candidates st !! cid = Some c →
    Candidate.voteCount c = Z.of_nat (tally st (Candidate.election c) cid).

Definition at_increment (eid cid : ObjectId) (t : Thread) : bool :=
  match t_pc t with
  | AtIncrement cid' _ _ _ =>
    N.eqb (electionId (t_req t)) eid && N.eqb cid' cid
  | _ => false
  end.

(** The requests that have inserted their vote for (election, candidate)
    and await the counter update. *)
Definition pending (ts : list Thread) (eid cid : ObjectId) : nat :=
  length (List.filter (at_increment eid cid) ts).

(** The voter has a vote document in the election. *)
Definition has_voted (st : Store) (voterId eid : ObjectId) : Prop :=
  ∃ v, v ∈ votes st ∧ Vote.voter v = voterId ∧ Vote.election v = eid.

(** What vote requests leave in place: the elections, every candidate under
    its id and in its election, every vote already recorded. *)
Definition store_extends (st st' : Store) : Prop :=
  elections st' = elections st
  ∧ (∀ cid c, candidates st !! cid = Some c →
       ∃ c', candidates st' !! cid = Some c'
             ∧ Candidate.election c' = Candidate.election c)
  ∧ (∀ v, v ∈ votes st → v ∈ votes st').

(** A request past [Candidate.findOne] holds a candidate of its election. *)
Definition thread_ok (st : Store) (t : Thread) : Prop :=
  match t_pc t with
  | AtFindVote cid _ _ | AtSave cid _ _ | AtIncrement cid _ _ _ =>
    ∃ c, candidates st !! cid = Some c
         ∧ Candidate.election c = electionId (t_req t)
  | _ => True
  end.

(** Counter against log: equal when no store call is ever rejected, at most
    the log otherwise. *)
Definition cmp (faulty : bool) (a b : Z) : Prop :=
  if faulty then a ≤ b else a = b.

(** Every candidate's counter, plus the votes inserted for it whose
    increment is still awaited, against its count in the vote log. *)
Definition counter_ok (faulty : bool) (st : Store) (ts : list Thread) : Prop :=
  ∀ cid c, candidates st !! cid = Some c →
    cmp faulty
      (Candidate.voteCount c
       + Z.of_nat (pending ts (Candidate.election c) cid))
      (Z.of_nat (tally st (Candidate.election c) cid)).

Definition sys_inv (faulty : bool) (sys : System) : Prop :=
  Forall (thread_ok (store sys)) (threads sys)
  ∧ counter_ok faulty (store sys) (threads sys).

(** A request of the voter for the election that has inserted its vote:
    it awaits the counter update or has been answered 201. *)
Definition committed (voterId eid : ObjectId) (t : Thread) : bool :=
  N.eqb (user (t_req t)) voterId && N.eqb (electionId (t_req t)) eid
  && match t_pc t with
     | AtIncrement _ _ _ _ => true
     | Responded r => status r =? 201
     | _ => false
     end.

Definition successes (ts : list Thread) (voterId eid : ObjectId) : nat :=
  length (List.filter (committed voterId eid) ts).

(** ** GET /api/elections/:id/results *)

(** *** Sorted cursors

    A query with [.sort(spec)] yields the matching documents ordered by the
    key of [spec].  The source names one key and no index covers it, so the
    store sorts the documents of a scan of the collection: [sort_by le]
    orders by the key and leaves documents with equal keys as the scan
    yields them. *)
Fixpoint insert_by {A} (le : A → A → bool) (x : A) (l : list A) : list A :=
  match l with
  | [] => [x]
  | y :: l' => if le x y then x :: l else y :: insert_by le x l'
  end.

Definition sort_by {A} (le : A → A → bool) (l : list A) : list A :=
  foldr (insert_by le) [] l.

(** The order of [.sort({ voteCount: -1 })]: greater counters first. *)
Definition by_voteCount_desc (a b : ObjectId * Candidate.t) : Prop :=
  Candidate.voteCount (snd b) ≤ Candidate.voteCount (snd a).

#[global] Instance by_voteCount_desc_dec a b : Decision (by_voteCount_desc a b).
Proof. unfold by_voteCount_desc. apply _. Defined.

(** A scan of the candidates collection yields the documents in the order
    of their insertion.  The instant of a candidate's insertion is its
    [createdAt] stamp, which [timestamps: true] sets when the document is
    first saved and keeps from then on; the order among candidates
    inserted at the same instant is the store's, an argument [natural] of
    every query (any rearrangement of the documents). *)
Definition by_createdAt_asc (a b : ObjectId * Candidate.t) : Prop :=
  Candidate.createdAt (snd a) ≤ Candidate.createdAt (snd b).

#[global] Instance by_createdAt_asc_dec a b : Decision (by_createdAt_asc a b).
Proof. unfold by_createdAt_asc. apply _. Defined.

Definition insertion_order
  (natural : list (ObjectId * Candidate.t) → list (ObjectId * Candidate.t))
  (l : list (ObjectId * Candidate.t)) : list (ObjectId * Candidate.t) :=
  sort_by (fun a b => bool_decide (by_createdAt_asc a b)) (natural l).

(** [cursor.sort({ voteCount: -1 })] on the documents [l] of a query. *)
Definition sort_voteCount_desc
  (natural : list (ObjectId * Candidate.t) → list (ObjectId * Candidate.t))
  (l : list (ObjectId * Candidate.t)) : list (ObjectId * Candidate.t) :=
  sort_by (fun a b => bool_decide (by_voteCount_desc a b))
    (insertion_order natural l).

(** [.populate('candidate', 'name')] on the caller's vote. *)
Definition populate_candidate (st : Store) (v : Vote.t)
  : option (ObjectId * string) :=
  match candidates st !! Vote.candidate v with
  | Some c => Some (Vote.candidate v, Candidate.name c)
  | None => None
  end.

Definition getResults
  (natural : list (ObjectId * Candidate.t) → list (ObjectId * Candidate.t))
  (userId electionId : ObjectId) (st : Store) : Response :=
  match Election_findById st electionId with
  | None => json 404 (Message "Election not found")
  | Some election =>
    let candidates :=
      sort_voteCount_desc natural (Candidate_find st electionId) in
    let totalVotes := Vote_countDocuments_election st electionId in
    let userVote := Vote_findOne st userId electionId in
    json 200 (ResultsJson
      (ElectionResults.mk election candidates totalVotes
         (match userVote with
          | Some v => populate_candidate st v
          | None => None
          end)
         (match userVote with Some _ => true | None => false end)))
  end.

(** ** The results page *)

(** [isElectionEnded]: [results] is null until the payload has arrived. *)
Definition isElectionEnded (now : Z) (results : option ElectionResults.t) : bool :=
  match results with
  | None => false
  | Some r => now >? Election.endDate (ElectionResults.election r)
  end.

(** [const winner = results.candidates.length > 0 ? results.candidates[0] : null]. *)
Definition winner (results : ElectionResults.t) : option (ObjectId * Candidate.t) :=
  match ElectionResults.candidates results with
  | [] => None
  | c :: _ => Some c
  end.

(** The candidate shown in the Winner banner, if the banner is rendered:
    [winner && isElectionEnded() && results.totalVotes > 0]. *)
Definition winner_banner (now : Z) (results : ElectionResults.t)
  : option (ObjectId * Candidate.t) :=
  match winner results with
  | Some w =>
    if isElectionEnded now (Some results)
       && (0 <? ElectionResults.totalVotes results)%nat
    then Some w else None
  | None => None
  end.

(** ** Administration *)

(** The body of PUT /api/admin/elections/:id after express-validator:
    whether [validationResult(req)] is empty, and the value of each key the
    body holds among the paths the schema declares: title, description,
    startDate, endDate, isActive and createdBy (the schema is strict: a key
    that names no path is not stored; [_id] and the timestamps are left
    out).  A date that passed [isISO8601] is a non-empty string, hence
    truthy. *)
Record ElectionUpdate : Type := mkElectionUpdate {
  errors_isEmpty : bool;
  u_title : option string;
  u_description : option string;
  u_startDate : option Z;
  u_endDate : option Z;
  u_isActive : option bool;
  u_createdBy : option ObjectId
}.

(** [Object.keys(req.body).forEach(key => { election[key] = req.body[key] })]. *)
Definition assign_election (body : ElectionUpdate) (e : Election.t) : Election.t :=
  Election.mk
    (default (Election.title e) (u_title body))
    (default (Election.description e) (u_description body))
    (default (Election.startDate e) (u_startDate body))
    (default (Election.endDate e) (u_endDate body))
    (default (Election.isActive e) (u_isActive body))
    (default (Election.createdBy e) (u_createdBy body)).

(** PUT /api/admin/elections/:id.  [validate] is Mongoose's validation of
    the assigned document in [election.save()]; a validation error is
    caught and answered 500. *)
Definition updateElection (validate : Election.t → ElectionUpdate → bool)
  (id : ObjectId) (body : ElectionUpdate) (st : Store) : Response * Store :=
  if negb (errors_isEmpty body) then (json 400 ValidationErrors, st)
  else
    match Election_findById st id with
    | None => (json 404 (Message "Election not found"), st)
    | Some election =>
      let voteCount := Vote_countDocuments_election st id in
      if (0 <? voteCount)%nat
         && (bool_decide (is_Some (u_startDate body))
             || bool_decide (is_Some (u_endDate body)))
      then
        (json 400 (Message "Cannot modify dates after voting has started"), st)
      else
        if validate election body then
          let election' := assign_election body election in
          (json 200 (ElectionJson election'),
           set_elections st (<[id := election']> (elections st)))
        else (json 500 (Message "Server error"), st)
    end.

(** DELETE /api/admin/elections/:id. *)
Definition deleteElection (id : ObjectId) (st : Store) : Response * Store :=
  match Election_findById st id with
  | None => (json 404 (Message "Election not found"), st)
  | Some _ =>
    let voteCount := Vote_countDocuments_election st id in
    if (0 <? voteCount)%nat then
      (json 400 (Message "Cannot delete election with existing votes"), st)
    else
      let cs :=
        filter (λ kc : N * Candidate.t, Candidate.election (snd kc) ≠ id)
          (candidates st) in
      (json 200 (Message "Election deleted successfully"),
       mkStore (delete id (elections st)) cs (votes st))
  end.

(** DELETE /api/admin/candidates/:id. *)
Definition deleteCandidate (id : ObjectId) (st : Store) : Response * Store :=
  match Candidate_findById st id with
  | None => (json 404 (Message "Candidate not found"), st)
  | Some _ =>
    let voteCount := Vote_countDocuments_candidate st id in
    if (0 <? voteCount)%nat then
      (json 400 (Message "Cannot delete candidate with existing votes"), st)
    else
      (json 200 (Message "Candidate deleted successfully"),
       set_candidates st (delete id (candidates st)))
  end.


(** ** A worked election *)

(** Two orders in which a store may yield documents that it does not
    order otherwise: as the [_id] index lists them, and the reverse of
    it. *)
Definition in_id_order {A} (l : list A) : list A := l.

Definition in_reverse_order {A} (l : list A) : list A := reverse l.

(** An election open from 0 to 100 with candidates created at 10, 20, 30. *)
Definition election1 : Election.t :=
  Election.mk "Board" "Board election" 0 100 true 1.

Definition alice : Candidate.t :=
  Candidate.mk "Alice" "Independent" "" "" 1 0 10.

Definition bob : Candidate.t :=
  Candidate.mk "Bob" "Independent" "" "" 1 0 20.

Definition carol : Candidate.t :=
  Candidate.mk "Carol" "Independent" "" "" 1 0 30.

Definition store0 : Store :=
  mkStore {[ 1%N := election1 ]}
    {[ 10%N := alice; 11%N := bob; 12%N := carol ]} [].

(** Voter [u] votes for candidate [c] in election 1 at instant 50. *)
Definition ballot (u c : ObjectId) : VoteReq := mkVoteReq u 1 (Some c) 50 50.

Fixpoint cast_all (reqs : list VoteReq) (st : Store) : Store :=
  match reqs with
  | [] => st
  | req :: reqs' => cast_all reqs' (snd (castVote req st))
  end.

(** Three votes for Alice, three for Bob, one for Carol. *)
Definition store_tie : Store :=
  cast_all [ballot 1 10; ballot 2 11; ballot 3 10; ballot 4 11;
            ballot 5 10; ballot 6 11; ballot 7 12] store0.

(** Voter 7's request for Alice after its vote was inserted and the counter
    update was rejected. *)
Definition sys_lost : System :=
  mkSystem (set_votes store0 [new_vote (ballot 7 10) 10])
    [mkThread (ballot 7 10) (Responded (json 500 (Message "Server error")))].

(** A validation on save that runs the [endDate] validator. *)
Definition validate_endDate (e : Election.t) (body : ElectionUpdate) : bool :=
  endDate_validator (assign_election body e).

Definition disable : ElectionUpdate :=
  mkElectionUpdate true None None None None (Some false) None.

Definition move_end (t : Z) : ElectionUpdate :=
  mkElectionUpdate true None None None (Some t) None None.

(** Voter 7 has voted for Alice; then the election is disabled. *)
Definition store_voted : Store := snd (castVote (ballot 7 10) store0).

Definition store_disabled : Store :=
  snd (updateElection validate_endDate 1 disable store_voted).

(** Voter 7 sends two requests, for Alice and for Bob; both pass the
    duplicate check before either inserts.  The first insertion wins, the
    second meets the unique index. *)
Definition sys_race : System :=
  mkSystem store_voted
    [mkThread (ballot 7 10) (Responded (fst (castVote (ballot 7 10) store0)));
     mkThread (ballot 7 11) (Responded already_voted)].

(** After voter 7, voter 8 votes for Bob. *)
Definition sys_next : System :=
  mkSystem (snd (castVote (ballot 8 11) store_voted))
    [mkThread (ballot 8 11)
       (Responded (fst (castVote (ballot 8 11) store_voted)))].

(** ** The other routes of [elections.js] *)

(** The answer of a handler whose payload is not a [Body]: the 2xx status
    with the payload, or the error response sent instead. *)
Inductive Answer (A : Type) : Type :=
| Payload (code : Z) (a : A)
| Refused (r : Response).

Arguments Payload {A} code a.
Arguments Refused {A} r.

(** What a service of the front end hands to a page: the data of a 2xx
    answer; any other answer is thrown ([None]). *)
Definition outcome {A} (a : Answer A) : option A :=
  match a with
  | Payload _ x => Some x
  | Refused _ => None
  end.

(** The payload of GET /api/elections/:id/check-vote: [hasVoted] and, for a
    voter who has voted, the name of the chosen candidate and the vote's
    timestamp. *)
Module VoteCheck.
Record t : Type := mk {
  hasVoted : bool;
  vote : option (string * Z)
}.
End VoteCheck.

(** GET /api/elections/:id/check-vote.  The handler reads
    [vote.candidate.name] of the populated vote: a vote whose candidate
    document is gone populates to null, the read throws and the [catch]
    answers 500. *)
Definition checkVote (userId eid : ObjectId) (st : Store)
  : Answer VoteCheck.t :=
  match Vote_findOne st userId eid with
  | None => Payload 200 (VoteCheck.mk false None)
  | Some v =>
    match populate_candidate st v with
    | Some (_, name) =>
      Payload 200 (VoteCheck.mk true (Some (name, Vote.timestamp v)))
    | None => Refused (json 500 (Message "Server error"))
    end
  end.

(** *** Users *)

(** The [role] enum of the User schema: 'admin', 'voter'. *)
Inductive Role : Type := role_admin | role_voter.

#[global] Instance Role_eq_dec : EqDecision Role.
Proof. solve_decision. Defined.

Module User.
Record t : Type := mk {
  name : string;
  email : string;
  password : string;
  role : Role;
  isActive : bool
}.
End User.

(** [.populate('createdBy', 'name')]: the [_id] and the [name] of the user
    the path refers to, null when no user has that id. *)
Definition populate_createdBy (users : gmap N User.t) (election : Election.t)
  : option (ObjectId * string) :=
  match users !! Election.createdBy election with
  | Some u => Some (Election.createdBy election, User.name u)
  | None => None
  end.

(** The payload of GET /api/elections/:id, the [ElectionDetails] of the
    front end: the election document, what [populate] put at its
    [createdBy] path (in the JSON it stands at [election.createdBy]), and
    the candidates. *)
Module ElectionDetails.
Record t : Type := mk {
  election : Election.t;
  createdBy : option (ObjectId * string);
  candidates : list (ObjectId * Candidate.t)
}.
End ElectionDetails.

(** The order of [.sort({ name: 1 })]: names ascending, compared byte by
    byte. *)
Definition by_name_asc (a b : ObjectId * Candidate.t) : Prop :=
  String.leb (Candidate.name (snd a)) (Candidate.name (snd b)) = true.

#[global] Instance by_name_asc_dec a b : Decision (by_name_asc a b).
Proof. unfold by_name_asc. apply _. Defined.

(** [cursor.sort({ name: 1 })]. *)
Definition sort_name_asc
  (natural : list (ObjectId * Candidate.t) → list (ObjectId * Candidate.t))
  (l : list (ObjectId * Candidate.t)) : list (ObjectId * Candidate.t) :=
  sort_by (fun a b => bool_decide (by_name_asc a b))
    (insertion_order natural l).

(** GET /api/elections/:id. *)
Definition getElectionById (users : gmap N User.t)
  (natural : list (ObjectId * Candidate.t) → list (ObjectId * Candidate.t))
  (eid : ObjectId) (st : Store) : Answer ElectionDetails.t :=
  match Election_findById st eid with
  | None => Refused (json 404 (Message "Election not found"))
  | Some election =>
    Payload 200
      (ElectionDetails.mk election (populate_createdBy users election)
         (sort_name_asc natural (Candidate_find st eid)))
  end.

(** [Election.find({ isActive: true })], before any [sort]. *)
Definition Election_find_active (st : Store) : list (ObjectId * Election.t) :=
  List.filter (fun d => Election.isActive (snd d)) (map_to_list (elections st)).

(** The order of [.sort({ startDate: -1 })]: later start dates first. *)
Definition by_startDate_desc (a b : ObjectId * Election.t) : Prop :=
  Election.startDate (snd b) ≤ Election.startDate (snd a).

#[global] Instance by_startDate_desc_dec a b : Decision (by_startDate_desc a b).
Proof. unfold by_startDate_desc. apply _. Defined.

(** [cursor.sort({ startDate: -1 })]; [natural] is the order in which the
    scan of the elections collection yields the documents. *)
Definition sort_startDate_desc
  (natural : list (ObjectId * Election.t) → list (ObjectId * Election.t))
  (l : list (ObjectId * Election.t)) : list (ObjectId * Election.t) :=
  sort_by (fun a b => bool_decide (by_startDate_desc a b)) (natural l).

(** An election of the list with what [.populate('createdBy', 'name')] put
    at its [createdBy] path. *)
Definition populated (users : gmap N User.t) (d : ObjectId * Election.t)
  : ObjectId * Election.t * option (ObjectId * string) :=
  (d, populate_createdBy users (snd d)).

(** GET /api/elections. *)
Definition getElections (users : gmap N User.t)
  (natural : list (ObjectId * Election.t) → list (ObjectId * Election.t))
  (st : Store)
  : Answer (list (ObjectId * Election.t * option (ObjectId * string))) :=
  Payload 200
    (populated users <$> sort_startDate_desc natural (Election_find_active st)).

(** ** The elections page *)

(** What a card of the elections page offers: the 'Vote Now' link, the
    'View Results' link, the greyed 'Not Started' box. *)
Inductive CardAction : Type := VoteNow | ViewResults | NotStarted.

#[global] Instance CardAction_eq_dec : EqDecision CardAction.
Proof. solve_decision. Defined.

Definition card_actions (now : Z) (election : Election.t) : list CardAction :=
  let status := getElectionStatus now election in
  (if decide (status = active) then [VoteNow] else [])
  ++ (if decide (status = ended ∨ status = active) then [ViewResults] else [])
  ++ (if decide (status = upcoming) then [NotStarted] else []).

(** ** The voting page *)

Module VotePage.
Record t : Type := mk {
  electionData : option ElectionDetails.t;
  selectedCandidate : option ObjectId;
  loading : bool;
  submitting : bool;
  error : string;
  hasVoted : bool
}.
End VotePage.

(** The state after the [useState] initialisers. *)
Definition VotePage_init : VotePage.t :=
  VotePage.mk None None true false "" false.

(** [loadElectionData], given what [getElectionById] handed back. *)
Definition loadElectionData (data : option ElectionDetails.t)
  (p : VotePage.t) : VotePage.t :=
  match data with
  | Some d =>
    VotePage.mk (Some d) (VotePage.selectedCandidate p) false
      (VotePage.submitting p) (VotePage.error p) (VotePage.hasVoted p)
  | None =>
    VotePage.mk (VotePage.electionData p) (VotePage.selectedCandidate p) false
      (VotePage.submitting p) "Failed to load election data"
      (VotePage.hasVoted p)
  end.

(** [checkVoteStatus]: a failed check is logged and changes nothing. *)
Definition checkVoteStatus (check : option VoteCheck.t)
  (p : VotePage.t) : VotePage.t :=
  match check with
  | Some c =>
    VotePage.mk (VotePage.electionData p) (VotePage.selectedCandidate p)
      (VotePage.loading p) (VotePage.submitting p) (VotePage.error p)
      (VoteCheck.hasVoted c)
  | None => p
  end.

Definition handleCandidateSelect (candidateId : ObjectId)
  (p : VotePage.t) : VotePage.t :=
  VotePage.mk (VotePage.electionData p) (Some candidateId)
    (VotePage.loading p) (VotePage.submitting p) (VotePage.error p)
    (VotePage.hasVoted p).

(** What the page renders, in the order of its early returns. *)
Inductive VoteView : Type :=
| Spinner
| ElectionNotFound
| VoteAlreadyCast
| ElectionNotActive
| BallotForm (candidates : list (ObjectId * Candidate.t)).

Definition vote_view (now : Z) (p : VotePage.t) : VoteView :=
  if VotePage.loading p then Spinner
  else
    match VotePage.electionData p with
    | None => ElectionNotFound
    | Some d =>
      if VotePage.hasVoted p then VoteAlreadyCast
      else if negb (isElectionActive now (ElectionDetails.election d))
      then ElectionNotActive
      else BallotForm (ElectionDetails.candidates d)
    end.

(** [handleSubmitVote] for the election [eid] of the route, by the signed-in
    voter: without a selection no request is sent; otherwise the vote
    request goes to the server (whose store calls fail as [fails] tells),
    whose answer other than 2xx is thrown by the service and shown as the
    error.  The result is the page, the place navigated to (the results of
    the election) if any, and the store. *)
Definition handleSubmitVote (fails : VotePc → bool) (userId eid : ObjectId)
  (now stamp : Z) (p : VotePage.t) (st : Store)
  : VotePage.t * option ObjectId * Store :=
  match VotePage.selectedCandidate p with
  | None =>
    (VotePage.mk (VotePage.electionData p) None (VotePage.loading p)
       (VotePage.submitting p) "Please select a candidate"
       (VotePage.hasVoted p), None, st)
  | Some cid =>
    let '(r, st') :=
      castVote_with fails (mkVoteReq userId eid (Some cid) now stamp) st in
    if (200 <=? status r) && (status r <? 300) then
      (VotePage.mk (VotePage.electionData p) (Some cid) (VotePage.loading p)
         false "" (VotePage.hasVoted p), Some eid, st')
    else
      (VotePage.mk (VotePage.electionData p) (Some cid) (VotePage.loading p)
         false
         (match body r with
          | Message m => if String.eqb m "" then "Failed to cast vote" else m
          | _ => "Failed to cast vote"
          end)
         (VotePage.hasVoted p), None, st')
  end.

(** ** The other routes of [admin.js] *)

(** [election.save()] of a new document under the [_id] Mongoose gave it:
    the [_id] index refuses an id already taken. *)
Definition Election_insert (st : Store) (id : ObjectId) (e : Election.t)
  : MongoError + Store :=
  match elections st !! id with
  | Some _ => inl E11000
  | None => inr (set_elections st (<[id := e]> (elections st)))
  end.

(** The body of POST /api/admin/elections after express-validator: whether
    [validationResult(req)] is empty, the title and description, and the
    instants [new Date(startDate)] and [new Date(endDate)] (dates that
    [Date] parses). *)
Record ElectionCreate : Type := mkElectionCreate {
  n_errors_isEmpty : bool;
  n_title : string;
  n_description : string;
  n_startDate : Z;
  n_endDate : Z
}.

(** POST /api/admin/elections, by the administrator [userId]; [newId] is the
    [_id] of the new document, [validate] Mongoose's validation in
    [election.save()].  [isActive] takes its default, true. *)
Definition createElection (validate : Election.t → bool)
  (newId userId : ObjectId) (body : ElectionCreate) (st : Store)
  : Response * Store :=
  if negb (n_errors_isEmpty body) then (json 400 ValidationErrors, st)
  else if n_endDate body <=? n_startDate body then
    (json 400 (Message "End date must be after start date"), st)
  else
    let election :=
      Election.mk (n_title body) (n_description body) (n_startDate body)
        (n_endDate body) true userId in
    if validate election then
      match Election_insert st newId election with
      | inl _ => (json 500 (Message "Server error"), st)
      | inr st' => (json 201 (ElectionJson election), st')
      end
    else (json 500 (Message "Server error"), st).

(** The key of the unique index [{ name: 1, election: 1 }]. *)
Definition same_key (c d : Candidate.t) : bool :=
  String.eqb (Candidate.name c) (Candidate.name d)
  && N.eqb (Candidate.election c) (Candidate.election d).

(** [candidate.save()] of a new document: the [_id] index and the unique
    index on (name, election) each refuse a duplicate with code 11000. *)
Definition Candidate_insert (st : Store) (id : ObjectId) (c : Candidate.t)
  : MongoError + Store :=
  match candidates st !! id with
  | Some _ => inl E11000
  | None =>
    if existsb (fun d => same_key c (snd d)) (map_to_list (candidates st))
    then inl E11000
    else inr (set_candidates st (<[id := c]> (candidates st)))
  end.

(** [candidate.save()] of the loaded document [id]: a changed (name,
    election) key is refused by the unique index when another document holds
    it; an unchanged key touches no index. *)
Definition Candidate_update (st : Store) (id : ObjectId) (c : Candidate.t)
  : MongoError + Store :=
  match candidates st !! id with
  | None => inl OtherError
  | Some old =>
    if negb (same_key c old)
       && existsb (fun d => negb (N.eqb (fst d) id) && same_key c (snd d))
            (map_to_list (candidates st))
    then inl E11000
    else inr (set_candidates st (<[id := c]> (candidates st)))
  end.

(** The body of POST /api/admin/elections/:id/candidates after
    express-validator (strings trimmed). *)
Record CandidateCreate : Type := mkCandidateCreate {
  a_errors_isEmpty : bool;
  a_name : string;
  a_party : option string;
  a_description : option string;
  a_photo : option string
}.

(** [x || d] on an optional string: absent and empty are falsy. *)
Definition or_default (x : option string) (d : string) : string :=
  match x with
  | Some s => if String.eqb s "" then d else s
  | None => d
  end.

(** POST /api/admin/elections/:id/candidates at instant [now]; [newId] is
    the [_id] of the new document.  [voteCount] takes its default, 0. *)
Definition addCandidate (validate : Candidate.t → bool)
  (newId eid : ObjectId) (now : Z) (body : CandidateCreate) (st : Store)
  : Answer Candidate.t * Store :=
  if negb (a_errors_isEmpty body) then (Refused (json 400 ValidationErrors), st)
  else
    match Election_findById st eid with
    | None => (Refused (json 404 (Message "Election not found")), st)
    | Some _ =>
      let candidate :=
        Candidate.mk (a_name body) (or_default (a_party body) "Independent")
          (or_default (a_description body) "") (or_default (a_photo body) "")
          eid 0 now in
      if validate candidate then
        match Candidate_insert st newId candidate with
        | inl E11000 =>
          (Refused
             (json 400 (Message "Candidate already exists in this election")),
           st)
        | inl OtherError => (Refused (json 500 (Message "Server error")), st)
        | inr st' => (Payload 201 candidate, st')
        end
      else (Refused (json 500 (Message "Server error")), st)
    end.

(** The body of PUT /api/admin/candidates/:id after express-validator: the
    value of each key the body holds among the paths the schema declares:
    name, party, description, photo, election and voteCount (an integer);
    [_id] and the timestamps are left out, as for an election. *)
Record CandidateUpdate : Type := mkCandidateUpdate {
  k_errors_isEmpty : bool;
  k_name : option string;
  k_party : option string;
  k_description : option string;
  k_photo : option string;
  k_election : option ObjectId;
  k_voteCount : option Z
}.

(** [Object.keys(req.body).forEach(key => { candidate[key] = req.body[key] })]. *)
Definition assign_candidate (body : CandidateUpdate) (c : Candidate.t)
  : Candidate.t :=
  Candidate.mk
    (default (Candidate.name c) (k_name body))
    (default (Candidate.party c) (k_party body))
    (default (Candidate.description c) (k_description body))
    (default (Candidate.photo c) (k_photo body))
    (default (Candidate.election c) (k_election body))
    (default (Candidate.voteCount c) (k_voteCount body))
    (Candidate.createdAt c).

(** PUT /api/admin/candidates/:id.  The handler looks at no vote; every
    error of [candidate.save()], the duplicate key too, is answered 500. *)
Definition updateCandidate (validate : Candidate.t → bool)
  (id : ObjectId) (body : CandidateUpdate) (st : Store)
  : Answer Candidate.t * Store :=
  if negb (k_errors_isEmpty body) then (Refused (json 400 ValidationErrors), st)
  else
    match Candidate_findById st id with
    | None => (Refused (json 404 (Message "Candidate not found")), st)
    | Some candidate =>
      let candidate' := assign_candidate body candidate in
      if validate candidate' then
        match Candidate_update st id candidate' with
        | inl _ => (Refused (json 500 (Message "Server error")), st)
        | inr st' => (Payload 200 candidate', st')
        end
      else (Refused (json 500 (Message "Server error")), st)
    end.

(** *** GET /api/admin/stats *)

Definition is_role (r : Role) (d : ObjectId * User.t) : bool :=
  bool_decide (User.role (snd d) = r).

Module AdminStats.
Record t : Type := mk {
  users_total : nat;
  users_voters : nat;
  users_admins : nat;
  elections_total : nat;
  elections_active : nat;
  votes : nat;
  candidates : nat
}.
End AdminStats.

Definition getStats (users : gmap N User.t) (st : Store) : AdminStats.t :=
  AdminStats.mk
    (size users)
    (length (List.filter (is_role role_voter) (map_to_list users)))
    (length (List.filter (is_role role_admin) (map_to_list users)))
    (size (elections st))
    (length (Election_find_active st))
    (length (votes st))
    (size (candidates st)).

(** ** The handlers as operations on the store *)

(** Mongoose's validation on save, for each kind of save. *)
Record Validation : Type := mkValidation {
  valid_new_election : Election.t → bool;
  valid_election_update : Election.t → ElectionUpdate → bool;
  valid_candidate : Candidate.t → bool
}.

Inductive Op : Type :=
| OpVote (req : VoteReq)
| OpCreateElection (newId userId : ObjectId) (body : ElectionCreate)
| OpUpdateElection (id : ObjectId) (body : ElectionUpdate)
| OpDeleteElection (id : ObjectId)
| OpAddCandidate (newId eid : ObjectId) (now : Z) (body : CandidateCreate)
| OpUpdateCandidate (id : ObjectId) (body : CandidateUpdate)
| OpDeleteCandidate (id : ObjectId).

(** The store a handler leaves, run in one piece. *)
Definition apply_op (mg : Validation) (op : Op) (st : Store) : Store :=
  match op with
  | OpVote req => snd (castVote req st)
  | OpCreateElection newId userId body =>
    snd (createElection (valid_new_election mg) newId userId body st)
  | OpUpdateElection id body =>
    snd (updateElection (valid_election_update mg) id body st)
  | OpDeleteElection id => snd (deleteElection id st)
  | OpAddCandidate newId eid now body =>
    snd (addCandidate (valid_candidate mg) newId eid now body st)
  | OpUpdateCandidate id body =>
    snd (updateCandidate (valid_candidate mg) id body st)
  | OpDeleteCandidate id => snd (deleteCandidate id st)
  end.

Definition apply_ops (mg : Validation) (ops : list Op) (st : Store) : Store :=
  foldl (fun s op => apply_op mg op s) st ops.

Definition empty_store : Store := mkStore ∅ ∅ [].

(** A PUT on a candidate that sets neither its election nor its counter. *)
Definition keeps_tally (op : Op) : Prop :=
  match op with
  | OpUpdateCandidate _ body => k_election body = None ∧ k_voteCount body = None
  | _ => True
  end.

(** No two candidates of an election bear the same name. *)
Definition names_unique (st : Store) : Prop :=
  ∀ i j c d,
    candidates st !! i = Some c → candidates st !! j = Some d →
    Candidate.name c = Candidate.name d →
    Candidate.election c = Candidate.election d → i = j.

(** Every vote names a candidate of the store that belongs to the vote's
    election, and every candidate belongs to an election of the store. *)
Definition refs_ok (st : Store) : Prop :=
  (∀ v, v ∈ votes st →
     ∃ c, candidates st !! Vote.candidate v = Some c
          ∧ Candidate.election c = Vote.election v)
  ∧ (∀ cid c, candidates st !! cid = Some c →
       is_Some (elections st !! Candidate.election c)).


(** The start date and the end date of [e'] are those of [e]. *)
Definition same_window (e e' : Election.t) : Prop :=
  Election.startDate e' = Election.startDate e
  ∧ Election.endDate e' = Election.endDate e.

(** ** The authentication context of the front end *)

Module Auth.

Record State (U : Type) : Type := mk {
  user : option U;
  isAuthenticated : bool;
  isLoading : bool
}.

Arguments mk {U} user isAuthenticated isLoading.
Arguments user {U} s.
Arguments isAuthenticated {U} s.
Arguments isLoading {U} s.

Inductive Action (U : Type) : Type :=
| AUTH_START
| AUTH_SUCCESS (payload : U)
| AUTH_FAIL
| LOGOUT.

Arguments AUTH_START {U}.
Arguments AUTH_SUCCESS {U} payload.
Arguments AUTH_FAIL {U}.
Arguments LOGOUT {U}.

Definition initialState {U} : State U := mk None false true.

Definition authReducer {U} (state : State U) (action : Action U) : State U :=
  match action with
  | AUTH_START => mk (user state) (isAuthenticated state) true
  | AUTH_SUCCESS payload => mk (Some payload) true false
  | AUTH_FAIL => mk None false false
  | LOGOUT => mk None false false
  end.

(** The dispatches of [login] and of [register], given what the service
    call handed back ([None] when it threw). *)
Definition login {U} (result : option U) : list (Action U) :=
  [AUTH_START;
   match result with Some u => AUTH_SUCCESS u | None => AUTH_FAIL end].

(** [checkAuth]: [hasToken] is [authService.isAuthenticated()], [stored]
    is [authService.getStoredUser()] (each [None] when the call throws),
    [verified] tells whether [authService.getCurrentUser()] resolved.  The
    result tells whether [authService.logout()] was called and the action
    dispatched. *)
Definition checkAuth {U} (hasToken : option bool) (stored : option (option U))
  (verified : bool) : bool * Action U :=
  match hasToken with
  | None => (true, AUTH_FAIL)
  | Some false => (false, AUTH_FAIL)
  | Some true =>
    match stored with
    | None => (true, AUTH_FAIL)
    | Some None => (false, AUTH_FAIL)
    | Some (Some storedUser) =>
      if verified then (false, AUTH_SUCCESS storedUser)
      else (true, AUTH_FAIL)
    end
  end.

(** Where [Home] of [App.tsx] navigates. *)
Inductive Route : Type := to_login | to_admin | to_elections.

Definition Home {U} (role : U → Role) (state : State U) : Route :=
  if negb (isAuthenticated state) then to_login
  else
    match user state with
    | Some u => if decide (role u = role_admin) then to_admin else to_elections
    | None => to_elections
    end.

(** The states the provider can be in. *)
Definition states {U} (actions : list (Action U)) : State U :=
  foldl authReducer initialState actions.

End Auth.

(** The sum of the counters of a list of candidates. *)
Definition counts_total (l : list (ObjectId * Candidate.t)) : Z :=
  foldr (fun d acc => Candidate.voteCount (snd d) + acc) 0 l.

(** ** A worked administration session *)

(** Mongoose's validation on save as the schemas declare it.  An election:
    a title of at least 3 characters, a description, an end date after the
    start date.  A candidate: a name of at least 2 characters, a
    description of at most 500, a counter of at least 0. *)
Definition Election_validate (e : Election.t) : bool :=
  (3 <=? String.length (Election.title e))%nat
  && negb (String.eqb (Election.description e) "")
  && endDate_validator e.

Definition Candidate_validate (c : Candidate.t) : bool :=
  (2 <=? String.length (Candidate.name c))%nat
  && (String.length (Candidate.description c) <=? 500)%nat
  && (0 <=? Candidate.voteCount c).

Definition mongoose : Validation :=
  mkValidation Election_validate
    (fun e body => Election_validate (assign_election body e))
    Candidate_validate.

Definition dave : CandidateCreate :=
  mkCandidateCreate true "Dave" None None None.

Definition dave_doc : Candidate.t :=
  Candidate.mk "Dave" "Independent" "" "" 1 0 40.

Definition alice_again : CandidateCreate :=
  mkCandidateCreate true "Alice" (Some "Green") None None.

Definition rename_carol : CandidateUpdate :=
  mkCandidateUpdate true (Some "Caroline") None None None None None.

(** Dave is added and voted for, Alice gets a vote, Carol is renamed, the
    election is disabled and Bob, who has no vote, is deleted. *)
Definition session : list Op :=
  [OpAddCandidate 13 1 40 dave; OpVote (ballot 7 13); OpVote (ballot 8 10);
   OpUpdateCandidate 12 rename_carol; OpUpdateElection 1 disable;
   OpDeleteCandidate 11].

(** A PUT that hands the election to user 9. *)
Definition hand_over : ElectionUpdate :=
  mkElectionUpdate true None None None None None (Some 9%N).

(** After voter 7 has voted: an attempt to move the end date, an attempt to
    delete the election, another vote, the election handed to user 9 and
    disabled. *)
Definition session_after : list Op :=
  [OpUpdateElection 1 (move_end 500); OpDeleteElection 1;
   OpVote (ballot 8 11); OpUpdateElection 1 hand_over;
   OpUpdateElection 1 disable].

(** A second election, from 200 to 300, and one switched off. *)
Definition election2 : Election.t :=
  Election.mk "Council" "Council election" 200 300 true 1.

Definition election3 : Election.t :=
  Election.mk "Club" "Club election" 0 100 false 1.

Definition store_three : Store :=
  set_elections store0
    {[ 1%N := election1; 2%N := election2; 3%N := election3 ]}.

Definition root : User.t :=
  User.mk "Root" "root@example.org" "secret" role_admin true.

Definition users0 : gmap N User.t :=
  {[ 1%N := root;
     7%N := User.mk "Seven" "seven@example.org" "secret" role_voter true;
     8%N := User.mk "Eight" "eight@example.org" "secret" role_voter true ]}.

(** The voting page of election 1 as voter 7 loads it from [store0]. *)
Definition details0 : ElectionDetails.t :=
  ElectionDetails.mk election1 (Some (1%N, "Root"))
    (sort_name_asc in_id_order (Candidate_find store0 1)).

Definition page0 : VotePage.t :=
  checkVoteStatus (Some (VoteCheck.mk false None))
    (loadElectionData (Some details0) VotePage_init).

(** A second election is created, Alice is moved into it by a PUT on the
    candidate, and the election, which holds no vote, is deleted with its
    candidates: the vote of voter 7 for Alice stays behind. *)
Definition council : ElectionCreate :=
  mkElectionCreate true "Council" "Council election" 200 300.


Definition move_alice : CandidateUpdate :=
  mkCandidateUpdate true None None None None (Some 2%N) None.

Definition session_orphan : list Op :=
  [OpCreateElection 2 1 council; OpUpdateCandidate 10 move_alice;
   OpDeleteElection 2].

Definition store_orphan : Store := apply_ops mongoose session_orphan store_voted.

Definition set_count (n : Z) : CandidateUpdate :=
  mkCandidateUpdate true None None None None None (Some n).

Definition rename_to_alice : CandidateUpdate :=
  mkCandidateUpdate true (Some "Alice") None None None None None.

(** The counter update of every request is rejected. *)
Definition increment_fails (pc : VotePc) : bool :=
  match pc with AtIncrement _ _ _ _ => true | _ => false end.

(** ** The vote log under [Vote_save] *)

Lemma existsb_false_filter {A} (p : A → bool) (l : list A) :
  existsb p l = false → List.filter p l = [].
Proof.
  induction l as [|x l IH]; simpl; [done|].
  intros [Hx Hl]%orb_false_iff. rewrite Hx. auto.
Qed.

Lemma find_none_existsb {A} (p : A → bool) (l : list A) :
  List.find p l = None ↔ existsb p l = false.
Proof.
  induction l as [|x l IH]; simpl; [done|].
  destruct (p x); simpl; [split; discriminate | exact IH].
Qed.

Lemma filter_length_snoc {A} (p : A → bool) (l : list A) (x : A) :
  length (List.filter p (l ++ [x]))
  = (length (List.filter p l) + (if p x then 1 else 0))%nat.
Proof.
  rewrite List.filter_app, length_app. simpl. by destruct (p x).
Qed.

Lemma filter_length_replace {A} (p : A → bool) (l1 l2 : list A) (x : A) :
  length (List.filter p (l1 ++ x :: l2))
  = (length (List.filter p l1) + (if p x then 1 else 0)
     + length (List.filter p l2))%nat.
Proof.
  rewrite List.filter_app, length_app. simpl. destruct (p x); simpl; lia.
Qed.

Lemma existsb_filter_length {A} (p : A → bool) (l : list A) :
  existsb p l = true ↔ (0 < length (List.filter p l))%nat.
Proof.
  induction l as [|x l IH]; simpl; [split; [done | lia]|].
  destruct (p x); simpl; [split; [lia | done] | exact IH].
Qed.

Lemma filter_length_0 {A} (p : A → bool) (l : list A) (x : A) :
  length (List.filter p l) = 0%nat → x ∈ l → p x = false.
Proof.
  induction l as [|y l IH]; simpl; [by intros _ ?%elem_of_nil|].
  destruct (p y) eqn:Hy; simpl; [lia|].
  intros H0 [-> | Hin]%elem_of_cons; auto.
Qed.

Lemma Vote_save_inr st v st' :
  Vote_save st v = inr st' →
  existsb (vote_of (Vote.voter v) (Vote.election v)) (votes st) = false
  ∧ st' = set_votes st (votes st ++ [v]).
Proof.
  unfold Vote_save.
  destruct (existsb _ _); [discriminate|]. intros [= <-]. done.
Qed.

Lemma Vote_save_inl st v err :
  Vote_save st v = inl err →
  err = E11000
  ∧ existsb (vote_of (Vote.voter v) (Vote.election v)) (votes st) = true.
Proof.
  unfold Vote_save.
  destruct (existsb _ _); [|discriminate]. intros [= <-]. done.
Qed.

Lemma vote_of_inv u e v :
  vote_of u e v = true ↔ Vote.voter v = u ∧ Vote.election v = e.
Proof.
  unfold vote_of. rewrite andb_true_iff, !N.eqb_eq. done.
Qed.

Lemma Vote_save_unique st v st' :
  votes_unique st → Vote_save st v = inr st' → votes_unique st'.
Proof.
  intros Hu [Hfresh ->]%Vote_save_inr u e.
  unfold votes_of. simpl. rewrite filter_length_snoc.
  destruct (vote_of u e v) eqn:Hv.
  - apply vote_of_inv in Hv as [<- <-].
    rewrite (existsb_false_filter _ _ Hfresh). simpl. lia.
  - specialize (Hu u e). unfold votes_of in Hu. lia.
Qed.

(** Only [vote.save()] writes the vote log. *)
Lemma vote_step_votes req pc st pc' st' :
  vote_step req pc st = (pc', st') →
  votes st' = votes st
  ∨ ∃ cid e c, pc = AtSave cid e c
      ∧ pc' = AtIncrement cid e c (new_vote req cid)
      ∧ Vote_save st (new_vote req cid) = inr st'.
Proof.
  unfold vote_step. intros Hs.
  destruct pc as [cid|cid e|cid e c|cid e c|cid e c v|r].
  - destruct (Election_findById _ _); [|by injection Hs as <- <-; left].
    destruct (window_check _ _); by injection Hs as <- <-; left.
  - destruct (Candidate_findOne _ _ _); by injection Hs as <- <-; left.
  - destruct (Vote_findOne _ _ _); by injection Hs as <- <-; left.
  - destruct (Vote_save st (new_vote req cid)) as [[]|st1] eqn:Hsave;
      injection Hs as <- <-; [by left | by left | right; by eexists _, _, _].
  - injection Hs as <- <-. by left.
  - injection Hs as <- <-. by left.
Qed.

Lemma votes_unique_ext st st' :
  votes st' = votes st → votes_unique st → votes_unique st'.
Proof. unfold votes_unique, votes_of. by intros ->. Qed.

Lemma vote_step_unique req pc st pc' st' :
  vote_step req pc st = (pc', st') → votes_unique st → votes_unique st'.
Proof.
  intros [Heq | (cid & e & c & _ & _ & Hsave)]%vote_step_votes Hu.
  - by eapply votes_unique_ext.
  - by eapply Vote_save_unique.
Qed.

Lemma sys_step_unique faulty sys sys' :
  sys_step faulty sys sys' → votes_unique (store sys) → votes_unique (store sys').
Proof.
  destruct 1; simpl; eauto using vote_step_unique.
Qed.

Lemma run_unique faulty sys sys' :
  rtc (sys_step faulty) sys sys' →
  votes_unique (store sys) → votes_unique (store sys').
Proof. induction 1; eauto using sys_step_unique. Qed.

(** C1. Whatever requests are in flight and wherever each one stands in
    the handler (so also past its own duplicate check), every state the
    system reaches from a store with at most one vote per (voter, election)
    pair has at most one vote per (voter, election) pair, with or without
    rejected store calls: the unique index applied by [Vote_save] alone
    keeps the invariant. *)
Theorem votes_unique_invariant (faulty : bool) (st0 : Store)
  (ts0 : list Thread) (sys : System) :
  votes_unique st0 →
  rtc (sys_step faulty) (mkSystem st0 ts0) sys →
  votes_unique (store sys).
Proof.
  intros H0.
  apply (rtc_ind_r (R := sys_step faulty) (λ s, votes_unique (store s)));
    [exact H0|].
  intros sys1 sys2 _ Hstep Hu.
  destruct Hstep as [st ts req | st ts1 ts2 req pc pc' st' Hs
                    | st ts1 ts2 req pc Hf Haw]; simpl in *; try done.
  destruct (vote_step_votes _ _ _ _ _ Hs)
    as [Heq | (cid & e & c & _ & _ & Hsave)].
  - by eapply votes_unique_ext.
  - by eapply Vote_save_unique.
Qed.

(** ** The handler run in one piece *)

Lemma castVote_run req st :
  vote_run 5 req (vote_enter req) st
  = (Responded (fst (castVote req st)), snd (castVote req st)).
Proof.
  unfold vote_enter, castVote.
  destruct (candidateId req) as [cid|]; [|done].
  cbn [vote_run vote_step].
  destruct (Election_findById st (electionId req)) as [e|];
    cbn [vote_run vote_step]; [|done].
  destruct (window_check (now req) e); cbn [vote_run vote_step]; [done|].
  destruct (Candidate_findOne st cid (electionId req)) as [c|];
    cbn [vote_run vote_step]; [|done].
  destruct (Vote_findOne st (user req) (electionId req));
    cbn [vote_run vote_step]; [done|].
  destruct (Vote_save st (new_vote req cid)) as [[]|st1];
    cbn [vote_run vote_step]; done.
Qed.

Lemma Candidate_findOne_Some st cid eid c :
  Candidate_findOne st cid eid = Some c ↔
  candidates st !! cid = Some c ∧ Candidate.election c = eid.
Proof.
  unfold Candidate_findOne.
  destruct (candidates st !! cid) as [c'|]; [|by split; [|intros []]].
  destruct (N.eqb_spec (Candidate.election c') eid) as [He|He].
  - split; [by intros [= <-] | by intros [[= <-] _]].
  - split; [done | intros [[= <-] ?]; congruence].
Qed.

Lemma Candidate_findOne_None st cid eid :
  Candidate_findOne st cid eid = None ↔
  ∀ c, candidates st !! cid = Some c → Candidate.election c ≠ eid.
Proof.
  unfold Candidate_findOne.
  destruct (candidates st !! cid) as [c'|]; [|done].
  destruct (N.eqb_spec (Candidate.election c') eid) as [He|He].
  - split; [done | intros Hc; by destruct (Hc c')].
  - split; [by intros _ c [= <-] | done].
Qed.

Lemma existsb_vote_of st u e :
  existsb (vote_of u e) (votes st) = true ↔ has_voted st u e.
Proof.
  unfold has_voted. rewrite existsb_exists.
  setoid_rewrite vote_of_inv. setoid_rewrite list_elem_of_In. done.
Qed.

Lemma Vote_findOne_None st u e :
  Vote_findOne st u e = None ↔ ¬ has_voted st u e.
Proof.
  unfold Vote_findOne. rewrite find_none_existsb, <- existsb_vote_of.
  by destruct (existsb _ _).
Qed.

Lemma Vote_findOne_Some st u e :
  has_voted st u e → ∃ v, Vote_findOne st u e = Some v.
Proof.
  intros Hv. destruct (Vote_findOne st u e) eqn:Hf; [eauto|].
  by apply Vote_findOne_None in Hf.
Qed.

Lemma window_check_status now e :
  window_check now e =
  match getElectionStatus now e with
  | inactive => Some (json 400 (Message "Election is not active"))
  | upcoming => Some (json 400 (Message "Election has not started yet"))
  | ended => Some (json 400 (Message "Election has ended"))
  | active => None
  end.
Proof.
  unfold window_check, getElectionStatus.
  destruct (Election.isActive e); simpl; [|done].
  destruct (Z.ltb_spec now (Election.startDate e)); [done|].
  destruct (Z.geb_spec now (Election.startDate e)); [|lia].
  destruct (Z.gtb_spec now (Election.endDate e));
    destruct (Z.leb_spec now (Election.endDate e)); simpl; try done; lia.
Qed.

Lemma castVote_admit req cid st e c :
  candidateId req = Some cid →
  Election_findById st (electionId req) = Some e →
  window_check (now req) e = None →
  Candidate_findOne st cid (electionId req) = Some c →
  Vote_findOne st (user req) (electionId req) = None →
  castVote req st =
  (vote_cast e c (new_vote req cid),
   Candidate_findByIdAndUpdate_inc
     (set_votes st (votes st ++ [new_vote req cid])) cid).
Proof.
  intros Hc He Hw Hf Hv. unfold castVote. rewrite Hc, He, Hw, Hf, Hv.
  unfold Vote_save. simpl.
  apply find_none_existsb in Hv. unfold Vote_findOne in Hv.
  by rewrite Hv.
Qed.

Lemma castVote_success_inv req st r st1 :
  castVote req st = (r, st1) → status r = 201 →
  ∃ cid e c,
    candidateId req = Some cid
    ∧ Election_findById st (electionId req) = Some e
    ∧ window_check (now req) e = None
    ∧ Candidate_findOne st cid (electionId req) = Some c
    ∧ Vote_findOne st (user req) (electionId req) = None
    ∧ r = vote_cast e c (new_vote req cid)
    ∧ st1 = Candidate_findByIdAndUpdate_inc
              (set_votes st (votes st ++ [new_vote req cid])) cid.
Proof.
  unfold castVote.
  destruct (candidateId req) as [cid|]; [|by intros [= <- <-]].
  destruct (Election_findById st (electionId req)) as [e|] eqn:He;
    [|by intros [= <- <-]].
  destruct (window_check (now req) e) as [r'|] eqn:Hw.
  { intros [= <- <-] Hst. rewrite window_check_status in Hw.
    destruct (getElectionStatus _ _); by simplify_eq. }
  destruct (Candidate_findOne st cid (electionId req)) as [c|] eqn:Hf;
    [|by intros [= <- <-]].
  destruct (Vote_findOne st (user req) (electionId req)) eqn:Hv;
    [by intros [= <- <-]|].
  destruct (Vote_save st (new_vote req cid)) as [[]|st'] eqn:Hs;
    [by intros [= <- <-] | by intros [= <- <-] |].
  apply Vote_save_inr in Hs as [_ ->].
  intros [= <- <-] _. by eexists _, _, _.
Qed.

Lemma castVote_reject_unchanged req st r st1 :
  castVote req st = (r, st1) → status r ≠ 201 → st1 = st.
Proof.
  unfold castVote.
  destruct (candidateId req) as [cid|]; [|by intros [= <- <-]].
  destruct (Election_findById st (electionId req)) as [e|];
    [|by intros [= <- <-]].
  destruct (window_check (now req) e); [by intros [= <- <-]|].
  destruct (Candidate_findOne st cid (electionId req)) as [c|];
    [|by intros [= <- <-]].
  destruct (Vote_findOne st (user req) (electionId req));
    [by intros [= <- <-]|].
  destruct (Vote_save st (new_vote req cid)) as [[]|st'];
    [by intros [= <- <-] | by intros [= <- <-] |].
  by intros [= <- <-].
Qed.

Lemma castVote_duplicate req cid st e c :
  candidateId req = Some cid →
  Election_findById st (electionId req) = Some e →
  window_check (now req) e = None →
  Candidate_findOne st cid (electionId req) = Some c →
  has_voted st (user req) (electionId req) →
  castVote req st = (already_voted, st).
Proof.
  intros Hc He Hw Hf [v Hv]%Vote_findOne_Some.
  unfold castVote. by rewrite Hc, He, Hw, Hf, Hv.
Qed.

(** ** The handler run alone with failing store calls *)

Lemma vote_run_with_cases fails req st :
  vote_run_with fails 5 req (vote_enter req) st
  = vote_run 5 req (vote_enter req) st
  ∨ vote_run_with fails 5 req (vote_enter req) st
    = (Responded (json 500 (Message "Server error")), st)
  ∨ ∃ cid el c,
      candidateId req = Some cid
      ∧ vote_run 4 req (vote_enter req) st
        = (AtIncrement cid el c (new_vote req cid),
           set_votes st (votes st ++ [new_vote req cid]))
      ∧ fails (AtIncrement cid el c (new_vote req cid)) = true
      ∧ vote_run_with fails 5 req (vote_enter req) st
        = (Responded (json 500 (Message "Server error")),
           set_votes st (votes st ++ [new_vote req cid])).
Proof.
  unfold vote_enter.
  destruct (candidateId req) as [cid|] eqn:Hcid; [|by left].
  cbn [vote_run_with vote_run]. unfold vote_step_with.
  cbn [awaiting andb vote_reject].
  destruct (fails (AtFindElection cid)); [by right; left|].
  cbn [vote_step].
  destruct (Election_findById st (electionId req)) as [el|];
    cbn [awaiting andb vote_reject vote_step]; [|by left].
  destruct (window_check (now req) el);
    cbn [awaiting andb vote_reject vote_step]; [by left|].
  destruct (fails (AtFindCandidate cid el)); [by right; left|].
  destruct (Candidate_findOne st cid (electionId req)) as [c|];
    cbn [awaiting andb vote_reject vote_step]; [|by left].
  destruct (fails (AtFindVote cid el c)); [by right; left|].
  destruct (Vote_findOne st (user req) (electionId req)) eqn:Hv;
    cbn [awaiting andb vote_reject vote_step]; [by left|].
  destruct (fails (AtSave cid el c)); [by right; left|].
  destruct (Vote_save st (new_vote req cid)) as [[]|st1] eqn:Hs;
    cbn [awaiting andb vote_reject vote_step]; [by left | by left |].
  destruct (fails (AtIncrement cid el c (new_vote req cid))) eqn:Hf;
    [|by left].
  right; right. exists cid, el, c.
  assert (st1 = set_votes st (votes st ++ [new_vote req cid])) as ->.
  { revert Hs. unfold Vote_save. by destruct (existsb _ _); intros [= <-]. }
  split_and!; done.
Qed.

Lemma castVote_with_run fails req st :
  vote_run_with fails 5 req (vote_enter req) st
  = (Responded (fst (castVote_with fails req st)),
     snd (castVote_with fails req st)).
Proof.
  unfold castVote_with.
  destruct (vote_run_with_cases fails req st)
    as [H | [H | (cid & el & c & _ & _ & _ & H)]]; rewrite H; [|done|done].
  by rewrite castVote_run.
Qed.

Lemma castVote_with_cases fails req st :
  castVote_with fails req st = castVote req st
  ∨ castVote_with fails req st = (json 500 (Message "Server error"), st)
  ∨ ∃ cid el c,
      candidateId req = Some cid
      ∧ castVote req st
        = (vote_cast el c (new_vote req cid),
           Candidate_findByIdAndUpdate_inc
             (set_votes st (votes st ++ [new_vote req cid])) cid)
      ∧ vote_run 4 req (vote_enter req) st
        = (AtIncrement cid el c (new_vote req cid),
           set_votes st (votes st ++ [new_vote req cid]))
      ∧ fails (AtIncrement cid el c (new_vote req cid)) = true
      ∧ castVote_with fails req st
        = (json 500 (Message "Server error"),
           set_votes st (votes st ++ [new_vote req cid])).
Proof.
  unfold castVote_with.
  destruct (vote_run_with_cases fails req st)
    as [H | [H | (cid & el & c & Hcid & Hrun & Hf & H)]]; rewrite H.
  - left. rewrite castVote_run. by destruct (castVote req st).
  - by right; left.
  - right; right. exists cid, el, c. split_and!; try done.
    pose proof (castVote_run req st) as Hr.
    change 5%nat with (4 + 1)%nat in Hr.
    assert (vote_run 5 req (vote_enter req) st
            = vote_step req (AtIncrement cid el c (new_vote req cid))
                (set_votes st (votes st ++ [new_vote req cid]))) as H5.
    { revert Hrun. clear. unfold vote_enter.
      destruct (candidateId req) as [cid0|]; [|done].
      cbn [vote_run].
      destruct (vote_step req (AtFindElection cid0) st) as [pc1 st1].
      destruct (vote_step req pc1 st1) as [pc2 st2].
      destruct (vote_step req pc2 st2) as [pc3 st3].
      destruct (vote_step req pc3 st3) as [pc4 st4].
      intros [= -> ->]. by destruct (vote_step _ _ _). }
    rewrite castVote_run in H5. cbn [vote_step] in H5.
    destruct (castVote req st) as [r st1]. simpl in H5. by injection H5 as -> ->.
Qed.

Lemma castVote_with_no_failure req st :
  castVote_with no_failure req st = castVote req st.
Proof.
  destruct (castVote_with_cases no_failure req st)
    as [H | [H | (cid & el & c & _ & _ & _ & Hf & _)]]; [done | | done].
  rewrite H. revert H. unfold castVote_with.
  assert (vote_run_with no_failure 5 req (vote_enter req) st
          = vote_run 5 req (vote_enter req) st) as ->.
  { generalize (vote_enter req) 5%nat st. intros pc n. revert pc.
    induction n as [|n IH]; intros pc st0; [done|].
    cbn [vote_run_with vote_run]. unfold vote_step_with, no_failure.
    rewrite andb_false_r. destruct (vote_step req pc st0). apply IH. }
  rewrite castVote_run. intros [= Hr Hs]. destruct (castVote req st).
  simpl in *. by subst.
Qed.

Lemma vote_run_with_rtc fails n req pc st :
  rtc (sys_step true) (mkSystem st [mkThread req pc])
    (mkSystem (snd (vote_run_with fails n req pc st))
       [mkThread req (fst (vote_run_with fails n req pc st))]).
Proof.
  revert pc st. induction n as [|n IH]; intros pc st; [apply rtc_refl|].
  cbn [vote_run_with]. unfold vote_step_with.
  destruct (awaiting pc && fails pc) eqn:Hf.
  - apply andb_prop in Hf as [Hpc _].
    eapply rtc_l; [|apply IH].
    by apply (step_reject true st [] [] req pc).
  - destruct (vote_step req pc st) as [pc' st'] eqn:Hstep.
    eapply rtc_l; [|apply IH].
    by apply (step_serve true st [] [] req pc pc' st').
Qed.

Lemma castVote_with_reachable fails req st :
  reachable true st
    (mkSystem (snd (castVote_with fails req st))
       [mkThread req (Responded (fst (castVote_with fails req st)))]).
Proof.
  unfold reachable.
  eapply rtc_l; [apply (step_arrive true st [] req)|]. cbn [app].
  pose proof (vote_run_with_rtc fails 5 req (vote_enter req) st) as Hrun.
  by rewrite castVote_with_run in Hrun.
Qed.

(** ** What a vote request leaves in place *)

Lemma store_extends_refl st : store_extends st st.
Proof. unfold store_extends. eauto. Qed.

Lemma store_extends_trans st1 st2 st3 :
  store_extends st1 st2 → store_extends st2 st3 → store_extends st1 st3.
Proof.
  intros (He1 & Hc1 & Hv1) (He2 & Hc2 & Hv2). split_and!.
  - congruence.
  - intros cid c Hc. destruct (Hc1 _ _ Hc) as (c' & Hc' & Hel).
    destruct (Hc2 _ _ Hc') as (c'' & Hc'' & Hel'). exists c''.
    split; [done | congruence].
  - auto.
Qed.

Lemma Vote_save_extends st v st' :
  Vote_save st v = inr st' → store_extends st st'.
Proof.
  intros [_ ->]%Vote_save_inr. split_and!; simpl; eauto.
  intros v' Hv'. apply elem_of_app. by left.
Qed.

Lemma inc_extends st cid :
  store_extends st (Candidate_findByIdAndUpdate_inc st cid).
Proof.
  split_and!; simpl; [done | | done].
  intros cid' c Hc. rewrite lookup_alter.
  case_decide as Heq; subst; rewrite Hc; simpl; eauto.
Qed.

Lemma vote_step_extends req pc st pc' st' :
  vote_step req pc st = (pc', st') → store_extends st st'.
Proof.
  destruct pc as [cid|cid e|cid e c|cid e c|cid e c v|r]; cbn [vote_step].
  - destruct (Election_findById _ _); [|intros [= <- <-]; apply store_extends_refl].
    destruct (window_check _ _); intros [= <- <-]; apply store_extends_refl.
  - destruct (Candidate_findOne _ _ _); intros [= <- <-];
      apply store_extends_refl.
  - destruct (Vote_findOne _ _ _); intros [= <- <-]; apply store_extends_refl.
  - destruct (Vote_save st (new_vote req cid)) as [[]|st1] eqn:Hs;
      intros [= <- <-]; eauto using store_extends_refl, Vote_save_extends.
  - intros [= <- <-]. apply inc_extends.
  - intros [= <- <-]. apply store_extends_refl.
Qed.

Lemma sys_step_extends faulty sys sys' :
  sys_step faulty sys sys' → store_extends (store sys) (store sys').
Proof.
  destruct 1; simpl; eauto using store_extends_refl, vote_step_extends.
Qed.

Lemma run_extends faulty sys sys' :
  rtc (sys_step faulty) sys sys' → store_extends (store sys) (store sys').
Proof.
  induction 1; eauto using store_extends_refl, store_extends_trans,
    sys_step_extends.
Qed.

Lemma has_voted_extends st st' u e :
  store_extends st st' → has_voted st u e → has_voted st' u e.
Proof. intros (_ & _ & Hv) (v & Hin & ?). exists v. auto. Qed.

(** ** Election clock: properties *)

(** C4. [getElectionStatus] is 'inactive' exactly when the election is
    disabled, 'upcoming' exactly when it is enabled and now is before the
    start, 'active' exactly when it is enabled and now lies in the closed
    interval from start to end (both ends included), and, for an election
    that passes the schema validator (endDate after startDate), 'ended'
    exactly when it is enabled and now is after the end; [isElectionActive],
    [isRunning] and the window checks of the vote handler accept exactly the
    'active' case. *)
Theorem getElectionStatus_exact (now : Z) (e : Election.t) :
  (getElectionStatus now e = inactive ↔ Election.isActive e = false)
  ∧ (getElectionStatus now e = upcoming ↔
       Election.isActive e = true ∧ now < Election.startDate e)
  ∧ (getElectionStatus now e = active ↔
       Election.isActive e = true
       ∧ Election.startDate e ≤ now ∧ now ≤ Election.endDate e)
  ∧ (getElectionStatus now e = ended ↔
       Election.isActive e = true
       ∧ Election.startDate e ≤ now ∧ now > Election.endDate e)
  ∧ (endDate_validator e = true →
       (getElectionStatus now e = ended ↔
          Election.isActive e = true ∧ now > Election.endDate e))
  ∧ (isElectionActive now e = true ↔ getElectionStatus now e = active)
  ∧ (isRunning now e = true ↔ getElectionStatus now e = active)
  ∧ (window_check now e = None ↔ getElectionStatus now e = active).
Proof.
  unfold endDate_validator, getElectionStatus, isElectionActive, isRunning,
    window_check.
  destruct (Election.isActive e); simpl;
    destruct (Z.ltb_spec now (Election.startDate e));
    destruct (Z.geb_spec now (Election.startDate e));
    destruct (Z.leb_spec now (Election.endDate e));
    destruct (Z.gtb_spec now (Election.endDate e));
    destruct (Z.gtb_spec (Election.endDate e) (Election.startDate e));
    simpl; repeat split; intros; try congruence; try lia;
    try (exfalso; lia); try (destruct_and?; try lia; congruence).
Qed.

(** ** Admission: the order of the checks *)

(** C3. With a well-formed candidate id the vote handler checks, in this
    order and each with a response of its own: the election exists, else
    404 'Election not found'; the election is 'active' at now, else 400
    with the message of the case that applied ('inactive', 'upcoming',
    'ended'); the candidate exists and belongs to the election, else 404
    'Candidate not found in this election'; the voter has no vote in the
    election, else 400 'You have already voted in this election'; otherwise
    the vote is appended, the candidate's counter incremented and 201 sent.
    Every rejection leaves the store as it was. *)
Theorem castVote_checks_in_order (req : VoteReq) (cid : ObjectId) (st : Store) :
  candidateId req = Some cid →
  (elections st !! electionId req = None →
     castVote req st = (json 404 (Message "Election not found"), st))
  ∧ (∀ e, elections st !! electionId req = Some e →
     (getElectionStatus (now req) e = inactive →
        castVote req st = (json 400 (Message "Election is not active"), st))
     ∧ (getElectionStatus (now req) e = upcoming →
        castVote req st
        = (json 400 (Message "Election has not started yet"), st))
     ∧ (getElectionStatus (now req) e = ended →
        castVote req st = (json 400 (Message "Election has ended"), st))
     ∧ (getElectionStatus (now req) e = active →
        ((∀ c, candidates st !! cid = Some c →
               Candidate.election c ≠ electionId req) →
           castVote req st
           = (json 404 (Message "Candidate not found in this election"), st))
        ∧ (∀ c, candidates st !! cid = Some c →
             Candidate.election c = electionId req →
             (has_voted st (user req) (electionId req) →
                castVote req st = (already_voted, st))
             ∧ (¬ has_voted st (user req) (electionId req) →
                castVote req st
                = (vote_cast e c (new_vote req cid),
                   Candidate_findByIdAndUpdate_inc
                     (set_votes st (votes st ++ [new_vote req cid])) cid)))))
  ∧ NoDup [json 404 (Message "Election not found");
           json 400 (Message "Election is not active");
           json 400 (Message "Election has not started yet");
           json 400 (Message "Election has ended");
           json 404 (Message "Candidate not found in this election");
           already_voted].
Proof.
  intros Hcid. split_and!.
  - intros He. unfold castVote, Election_findById. by rewrite Hcid, He.
  - intros e He.
    assert (∀ r, window_check (now req) e = Some r → castVote req st = (r, st))
      as Hreject.
    { intros r Hw. unfold castVote, Election_findById.
      by rewrite Hcid, He, Hw. }
    split_and!.
    + intros Hs. apply Hreject. by rewrite window_check_status, Hs.
    + intros Hs. apply Hreject. by rewrite window_check_status, Hs.
    + intros Hs. apply Hreject. by rewrite window_check_status, Hs.
    + intros Hs.
      assert (window_check (now req) e = None) as Hw
        by (by rewrite window_check_status, Hs).
      split.
      * intros Hno%Candidate_findOne_None.
        unfold castVote, Election_findById. by rewrite Hcid, He, Hw, Hno.
      * intros c Hc Hel.
        assert (Candidate_findOne st cid (electionId req) = Some c) as Hf
          by (by apply Candidate_findOne_Some).
        split.
        -- intros Hv. by eapply castVote_duplicate.
        -- intros Hv%Vote_findOne_None. by eapply castVote_admit.
  - unfold already_voted, json.
    repeat (apply NoDup_cons; split;
            [rewrite ?elem_of_cons, elem_of_nil; intros Hin;
             repeat (destruct Hin as [Hin|Hin]; [discriminate Hin|]); done|]).
    apply NoDup_nil_2.
Qed.

(** ** Resubmission *)

Lemma Vote_save_duplicate st v :
  has_voted st (Vote.voter v) (Vote.election v) → Vote_save st v = inl E11000.
Proof.
  intros Hv%existsb_vote_of. unfold Vote_save. by rewrite Hv.
Qed.

Lemma castVote_success_post req st r st1 :
  castVote req st = (r, st1) → status r = 201 →
  ∃ cid e c,
    candidateId req = Some cid
    ∧ Election_findById st1 (electionId req) = Some e
    ∧ window_check (now req) e = None
    ∧ Candidate_findOne st1 cid (electionId req) = Some c
    ∧ has_voted st1 (user req) (electionId req).
Proof.
  intros Hrun Hok.
  destruct (castVote_success_inv _ _ _ _ Hrun Hok)
    as (cid & e & c & Hcid & He & Hw & Hf & _ & _ & ->).
  exists cid, e, (inc_voteCount c). split_and!; try done.
  - apply Candidate_findOne_Some in Hf as [Hc Hel].
    apply Candidate_findOne_Some. simpl. rewrite lookup_alter.
    rewrite decide_True by done. by rewrite Hc.
  - exists (new_vote req cid). simpl. split; [|done].
    apply elem_of_app. right. by apply list_elem_of_singleton.
Qed.

Lemma has_voted_votes_of st u e :
  has_voted st u e ↔ (0 < votes_of st u e)%nat.
Proof.
  rewrite <- existsb_vote_of. unfold votes_of. apply existsb_filter_length.
Qed.

Lemma castVote_unique req st r st1 :
  castVote req st = (r, st1) → votes_unique st → votes_unique st1.
Proof.
  intros Hrun Hu. destruct (decide (status r = 201)) as [Hok|Hno].
  - destruct (castVote_success_inv _ _ _ _ Hrun Hok)
      as (cid & e & c & _ & _ & _ & _ & Hv & _ & ->).
    apply (votes_unique_ext (set_votes st (votes st ++ [new_vote req cid])));
      [done|].
    apply (Vote_save_unique st (new_vote req cid)); [done|].
    unfold Vote_save. apply find_none_existsb in Hv.
    unfold Vote_findOne in Hv. simpl. by rewrite Hv.
  - by rewrite (castVote_reject_unchanged _ _ _ _ Hrun Hno).
Qed.

(** *** At most one request per (voter, election) is ever answered 201 *)

Lemma successes_replace ts1 t ts2 u e :
  successes (ts1 ++ t :: ts2) u e
  = (successes ts1 u e + (if committed u e t then 1 else 0)
     + successes ts2 u e)%nat.
Proof. apply filter_length_replace. Qed.

Lemma window_check_400 now e r :
  window_check now e = Some r → status r = 400.
Proof.
  unfold window_check.
  repeat (case_match; [by intros [= <-]|]). done.
Qed.

Lemma votes_of_snoc st v u e :
  votes_of (set_votes st (votes st ++ [v])) u e
  = (votes_of st u e + (if vote_of u e v then 1 else 0))%nat.
Proof. unfold votes_of. simpl. apply filter_length_snoc. Qed.

(** A served call commits a request only together with its vote document. *)
Lemma vote_step_commits req pc st pc' st' u e :
  vote_step req pc st = (pc', st') →
  ((if committed u e (mkThread req pc') then 1 else 0) + votes_of st u e
   = (if committed u e (mkThread req pc) then 1 else 0) + votes_of st' u e)%nat.
Proof.
  unfold committed. simpl.
  destruct pc as [cid|cid el|cid el c|cid el c|cid el c v|r];
    cbn [vote_step].
  - destruct (Election_findById _ _);
      [destruct (window_check _ _) as [r|] eqn:Hw|]; intros [= <- <-];
      rewrite ?andb_false_r; simpl; try done.
    apply window_check_400 in Hw. rewrite Hw. by rewrite andb_false_r.
  - destruct (Candidate_findOne _ _ _); intros [= <- <-];
      by rewrite ?andb_false_r.
  - destruct (Vote_findOne _ _ _); intros [= <- <-];
      by rewrite ?andb_false_r.
  - destruct (Vote_save st (new_vote req cid)) as [[]|st1] eqn:Hsave;
      intros [= <- <-]; try (by rewrite ?andb_false_r).
    apply Vote_save_inr in Hsave as [_ ->].
    rewrite votes_of_snoc. unfold vote_of. simpl.
    rewrite andb_false_r, andb_true_r. destruct (_ && _); lia.
  - by intros [= <- <-].
  - by intros [= <- <-].
Qed.

Lemma sys_step_successes faulty sys sys' u e (base : nat) :
  sys_step faulty sys sys' →
  (successes (threads sys) u e + base ≤ votes_of (store sys) u e)%nat →
  (successes (threads sys') u e + base ≤ votes_of (store sys') u e)%nat.
Proof.
  destruct 1 as [st ts req | st ts1 ts2 req pc pc' st' Hs
                | st ts1 ts2 req pc Hf Haw]; cbn [store threads].
  - unfold successes. rewrite List.filter_app, length_app.
    replace (List.filter (committed u e) [mkThread req (vote_enter req)])
      with (@nil Thread); [simpl; lia|].
    unfold vote_enter, committed. simpl.
    destruct (candidateId req); simpl; by rewrite andb_false_r.
  - rewrite !successes_replace.
    pose proof (vote_step_commits _ _ _ _ _ u e Hs). lia.
  - rewrite !successes_replace.
    replace (committed u e (mkThread req (vote_reject pc))) with false;
      [destruct (committed u e _); lia|].
    unfold committed. simpl. by rewrite andb_false_r.
Qed.

Lemma run_successes faulty sys sys' u e (base : nat) :
  rtc (sys_step faulty) sys sys' →
  (successes (threads sys) u e + base ≤ votes_of (store sys) u e)%nat →
  (successes (threads sys') u e + base ≤ votes_of (store sys') u e)%nat.
Proof. induction 1; eauto using sys_step_successes. Qed.

Lemma castVote_voted req st :
  has_voted st (user req) (electionId req) →
  status (fst (castVote req st)) ≠ 201 ∧ snd (castVote req st) = st.
Proof.
  intros Hv. destruct (castVote req st) as [r st1] eqn:Hrun. simpl.
  assert (status r ≠ 201) as Hno.
  { intros Hok.
    destruct (castVote_success_inv _ _ _ _ Hrun Hok)
      as (cid & e & c & _ & _ & _ & _ & Hnone & _).
    by apply Vote_findOne_None in Hnone. }
  split; [done|]. by eapply castVote_reject_unchanged.
Qed.

(** ** Counters against the vote log *)

Lemma pending_app ts1 ts2 e c :
  pending (ts1 ++ ts2) e c = (pending ts1 e c + pending ts2 e c)%nat.
Proof. unfold pending. by rewrite List.filter_app, length_app. Qed.

Lemma pending_cons t ts e c :
  pending (t :: ts) e c
  = ((if at_increment e c t then 1 else 0) + pending ts e c)%nat.
Proof. unfold pending. simpl. by destruct (at_increment e c t). Qed.

Lemma pending_replace ts1 t ts2 e c :
  pending (ts1 ++ t :: ts2) e c
  = (pending ts1 e c + (if at_increment e c t then 1 else 0)
     + pending ts2 e c)%nat.
Proof. rewrite pending_app, pending_cons. lia. Qed.

Lemma tally_snoc st v e c :
  tally (set_votes st (votes st ++ [v])) e c
  = (tally st e c + (if vote_for e c v then 1 else 0))%nat.
Proof. unfold tally. simpl. apply filter_length_snoc. Qed.

Lemma thread_ok_extends st st' t :
  store_extends st st' → thread_ok st t → thread_ok st' t.
Proof.
  intros (_ & Hcs & _). unfold thread_ok.
  destruct (t_pc t); try done;
    intros (c & Hc & Hel); destruct (Hcs _ _ Hc) as (c' & Hc' & Hel');
    exists c'; (split; [done | congruence]).
Qed.

Lemma vote_step_thread_ok req pc st pc' st' :
  vote_step req pc st = (pc', st') →
  thread_ok st (mkThread req pc) → thread_ok st' (mkThread req pc').
Proof.
  intros Hs Hok. pose proof (vote_step_extends _ _ _ _ _ Hs) as Hext.
  apply (thread_ok_extends _ _ _ Hext) in Hok. clear Hext.
  revert Hs Hok. unfold thread_ok. simpl.
  destruct pc as [cid|cid e|cid e c|cid e c|cid e c v|r]; cbn [vote_step].
  - destruct (Election_findById _ _); [|by intros [= <- <-]].
    destruct (window_check _ _); by intros [= <- <-].
  - destruct (Candidate_findOne st cid (electionId req)) as [c|] eqn:Hf;
      [|by intros [= <- <-]].
    intros [= <- <-] _. apply Candidate_findOne_Some in Hf. eauto.
  - destruct (Vote_findOne _ _ _); by intros [= <- <-].
  - destruct (Vote_save st (new_vote req cid)) as [[]|st1];
      by intros [= <- <-].
  - by intros [= <- <-].
  - by intros [= <- <-].
Qed.

Lemma cmp_refl_eq faulty a b : a = b → cmp faulty a b.
Proof. unfold cmp. destruct faulty; lia. Qed.

Lemma cmp_shift faulty a b a' b' :
  a' - a = b' - b → cmp faulty a b → cmp faulty a' b'.
Proof. unfold cmp. destruct faulty; lia. Qed.

(** Serving the awaited call of one request keeps the account. *)
Lemma vote_step_counter_ok faulty req pc st pc' st' ts1 ts2 :
  vote_step req pc st = (pc', st') →
  thread_ok st (mkThread req pc) →
  counter_ok faulty st (ts1 ++ mkThread req pc :: ts2) →
  counter_ok faulty st' (ts1 ++ mkThread req pc' :: ts2).
Proof.
  intros Hs Hok Hinv.
  assert (∀ pc0, (∀ e c, at_increment e c (mkThread req pc0) = false) →
            ∀ e c, pending (ts1 ++ mkThread req pc0 :: ts2) e c
                   = (pending ts1 e c + pending ts2 e c)%nat) as Hidle.
  { intros pc0 H0 e c. rewrite pending_replace, H0. lia. }
  assert (∀ pc1 pc2,
            (∀ e c, at_increment e c (mkThread req pc1) = false) →
            (∀ e c, at_increment e c (mkThread req pc2) = false) →
            counter_ok faulty st (ts1 ++ mkThread req pc1 :: ts2) →
            counter_ok faulty st (ts1 ++ mkThread req pc2 :: ts2)) as Hsame.
  { intros pc1 pc2 H1 H2 Hc cid c Hl. specialize (Hc cid c Hl).
    rewrite Hidle in Hc by done. by rewrite Hidle by done. }
  destruct pc as [cid|cid e|cid e c|cid e c|cid e c v|r];
    cbn [vote_step] in Hs.
  - destruct (Election_findById _ _);
      [destruct (window_check _ _)|]; injection Hs as <- <-;
      by eapply Hsame; [| |exact Hinv].
  - destruct (Candidate_findOne _ _ _); injection Hs as <- <-;
      by eapply Hsame; [| |exact Hinv].
  - destruct (Vote_findOne _ _ _); injection Hs as <- <-;
      by eapply Hsame; [| |exact Hinv].
  - destruct (Vote_save st (new_vote req cid)) as [[]|st1] eqn:Hsave;
      injection Hs as <- <-; try (by eapply Hsame; [| |exact Hinv]).
    apply Vote_save_inr in Hsave as [_ ->].
    intros cid' c' Hl. simpl in Hl. specialize (Hinv cid' c' Hl).
    rewrite Hidle in Hinv by done.
    rewrite pending_replace, tally_snoc.
    unfold at_increment, vote_for. simpl.
    eapply cmp_shift; [|exact Hinv].
    destruct (_ && _); lia.
  - injection Hs as <- <-.
    destruct Hok as (c0 & Hc0 & Hel0). simpl in Hel0.
    intros cid' c' Hl. simpl in Hl. rewrite lookup_alter in Hl.
    unfold tally. simpl. fold (tally st (Candidate.election c') cid').
    rewrite Hidle by done.
    case_decide as Heq.
    + subst cid'. rewrite Hc0 in Hl. simpl in Hl. injection Hl as <-.
      specialize (Hinv cid c0 Hc0). rewrite pending_replace in Hinv.
      unfold at_increment in Hinv. simpl in Hinv.
      rewrite <- Hel0, !N.eqb_refl in Hinv. simpl in *.
      eapply cmp_shift; [|exact Hinv]. lia.
    + specialize (Hinv cid' c' Hl). rewrite pending_replace in Hinv.
      unfold at_increment in Hinv. simpl in Hinv.
      apply N.eqb_neq in Heq. rewrite Heq, andb_false_r in Hinv.
      eapply cmp_shift; [|exact Hinv]. lia.
  - injection Hs as <- <-. done.
Qed.

Lemma sys_step_inv faulty sys sys' :
  sys_step faulty sys sys' → sys_inv faulty sys → sys_inv faulty sys'.
Proof.
  intros Hstep [Hok Hcnt].
  destruct Hstep as [st ts req | st ts1 ts2 req pc pc' st' Hs
                    | st ts1 ts2 req pc Hf Haw]; simpl in *.
  - split.
    + apply Forall_app. split; [done|]. apply Forall_singleton.
      unfold thread_ok, vote_enter. simpl. by destruct (candidateId req).
    + intros cid c Hl. cbn [store threads] in *. specialize (Hcnt cid c Hl).
      rewrite pending_app, pending_cons.
      unfold at_increment, vote_enter. simpl.
      destruct (candidateId req); simpl; unfold pending at 2; simpl;
        eapply cmp_shift; try exact Hcnt; lia.
  - apply Forall_app in Hok as [Hok1 Hok2].
    apply Forall_cons in Hok2 as [Hokt Hok2].
    pose proof (vote_step_extends _ _ _ _ _ Hs) as Hext.
    split.
    + apply Forall_app. split.
      * eapply Forall_impl; [exact Hok1|]. eauto using thread_ok_extends.
      * apply Forall_cons. split; [by eapply vote_step_thread_ok|].
        eapply Forall_impl; [exact Hok2|]. eauto using thread_ok_extends.
    + by eapply vote_step_counter_ok.
  - subst faulty.
    apply Forall_app in Hok as [Hok1 Hok2].
    apply Forall_cons in Hok2 as [Hokt Hok2].
    split.
    + apply Forall_app. split; [done|]. by apply Forall_cons.
    + intros cid c Hl. cbn [store threads] in *. specialize (Hcnt cid c Hl).
      rewrite pending_replace in *. unfold cmp in *.
      replace (at_increment (Candidate.election c) cid
                 (mkThread req (vote_reject pc))) with false by done.
      destruct (at_increment _ _ _); lia.
Qed.

Lemma sys_inv_init faulty st0 :
  tally_consistent st0 → sys_inv faulty (mkSystem st0 []).
Proof.
  intros Hc. split; simpl; [done|].
  intros cid c Hl. apply cmp_refl_eq. unfold pending. simpl.
  rewrite (Hc cid c Hl). lia.
Qed.

Lemma reachable_inv faulty st0 sys :
  tally_consistent st0 → reachable faulty st0 sys → sys_inv faulty sys.
Proof.
  intros Hc. revert sys.
  apply (rtc_ind_r (R := sys_step faulty) (sys_inv faulty));
    eauto using sys_inv_init, sys_step_inv.
Qed.

(** ** The two writes of an admission *)

Ltac serve_next :=
  eapply rtc_l;
  [ eapply (step_serve _ _ [] []); vm_compute; reflexivity | cbn [app] ].

Lemma sys_lost_reachable : reachable true store0 sys_lost.
Proof.
  unfold reachable, sys_lost.
  eapply rtc_l; [apply (step_arrive _ _ _ (ballot 7 10))|]. cbn [app].
  do 4 serve_next.
  eapply rtc_l; [eapply (step_reject _ _ [] []); reflexivity|].
  cbn [app]. apply rtc_refl.
Qed.

(** C2, refuted as stated: voter 7's request inserts its vote, the counter
    update is rejected and the handler answers 500; the system is at rest
    with one vote for Alice in the log and Alice's counter at 0. *)
Lemma vote_without_increment :
  reachable true store0 sys_lost
  ∧ Forall (λ t, awaiting (t_pc t) = false) (threads sys_lost)
  ∧ tally (store sys_lost) 1 10 = 1%nat
  ∧ Candidate.voteCount <$> candidates (store sys_lost) !! 10%N = Some 0.
Proof.
  split_and!.
  - apply sys_lost_reachable.
  - repeat constructor.
  - reflexivity.
  - vm_compute. reflexivity.
Qed.

(** C2, amended.  A vote request answered 201, whichever store calls fail,
    has appended exactly its Vote document and then raised exactly the
    chosen candidate's counter by exactly one, every other field of the
    candidate, every other candidate and every election left as it was:
    two separate writes, the insertion first and the increment second, with
    no transaction and no rollback.  A request with any other answer has
    written nothing, with one exception: when the counter update is the
    call that is rejected the handler answers 500 and the Vote document
    stays in the log without its increment.  In every state reached from a
    store whose counters equal their numbers of Vote documents through
    vote requests alone, interleaved in any way, a candidate's counter plus
    the requests that have inserted a vote for it and still await the
    counter update is exactly its number of Vote documents when no store
    call is rejected, and at most that number when calls are rejected: no
    counter runs ahead of the log.  The handler run alone, with any
    failing calls, is one such run. *)
Theorem castVote_two_writes :
  (∀ fails req st r st1,
     castVote_with fails req st = (r, st1) → status r = 201 →
     ∃ cid e c c',
       candidateId req = Some cid
       ∧ candidates st !! cid = Some c
       ∧ votes st1 = votes st ++ [new_vote req cid]
       ∧ candidates st1 !! cid = Some c'
       ∧ Candidate.voteCount c' = Candidate.voteCount c + 1
       ∧ Candidate.name c' = Candidate.name c
       ∧ Candidate.party c' = Candidate.party c
       ∧ Candidate.description c' = Candidate.description c
       ∧ Candidate.photo c' = Candidate.photo c
       ∧ Candidate.election c' = Candidate.election c
       ∧ Candidate.createdAt c' = Candidate.createdAt c
       ∧ (∀ k, k ≠ cid → candidates st1 !! k = candidates st !! k)
       ∧ candidates st1 = <[cid := inc_voteCount c]> (candidates st)
       ∧ elections st1 = elections st
       ∧ vote_run 4 req (vote_enter req) st
         = (AtIncrement cid e c (new_vote req cid),
            set_votes st (votes st ++ [new_vote req cid])))
  ∧ (∀ fails req st r st1,
       castVote_with fails req st = (r, st1) → status r ≠ 201 →
       st1 = st
       ∨ (r = json 500 (Message "Server error")
          ∧ ∃ cid e c,
              candidateId req = Some cid
              ∧ fails (AtIncrement cid e c (new_vote req cid)) = true
              ∧ st1 = set_votes st (votes st ++ [new_vote req cid])))
  ∧ (∀ fails req st r st1,
       (∀ cid e c v, fails (AtIncrement cid e c v) = false) →
       castVote_with fails req st = (r, st1) → status r ≠ 201 → st1 = st)
  ∧ (∀ req st r st1,
       castVote req st = (r, st1) → status r ≠ 201 → st1 = st)
  ∧ (∀ faulty st0 sys cid c,
       tally_consistent st0 → reachable faulty st0 sys →
       candidates (store sys) !! cid = Some c →
       Candidate.voteCount c
       + Z.of_nat (pending (threads sys) (Candidate.election c) cid)
       ≤ Z.of_nat (tally (store sys) (Candidate.election c) cid)
       ∧ (faulty = false →
          Candidate.voteCount c
          + Z.of_nat (pending (threads sys) (Candidate.election c) cid)
          = Z.of_nat (tally (store sys) (Candidate.election c) cid)))
  ∧ (∀ fails req st,
       reachable true st
         (mkSystem (snd (castVote_with fails req st))
            [mkThread req (Responded (fst (castVote_with fails req st)))])).
Proof.
  assert (∀ fails req st r st1,
            castVote_with fails req st = (r, st1) → status r ≠ 201 →
            st1 = st
            ∨ (r = json 500 (Message "Server error")
               ∧ ∃ cid e c,
                   candidateId req = Some cid
                   ∧ fails (AtIncrement cid e c (new_vote req cid)) = true
                   ∧ st1 = set_votes st (votes st ++ [new_vote req cid])))
    as Hother.
  { intros fails req st r st1 Hrun Hno.
    destruct (castVote_with_cases fails req st)
      as [H | [H | (cid & el & c & Hcid & _ & _ & Hf & H)]];
      rewrite H in Hrun.
    - left. by eapply castVote_reject_unchanged.
    - left. by injection Hrun as _ <-.
    - right. injection Hrun as <- <-. split; [done|]. by exists cid, el, c. }
  split_and!.
  - intros fails req st r st1 Hrun Hok.
    assert (castVote req st = (r, st1)) as Hrun'.
    { destruct (castVote_with_cases fails req st)
        as [H | [H | (cid & el & c & _ & _ & _ & _ & H)]];
        rewrite H in Hrun; [done | |]; by injection Hrun as <- _. }
    destruct (castVote_success_inv _ _ _ _ Hrun' Hok)
      as (cid & e & c & Hcid & He & Hw & Hf & Hv & -> & ->).
    pose proof Hf as [Hc Hel]%Candidate_findOne_Some.
    exists cid, e, c, (inc_voteCount c). split_and!; try done.
    + simpl. by rewrite lookup_alter, decide_True, Hc.
    + intros k Hk. simpl. by rewrite lookup_alter, decide_False.
    + simpl. apply map_eq. intros k. rewrite lookup_alter, lookup_insert.
      case_decide; subst; [by rewrite Hc | done].
    + unfold vote_enter. rewrite Hcid. cbn [vote_run vote_step].
      rewrite He, Hw. cbn [vote_run vote_step]. rewrite Hf.
      cbn [vote_run vote_step]. rewrite Hv. cbn [vote_run vote_step].
      unfold Vote_save. simpl.
      apply find_none_existsb in Hv. unfold Vote_findOne in Hv.
      by rewrite Hv.
  - exact Hother.
  - intros fails req st r st1 Hnf Hrun Hno.
    destruct (Hother fails req st r st1 Hrun Hno)
      as [-> | (_ & cid & e & c & _ & Hf & _)]; [done|].
    by rewrite Hnf in Hf.
  - apply castVote_reject_unchanged.
  - intros faulty st0 sys cid c Hc Hreach Hl.
    destruct (reachable_inv faulty st0 sys Hc Hreach) as [_ Hcnt].
    specialize (Hcnt cid c Hl). unfold cmp in Hcnt.
    destruct faulty; split; (lia || done || (intros _; lia)).
  - apply castVote_with_reachable.
Qed.

(** ** Results *)

#[local] Instance by_voteCount_desc_trans : Transitive by_voteCount_desc.
Proof. unfold by_voteCount_desc. intros a b c. lia. Qed.

#[local] Instance by_voteCount_desc_total : Total by_voteCount_desc.
Proof. unfold by_voteCount_desc. intros a b. lia. Qed.

Lemma insert_by_Permutation {A} (le : A → A → bool) x l :
  insert_by le x l ≡ₚ x :: l.
Proof.
  induction l as [|y l IH]; simpl; [done|].
  destruct (le x y); [done|]. by rewrite IH, Permutation_swap.
Qed.

Lemma sort_by_Permutation {A} (le : A → A → bool) l : sort_by le l ≡ₚ l.
Proof.
  induction l as [|x l IH]; simpl; [done|].
  by rewrite insert_by_Permutation, IH.
Qed.

Section sort_by.
Context {A : Type} (R : relation A).
Context `{!∀ a b, Decision (R a b)} `{!Total R}.

Lemma insert_by_HdRel x y l :
  R y x → HdRel R y l →
  HdRel R y (insert_by (λ a b, bool_decide (R a b)) x l).
Proof.
  intros Hyx Hy. destruct l as [|z l]; simpl; [by constructor|].
  case_bool_decide; constructor; [done|]. by inversion Hy.
Qed.

Lemma insert_by_Sorted x l :
  Sorted R l → Sorted R (insert_by (λ a b, bool_decide (R a b)) x l).
Proof.
  induction 1 as [|y l Hl IH Hy]; simpl; [by repeat constructor|].
  case_bool_decide as Hxy.
  - constructor; [by constructor|by constructor].
  - constructor; [done|]. apply insert_by_HdRel; [|done].
    by destruct (total R x y).
Qed.

Lemma sort_by_Sorted l : Sorted R (sort_by (λ a b, bool_decide (R a b)) l).
Proof.
  induction l as [|x l IH]; simpl; [constructor|]. by apply insert_by_Sorted.
Qed.

Lemma sort_by_StronglySorted `{!Transitive R} l :
  StronglySorted R (sort_by (λ a b, bool_decide (R a b)) l).
Proof. apply Sorted_StronglySorted; [done|]. apply sort_by_Sorted. Qed.
End sort_by.

(** Documents that the order does not tell apart stay as they came. *)
Lemma insert_by_filter {A} (le : A → A → bool) (P : A → bool) x l :
  (∀ y, y ∈ l → P x = true → P y = true → le x y = true) →
  List.filter P (insert_by le x l) = List.filter P (x :: l).
Proof.
  induction l as [|y l IH]; intros Htie; [done|]. cbn [insert_by].
  destruct (le x y) eqn:Hxy; [done|].
  cbn [List.filter]. rewrite IH.
  - cbn [List.filter]. destruct (P x) eqn:Hx, (P y) eqn:Hy; try done.
    rewrite Htie in Hxy; [done | apply list_elem_of_here | done | done].
  - intros z Hz. apply Htie. by apply list_elem_of_further.
Qed.

Lemma sort_by_filter {A} (le : A → A → bool) (P : A → bool) l :
  (∀ x y, P x = true → P y = true → le x y = true) →
  List.filter P (sort_by le l) = List.filter P l.
Proof.
  intros Htie. induction l as [|x l IH]; [done|]. cbn [sort_by foldr].
  rewrite insert_by_filter by (intros; by apply Htie).
  cbn [List.filter]. fold (sort_by le l). by rewrite IH.
Qed.

Lemma sort_voteCount_desc_Permutation natural :
  (∀ l, natural l ≡ₚ l) → ∀ l, sort_voteCount_desc natural l ≡ₚ l.
Proof.
  intros Hnat l. unfold sort_voteCount_desc, insertion_order.
  rewrite sort_by_Permutation.
  by rewrite sort_by_Permutation.
Qed.

Lemma sort_voteCount_desc_sorted natural l :
  StronglySorted by_voteCount_desc (sort_voteCount_desc natural l).
Proof.
  unfold sort_voteCount_desc.
  apply (sort_by_StronglySorted by_voteCount_desc).
Qed.


Lemma in_id_order_Permutation {A} (l : list A) : in_id_order l ≡ₚ l.
Proof. done. Qed.

Lemma in_reverse_order_Permutation {A} (l : list A) : in_reverse_order l ≡ₚ l.
Proof. apply reverse_Permutation. Qed.

#[global] Arguments sort_voteCount_desc : simpl never.

Lemma Candidate_find_spec st eid cid c :
  (cid, c) ∈ Candidate_find st eid ↔
  candidates st !! cid = Some c ∧ Candidate.election c = eid.
Proof.
  unfold Candidate_find.
  rewrite list_elem_of_In, filter_In, <- list_elem_of_In,
    elem_of_map_to_list. simpl. by rewrite N.eqb_eq.
Qed.

Lemma filter_bool_decide {A} (f : A → N) (k : N) (l : list A) :
  List.filter (λ x, N.eqb (f x) k) l = filter (λ x, f x = k) l.
Proof.
  induction l as [|x l IH]; [done|]. simpl. rewrite filter_cons, IH.
  destruct (N.eqb_spec (f x) k); by case_decide.
Qed.

Lemma sorted_lookup {A} (R : relation A) (l : list A) :
  StronglySorted R l →
  ∀ i j a b, l !! i = Some a → l !! j = Some b → (i < j)%nat → R a b.
Proof.
  induction 1 as [|x l Hl IH Hx]; [done|].
  intros [|i] [|j] a b Hi Hj Hlt; try lia; simpl in *.
  - injection Hi as <-. rewrite Forall_forall in Hx. apply Hx.
    by eapply list_elem_of_lookup_2.
  - apply (IH i j); [done | done | lia].
Qed.

#[local] Instance by_createdAt_asc_trans : Transitive by_createdAt_asc.
Proof. unfold by_createdAt_asc. intros a b c. lia. Qed.

#[local] Instance by_createdAt_asc_total : Total by_createdAt_asc.
Proof. unfold by_createdAt_asc. intros a b. lia. Qed.

Lemma insertion_order_Permutation natural :
  (∀ l, natural l ≡ₚ l) → ∀ l, insertion_order natural l ≡ₚ l.
Proof.
  intros Hnat l. unfold insertion_order. by rewrite sort_by_Permutation.
Qed.





Lemma getResults_ok natural uid eid st e :
  Election_findById st eid = Some e →
  getResults natural uid eid st =
  json 200 (ResultsJson
    (ElectionResults.mk e (sort_voteCount_desc natural (Candidate_find st eid))
       (Vote_countDocuments_election st eid)
       (match Vote_findOne st uid eid with
        | Some v => populate_candidate st v
        | None => None
        end)
       (match Vote_findOne st uid eid with Some _ => true | None => false end))).
Proof. intros He. unfold getResults. by rewrite He. Qed.

(** C8. For an election of the store, the results handler answers 200 and
    the [totalVotes] it reports is the number of Vote documents whose
    election is the one asked for. *)
Theorem results_totalVotes
  (natural : list (ObjectId * Candidate.t) → list (ObjectId * Candidate.t))
  (uid eid : ObjectId) (st : Store) (e : Election.t) :
  elections st !! eid = Some e →
  ∃ r, getResults natural uid eid st = json 200 (ResultsJson r)
       ∧ ElectionResults.totalVotes r
         = length (filter (λ v, Vote.election v = eid) (votes st)).
Proof.
  intros He. eexists. split; [by apply getResults_ok|]. simpl.
  unfold Vote_countDocuments_election. by rewrite filter_bool_decide.
Qed.


(** C7, refuted as stated: in the state at rest where voter 7's vote for
    Alice is in the log and the counter update was rejected, the results of
    election 1 report one vote in total and list Alice with count 0, while
    the log holds one vote for (election 1, Alice). *)
Lemma results_counter_behind_log :
  reachable true store0 sys_lost
  ∧ ∃ r, getResults in_id_order 7 1 (store sys_lost)
         = json 200 (ResultsJson r)
         ∧ ElectionResults.totalVotes r = 1%nat
         ∧ (10%N, alice) ∈ ElectionResults.candidates r
         ∧ Candidate.voteCount alice = 0
         ∧ tally (store sys_lost) 1 10 = 1%nat.
Proof.
  split; [apply sys_lost_reachable|].
  eexists. split; [vm_compute; reflexivity|]. split_and!; try reflexivity.
  apply list_elem_of_lookup. by exists 0%nat.
Qed.

(** C7, amended.  The count the results handler exposes for a candidate of
    the election is the candidate document's stored voteCount; the handler
    does not count or reconcile against the vote log.  In a state reached
    from a consistent store through vote requests none of whose store calls
    was rejected, and in which no request for this election stands between
    its Vote insertion and its counter update, that count equals the number
    of Vote documents with (election, candidate). *)
Theorem results_counts_from_counter
  (natural : list (ObjectId * Candidate.t) → list (ObjectId * Candidate.t))
  (uid eid : ObjectId) (st0 : Store) (sys : System) (e : Election.t) :
  (∀ l, natural l ≡ₚ l) →
  tally_consistent st0 →
  reachable false st0 sys →
  (∀ cid, pending (threads sys) eid cid = 0%nat) →
  elections (store sys) !! eid = Some e →
  ∃ r, getResults natural uid eid (store sys) = json 200 (ResultsJson r)
       ∧ (∀ cid c, (cid, c) ∈ ElectionResults.candidates r ↔
            candidates (store sys) !! cid = Some c
            ∧ Candidate.election c = eid)
       ∧ (∀ cid c, (cid, c) ∈ ElectionResults.candidates r →
            Candidate.voteCount c = Z.of_nat (tally (store sys) eid cid)).
Proof.
  intros Hnat Hc Hreach Hrest He.
  eexists. split; [by apply getResults_ok|]. simpl.
  pose proof (sort_voteCount_desc_Permutation natural Hnat
                (Candidate_find (store sys) eid)) as Hperm.
  assert (∀ cid c,
            (cid, c) ∈ sort_voteCount_desc natural
                         (Candidate_find (store sys) eid) ↔
            candidates (store sys) !! cid = Some c
            ∧ Candidate.election c = eid) as Hmem.
  { intros cid c. rewrite Hperm. apply Candidate_find_spec. }
  split; [done|].
  intros cid c [Hl Hel]%Hmem.
  destruct (reachable_inv false st0 sys Hc Hreach) as [_ Hcnt].
  specialize (Hcnt cid c Hl). unfold cmp in Hcnt.
  rewrite Hel, Hrest in Hcnt. lia.
Qed.

(** ** The winner banner *)

Lemma getElectionStatus_ended now e :
  endDate_validator e = true → Election.isActive e = true →
  now > Election.endDate e → getElectionStatus now e = ended.
Proof.
  unfold endDate_validator, getElectionStatus.
  intros Hv%Z.gtb_lt -> Hend. simpl.
  destruct (Z.ltb_spec now (Election.startDate e)); [lia|].
  destruct (Z.geb_spec now (Election.startDate e)); [|lia].
  destruct (Z.leb_spec now (Election.endDate e)); [lia|done].
Qed.

(** C9, refuted as stated: voter 7 votes for Alice, the election is then
    disabled; at instant 200, after its end date, the status of the
    election is 'inactive', not 'ended', and the results page shows Alice
    as the winner. *)
Lemma winner_shown_for_inactive_election :
  ∃ r, getResults in_id_order 7 1 store_disabled = json 200 (ResultsJson r)
       ∧ getElectionStatus 200 (ElectionResults.election r) = inactive
       ∧ winner_banner 200 r = Some (10%N, inc_voteCount alice).
Proof.
  eexists. split; [vm_compute; reflexivity|]. split; reflexivity.
Qed.

(** C9, amended.  The results page shows a winner exactly when the payload
    has a first candidate, now is after the election's end date and
    totalVotes is positive, whether or not the election is enabled; the
    winner is that first candidate, whose counter is the highest of the
    list when the list is ordered by voteCount descending; with totalVotes
    zero no winner is shown; for an enabled election that passes the schema
    validator a winner is shown only when its status is 'ended'.  The page's
    [isElectionEnded] is the schema's [hasEnded]. *)
Theorem winner_banner_rule (now : Z) (r : ElectionResults.t) :
  (∀ w, winner_banner now r = Some w ↔
     head (ElectionResults.candidates r) = Some w
     ∧ now > Election.endDate (ElectionResults.election r)
     ∧ (0 < ElectionResults.totalVotes r)%nat)
  ∧ (ElectionResults.totalVotes r = 0%nat → winner_banner now r = None)
  ∧ (∀ w, winner_banner now r = Some w →
       StronglySorted by_voteCount_desc (ElectionResults.candidates r) →
       ∀ d, d ∈ ElectionResults.candidates r →
            Candidate.voteCount (snd d) ≤ Candidate.voteCount (snd w))
  ∧ (∀ w, winner_banner now r = Some w →
       Election.isActive (ElectionResults.election r) = true →
       endDate_validator (ElectionResults.election r) = true →
       getElectionStatus now (ElectionResults.election r) = ended)
  ∧ isElectionEnded now (Some r) = hasEnded now (ElectionResults.election r).
Proof.
  assert (∀ w, winner_banner now r = Some w ↔
     head (ElectionResults.candidates r) = Some w
     ∧ now > Election.endDate (ElectionResults.election r)
     ∧ (0 < ElectionResults.totalVotes r)%nat) as Hrule.
  { intros w. unfold winner_banner, winner, isElectionEnded.
    destruct (ElectionResults.candidates r) as [|c l]; simpl.
    - split; [done | by intros [? _]].
    - destruct (Z.gtb_spec now (Election.endDate (ElectionResults.election r)));
        destruct (Nat.ltb_spec 0 (ElectionResults.totalVotes r)); simpl;
        split; try done; try (intros [= <-]; split_and!; (done || lia));
        try (by intros ([= <-] & _ & _)); intros (_ & ? & ?); lia. }
  split_and!; [done | | | | done].
  - intros H0. destruct (winner_banner now r) as [w|] eqn:Hw; [|done].
    destruct (proj1 (Hrule w) eq_refl) as (_ & _ & Hpos). lia.
  - intros w (Hhd & _ & _)%Hrule Hsorted d Hd.
    destruct (ElectionResults.candidates r) as [|c l]; [done|].
    simpl in Hhd. injection Hhd as ->.
    apply StronglySorted_inv in Hsorted as [_ Hall].
    apply elem_of_cons in Hd as [-> | Hd]; [done|].
    rewrite Forall_forall in Hall. by apply Hall.
  - intros w (_ & Hend & _)%Hrule Hact Hval.
    by apply getElectionStatus_ended.
Qed.

(** ** Administrative mutations on entities that hold votes *)

Lemma countDocuments_election_filter st id :
  Vote_countDocuments_election st id
  = length (filter (λ v, Vote.election v = id) (votes st)).
Proof. unfold Vote_countDocuments_election. by rewrite filter_bool_decide. Qed.

Lemma countDocuments_candidate_filter st id :
  Vote_countDocuments_candidate st id
  = length (filter (λ v, Vote.candidate v = id) (votes st)).
Proof. unfold Vote_countDocuments_candidate. by rewrite filter_bool_decide. Qed.

(** C10. On an election with at least one Vote document, a PUT that sets
    startDate or endDate is answered 400 and changes nothing (with the
    message 'Cannot modify dates after voting has started' once the body
    has passed validation), and a DELETE is answered 400 'Cannot delete
    election with existing votes' and changes nothing; on a candidate with
    at least one Vote document, a DELETE is answered 400 'Cannot delete
    candidate with existing votes' and changes nothing, so the candidate
    and its voteCount stay as they were. *)
Theorem admin_mutations_rejected :
  (∀ validate id body st e,
     elections st !! id = Some e →
     (0 < length (filter (λ v, Vote.election v = id) (votes st)))%nat →
     is_Some (u_startDate body) ∨ is_Some (u_endDate body) →
     status (fst (updateElection validate id body st)) = 400
     ∧ snd (updateElection validate id body st) = st
     ∧ (errors_isEmpty body = true →
        updateElection validate id body st
        = (json 400 (Message "Cannot modify dates after voting has started"),
           st)))
  ∧ (∀ id st e,
       elections st !! id = Some e →
       (0 < length (filter (λ v, Vote.election v = id) (votes st)))%nat →
       deleteElection id st
       = (json 400 (Message "Cannot delete election with existing votes"), st))
  ∧ (∀ id st c,
       candidates st !! id = Some c →
       (0 < length (filter (λ v, Vote.candidate v = id) (votes st)))%nat →
       deleteCandidate id st
       = (json 400 (Message "Cannot delete candidate with existing votes"), st)
       ∧ candidates (snd (deleteCandidate id st)) !! id = Some c).
Proof.
  split_and!.
  - intros validate id body st e He Hvotes Hdates.
    rewrite <- countDocuments_election_filter in Hvotes.
    apply Nat.ltb_lt in Hvotes.
    assert (bool_decide (is_Some (u_startDate body))
            || bool_decide (is_Some (u_endDate body)) = true) as Hb.
    { apply orb_true_iff. destruct Hdates; [left | right];
        by apply bool_decide_eq_true. }
    unfold updateElection, Election_findById. rewrite He, Hvotes, Hb.
    destruct (errors_isEmpty body); simpl; split_and!; try done.
  - intros id st e He Hvotes.
    rewrite <- countDocuments_election_filter in Hvotes.
    apply Nat.ltb_lt in Hvotes.
    unfold deleteElection, Election_findById. by rewrite He, Hvotes.
  - intros id st c Hc Hvotes.
    rewrite <- countDocuments_candidate_filter in Hvotes.
    apply Nat.ltb_lt in Hvotes.
    unfold deleteCandidate, Candidate_findById. by rewrite Hc, Hvotes.
Qed.

(** ** Worked runs *)

Ltac serve_at prefix :=
  eapply rtc_l;
  [ eapply (step_serve _ _ prefix []); vm_compute; reflexivity | cbn [app] ].

Ltac serve_first :=
  eapply rtc_l;
  [ eapply (step_serve _ _ [] [_]); vm_compute; reflexivity | cbn [app] ].

Lemma store0_unique : votes_unique store0.
Proof. intros u e. vm_compute. lia. Qed.

Lemma store0_consistent : tally_consistent store0.
Proof.
  intros cid c Hl%elem_of_map_to_list. unfold tally. simpl.
  vm_compute in Hl.
  repeat (apply elem_of_cons in Hl as [[= -> ->] | Hl]; [done|]).
  by apply elem_of_nil in Hl.
Qed.

(** Both requests of voter 7 reach [vote.save()] before either inserts. *)
Lemma sys_race_reachable faulty : reachable faulty store0 sys_race.
Proof.
  unfold reachable, sys_race.
  eapply rtc_l; [apply (step_arrive _ _ _ (ballot 7 10))|]. cbn [app].
  eapply rtc_l; [apply (step_arrive _ _ _ (ballot 7 11))|]. cbn [app].
  do 3 serve_first.
  do 3 (serve_at [mkThread (ballot 7 10) (AtSave 10 election1 alice)]).
  serve_first.
  serve_at [mkThread (ballot 7 10)
              (AtIncrement 10 election1 alice (new_vote (ballot 7 10) 10))].
  serve_first.
  apply rtc_refl.
Qed.

Lemma sys_next_reachable faulty :
  rtc (sys_step faulty) (mkSystem store_voted []) sys_next.
Proof.
  unfold sys_next.
  eapply rtc_l; [apply (step_arrive _ _ _ (ballot 8 11))|]. cbn [app].
  do 5 serve_next.
  apply rtc_refl.
Qed.

Lemma votes_unique_invariant_witness :
  votes_unique store0
  ∧ rtc (sys_step false) (mkSystem store0 []) sys_race
  ∧ votes_unique (store sys_race).
Proof.
  split; [apply store0_unique|]. split; [apply sys_race_reachable|].
  apply (votes_unique_invariant false store0 [] sys_race);
    [apply store0_unique | apply sys_race_reachable].
Defined.

Lemma castVote_two_writes_witness :
  (∃ cid c c',
     candidateId (ballot 7 10) = Some cid
     ∧ candidates store0 !! cid = Some c
     ∧ votes store_voted = votes store0 ++ [new_vote (ballot 7 10) cid]
     ∧ candidates store_voted !! cid = Some c'
     ∧ Candidate.voteCount c' = Candidate.voteCount c + 1)
  ∧ castVote_with increment_fails (ballot 7 10) store0
    = (json 500 (Message "Server error"), store sys_lost)
  ∧ tally_consistent store0
  ∧ reachable false store0 sys_race
  ∧ Candidate.voteCount <$> candidates (store sys_race) !! 10%N = Some 1
  ∧ tally (store sys_race) 1 10 = 1%nat.
Proof.
  destruct castVote_two_writes as (Hok & _ & _ & _ & Hcount & _).
  split_and!.
  - destruct (Hok no_failure (ballot 7 10) store0
                (fst (castVote (ballot 7 10) store0)) store_voted
                eq_refl eq_refl)
      as (cid & e & c & c' & H1 & H2 & H3 & H4 & H5 & _).
    by exists cid, c, c'.
  - reflexivity.
  - apply store0_consistent.
  - apply sys_race_reachable.
  - reflexivity.
  - destruct (Hcount false store0 sys_race 10%N (inc_voteCount alice)
                store0_consistent (sys_race_reachable false) eq_refl)
      as [_ Heq].
    apply Nat2Z.inj. etransitivity; [symmetry; exact (Heq eq_refl)|].
    reflexivity.
Defined.

Lemma castVote_checks_in_order_witness :
  candidateId (ballot 7 10) = Some 10%N
  ∧ castVote (ballot 7 10) store0
    = (vote_cast election1 alice (new_vote (ballot 7 10) 10),
       Candidate_findByIdAndUpdate_inc
         (set_votes store0 (votes store0 ++ [new_vote (ballot 7 10) 10])) 10)
  ∧ castVote (ballot 7 11) store_voted = (already_voted, store_voted).
Proof.
  split; [reflexivity|]. split.
  - destruct (castVote_checks_in_order (ballot 7 10) 10 store0 eq_refl)
      as (_ & Hin & _).
    destruct (Hin election1 eq_refl) as (_ & _ & _ & Hopen).
    destruct (Hopen eq_refl) as [_ Hcand].
    destruct (Hcand alice eq_refl eq_refl) as [_ Hnew].
    apply Hnew. intros (v & Hv & _). vm_compute in Hv.
    by apply elem_of_nil in Hv.
  - destruct (castVote_checks_in_order (ballot 7 11) 11 store_voted eq_refl)
      as (_ & Hin & _).
    destruct (Hin election1 eq_refl) as (_ & _ & _ & Hopen).
    destruct (Hopen eq_refl) as [_ Hcand].
    destruct (Hcand bob eq_refl eq_refl) as [Hdup _].
    apply Hdup. exists (new_vote (ballot 7 10) 10).
    split; [|done]. vm_compute. apply list_elem_of_here.
Defined.

Lemma getElectionStatus_exact_witness :
  endDate_validator election1 = true
  ∧ getElectionStatus (-1) election1 = upcoming
  ∧ getElectionStatus 0 election1 = active
  ∧ getElectionStatus 100 election1 = active
  ∧ (getElectionStatus 101 election1 = ended
     ↔ Election.isActive election1 = true
       ∧ 101 > Election.endDate election1).
Proof.
  split; [reflexivity|]. split; [reflexivity|]. split; [reflexivity|].
  split; [reflexivity|].
  destruct (getElectionStatus_exact 101 election1)
    as (_ & _ & _ & _ & Hended & _).
  apply Hended. reflexivity.
Defined.


Lemma results_counts_from_counter_witness :
  (∀ l : list (ObjectId * Candidate.t), in_id_order l ≡ₚ l)
  ∧ tally_consistent store0
  ∧ reachable false store0 sys_race
  ∧ (∀ cid, pending (threads sys_race) 1 cid = 0%nat)
  ∧ elections (store sys_race) !! 1%N = Some election1
  ∧ ∃ r, getResults in_id_order 7 1 (store sys_race)
         = json 200 (ResultsJson r)
         ∧ (∀ cid c, (cid, c) ∈ ElectionResults.candidates r ↔
              candidates (store sys_race) !! cid = Some c
              ∧ Candidate.election c = 1%N)
         ∧ (∀ cid c, (cid, c) ∈ ElectionResults.candidates r →
              Candidate.voteCount c
              = Z.of_nat (tally (store sys_race) 1 cid)).
Proof.
  split; [apply in_id_order_Permutation|]. split; [apply store0_consistent|].
  split; [apply sys_race_reachable|]. split; [by intros cid|].
  split; [reflexivity|].
  apply (results_counts_from_counter in_id_order 7 1 store0 sys_race election1);
    [apply in_id_order_Permutation | apply store0_consistent
    | apply sys_race_reachable | by intros cid | reflexivity].
Defined.

Lemma results_totalVotes_witness :
  elections store_tie !! 1%N = Some election1
  ∧ ∃ r, getResults in_id_order 1 1 store_tie = json 200 (ResultsJson r)
         ∧ ElectionResults.totalVotes r
           = length (filter (λ v, Vote.election v = 1%N) (votes store_tie)).
Proof.
  split; [reflexivity|].
  apply (results_totalVotes in_id_order 1 1 store_tie election1). reflexivity.
Defined.

Lemma winner_banner_rule_witness :
  ∃ r, getResults in_id_order 1 1 store_tie = json 200 (ResultsJson r)
       ∧ winner_banner 50 r = None
       ∧ head (ElectionResults.candidates r) = winner_banner 101 r
       ∧ getElectionStatus 101 (ElectionResults.election r) = ended.
Proof.
  eexists. split; [vm_compute; reflexivity|].
  split; [reflexivity|]. split; [reflexivity|].
  match goal with
  | |- getElectionStatus 101 (ElectionResults.election ?r) = ended =>
    destruct (winner_banner_rule 101 r) as (_ & _ & _ & Hended & _)
  end.
  eapply Hended; reflexivity.
Defined.

Lemma admin_mutations_rejected_witness :
  updateElection validate_endDate 1 (move_end 500) store_voted
  = (json 400 (Message "Cannot modify dates after voting has started"),
     store_voted)
  ∧ deleteElection 1 store_voted
    = (json 400 (Message "Cannot delete election with existing votes"),
       store_voted)
  ∧ deleteCandidate 10 store_voted
    = (json 400 (Message "Cannot delete candidate with existing votes"),
       store_voted)
  ∧ candidates (snd (deleteCandidate 10 store_voted)) !! 10%N
    = Some (inc_voteCount alice).
Proof.
  destruct admin_mutations_rejected as (Hput & Hdel & Hcand).
  split.
  { apply (Hput validate_endDate 1%N (move_end 500) store_voted election1);
      [reflexivity | vm_compute; lia | right; by eexists | reflexivity]. }
  split.
  { apply (Hdel 1%N store_voted election1); [reflexivity | vm_compute; lia]. }
  apply (Hcand 10%N store_voted (inc_voteCount alice));
    [reflexivity | vm_compute; lia].
Defined.

(** * The rest of the API *)

(** ** What each handler leaves in the store *)

Lemma existsb_map_to_list_false {A} (p : N * A → bool) (m : gmap N A) :
  existsb p (map_to_list m) = false ↔ ∀ j d, m !! j = Some d → p (j, d) = false.
Proof.
  split.
  - intros Hex j d Hl. apply not_true_iff_false. intros Hp.
    apply not_true_iff_false in Hex. apply Hex, existsb_exists.
    exists (j, d). split; [|done].
    by apply list_elem_of_In, elem_of_map_to_list.
  - intros Hall. apply not_true_iff_false.
    intros ([j d] & Hin & Hp)%existsb_exists.
    apply list_elem_of_In, elem_of_map_to_list in Hin.
    rewrite (Hall j d Hin) in Hp. done.
Qed.

Lemma castVote_store req st :
  snd (castVote req st) = st
  ∨ ∃ cid e c,
      candidateId req = Some cid
      ∧ Election_findById st (electionId req) = Some e
      ∧ window_check (now req) e = None
      ∧ Candidate_findOne st cid (electionId req) = Some c
      ∧ Vote_findOne st (user req) (electionId req) = None
      ∧ fst (castVote req st) = vote_cast e c (new_vote req cid)
      ∧ snd (castVote req st)
        = Candidate_findByIdAndUpdate_inc
            (set_votes st (votes st ++ [new_vote req cid])) cid.
Proof.
  destruct (castVote req st) as [r st1] eqn:Hrun. simpl.
  destruct (decide (status r = 201)) as [Hok|Hno].
  - right.
    destruct (castVote_success_inv _ _ _ _ Hrun Hok)
      as (cid & e & c & ? & ? & ? & ? & ? & ? & ?).
    by exists cid, e, c.
  - left. by eapply castVote_reject_unchanged.
Qed.

Lemma createElection_store validate newId uid body st :
  snd (createElection validate newId uid body st) = st
  ∨ elections st !! newId = None
    ∧ n_startDate body < n_endDate body
    ∧ createElection validate newId uid body st
      = (json 201 (ElectionJson
           (Election.mk (n_title body) (n_description body)
              (n_startDate body) (n_endDate body) true uid)),
         set_elections st
           (<[newId := Election.mk (n_title body) (n_description body)
                         (n_startDate body) (n_endDate body) true uid]>
              (elections st))).
Proof.
  unfold createElection, Election_insert.
  destruct (n_errors_isEmpty body); simpl; [|by left].
  destruct (Z.leb_spec (n_endDate body) (n_startDate body)); [by left|].
  destruct (validate _); [|by left].
  destruct (elections st !! newId) eqn:Hid; [by left|]. by right.
Qed.

Lemma updateElection_store validate id body st :
  snd (updateElection validate id body st) = st
  ∨ ∃ e, elections st !! id = Some e
         ∧ ((0 < Vote_countDocuments_election st id)%nat →
            u_startDate body = None ∧ u_endDate body = None)
         ∧ updateElection validate id body st
           = (json 200 (ElectionJson (assign_election body e)),
              set_elections st
                (<[id := assign_election body e]> (elections st))).
Proof.
  unfold updateElection, Election_findById.
  destruct (errors_isEmpty body); simpl; [|by left].
  destruct (elections st !! id) as [e|] eqn:He; [|by left].
  destruct (_ && _) eqn:Hguard; [by left|].
  destruct (validate e body); [|by left].
  right. exists e. split_and!; try done.
  intros Hpos%Nat.ltb_lt. rewrite Hpos in Hguard. simpl in Hguard.
  apply orb_false_iff in Hguard as [H1 H2].
  apply bool_decide_eq_false in H1, H2.
  split; apply eq_None_not_Some; done.
Qed.

Lemma deleteElection_store id st :
  snd (deleteElection id st) = st
  ∨ is_Some (elections st !! id)
    ∧ Vote_countDocuments_election st id = 0%nat
    ∧ deleteElection id st
      = (json 200 (Message "Election deleted successfully"),
         mkStore (delete id (elections st))
           (filter (λ kc : N * Candidate.t, Candidate.election (snd kc) ≠ id)
              (candidates st))
           (votes st)).
Proof.
  unfold deleteElection, Election_findById.
  destruct (elections st !! id) as [e|] eqn:He; [|by left].
  destruct (Nat.ltb_spec 0 (Vote_countDocuments_election st id)); [by left|].
  right. split_and!; [eauto | lia | done].
Qed.

Lemma deleteCandidate_store id st :
  snd (deleteCandidate id st) = st
  ∨ is_Some (candidates st !! id)
    ∧ Vote_countDocuments_candidate st id = 0%nat
    ∧ deleteCandidate id st
      = (json 200 (Message "Candidate deleted successfully"),
         set_candidates st (delete id (candidates st))).
Proof.
  unfold deleteCandidate, Candidate_findById.
  destruct (candidates st !! id) as [c|] eqn:Hc; [|by left].
  destruct (Nat.ltb_spec 0 (Vote_countDocuments_candidate st id)); [by left|].
  right. split_and!; [eauto | lia | done].
Qed.

Lemma addCandidate_store validate newId eid now body st :
  snd (addCandidate validate newId eid now body st) = st
  ∨ is_Some (elections st !! eid)
    ∧ candidates st !! newId = None
    ∧ (∀ j d, candidates st !! j = Some d →
         same_key
           (Candidate.mk (a_name body) (or_default (a_party body) "Independent")
              (or_default (a_description body) "")
              (or_default (a_photo body) "") eid 0 now) d = false)
    ∧ addCandidate validate newId eid now body st
      = (Payload 201
           (Candidate.mk (a_name body) (or_default (a_party body) "Independent")
              (or_default (a_description body) "")
              (or_default (a_photo body) "") eid 0 now),
         set_candidates st
           (<[newId := Candidate.mk (a_name body)
                         (or_default (a_party body) "Independent")
                         (or_default (a_description body) "")
                         (or_default (a_photo body) "") eid 0 now]>
              (candidates st))).
Proof.
  unfold addCandidate, Election_findById, Candidate_insert.
  destruct (a_errors_isEmpty body); simpl; [|by left].
  destruct (elections st !! eid) as [e|] eqn:He; [|by left].
  destruct (validate _); [|by left].
  destruct (candidates st !! newId) eqn:Hid; [by left|].
  destruct (existsb _ _) eqn:Hex; [by left|].
  right. split_and!; try done.
  intros j d Hl.
  by apply (proj1 (existsb_map_to_list_false _ _) Hex j d).
Qed.

Lemma updateCandidate_store validate id body st :
  snd (updateCandidate validate id body st) = st
  ∨ ∃ old, candidates st !! id = Some old
           ∧ (same_key (assign_candidate body old) old = true
              ∨ ∀ j d, j ≠ id → candidates st !! j = Some d →
                       same_key (assign_candidate body old) d = false)
           ∧ updateCandidate validate id body st
             = (Payload 200 (assign_candidate body old),
                set_candidates st
                  (<[id := assign_candidate body old]> (candidates st))).
Proof.
  unfold updateCandidate, Candidate_findById, Candidate_update.
  destruct (k_errors_isEmpty body); simpl; [|by left].
  destruct (candidates st !! id) as [old|] eqn:Hold; [|by left].
  destruct (validate _); [|by left].
  destruct (same_key (assign_candidate body old) old) eqn:Hsame; simpl.
  { right. exists old. split_and!; try done. by left. }
  destruct (existsb _ _) eqn:Hex; [by left|].
  right. exists old. split_and!; try done. right.
  intros j d Hj Hl.
  pose proof (proj1 (existsb_map_to_list_false _ _) Hex j d Hl) as Hp.
  simpl in Hp. apply N.eqb_neq in Hj. by rewrite Hj in Hp.
Qed.

(** ** The vote log across all handlers *)

Lemma apply_op_votes mg op st :
  votes (apply_op mg op st) = votes st
  ∨ ∃ req cid,
      op = OpVote req
      ∧ Vote_findOne st (user req) (electionId req) = None
      ∧ votes (apply_op mg op st) = votes st ++ [new_vote req cid].
Proof.
  destruct op as [req|newId uid body|id body|id|newId eid now body|id body|id];
    cbn [apply_op].
  - destruct (castVote_store req st)
      as [-> | (cid & e & c & _ & _ & _ & _ & Hv & _ & ->)]; [by left|].
    right. by exists req, cid.
  - left. destruct (createElection_store (valid_new_election mg) newId uid body st)
      as [-> | (_ & _ & ->)]; done.
  - left. destruct (updateElection_store (valid_election_update mg) id body st)
      as [-> | (e & _ & _ & ->)]; done.
  - left. destruct (deleteElection_store id st) as [-> | (_ & _ & ->)]; done.
  - left.
    destruct (addCandidate_store (valid_candidate mg) newId eid now body st)
      as [-> | (_ & _ & _ & ->)]; done.
  - left. destruct (updateCandidate_store (valid_candidate mg) id body st)
      as [-> | (old & _ & _ & ->)]; done.
  - left. destruct (deleteCandidate_store id st) as [-> | (_ & _ & ->)]; done.
Qed.

Lemma apply_op_unique mg op st :
  votes_unique st → votes_unique (apply_op mg op st).
Proof.
  intros Hu.
  destruct (apply_op_votes mg op st) as [Heq | (req & cid & _ & Hnone & Heq)].
  - by eapply votes_unique_ext.
  - apply (votes_unique_ext (set_votes st (votes st ++ [new_vote req cid])));
      [done|].
    apply (Vote_save_unique st (new_vote req cid)); [done|].
    unfold Vote_save. apply find_none_existsb in Hnone.
    unfold Vote_findOne in Hnone. simpl. by rewrite Hnone.
Qed.

Lemma apply_op_has_voted mg op st u e :
  has_voted st u e → has_voted (apply_op mg op st) u e.
Proof.
  intros (v & Hin & Hv). exists v. split; [|done].
  destruct (apply_op_votes mg op st) as [-> | (req & cid & _ & _ & ->)];
    [done|]. apply elem_of_app. by left.
Qed.

Lemma apply_ops_has_voted mg ops st u e :
  has_voted st u e → has_voted (apply_ops mg ops st) u e.
Proof.
  revert st. induction ops as [|op ops IH]; intros st Hv; [done|].
  cbn [apply_ops foldl]. by apply IH, apply_op_has_voted.
Qed.

(** X1. No handler removes or rewrites a recorded vote: across any sequence of
    vote requests and administrative requests, each run in one piece, the
    vote log only grows at its end, a voter who has voted in an election
    still has, and the log keeps at most one vote per (voter, election). *)
Theorem votes_append_only (mg : Validation) (ops : list Op) (st : Store) :
  votes st `prefix_of` votes (apply_ops mg ops st)
  ∧ (∀ u e, has_voted st u e → has_voted (apply_ops mg ops st) u e)
  ∧ (votes_unique st → votes_unique (apply_ops mg ops st)).
Proof.
  revert st. induction ops as [|op ops IH]; intros st.
  { split_and!; done. }
  cbn [apply_ops foldl]. fold (apply_ops mg ops (apply_op mg op st)).
  destruct (IH (apply_op mg op st)) as (Hpre & Hhas & Huniq).
  assert (votes st `prefix_of` votes (apply_op mg op st)) as Hstep.
  { destruct (apply_op_votes mg op st) as [-> | (req & cid & _ & _ & ->)];
      [done | by apply prefix_app_r]. }
  split_and!.
  - by etrans.
  - intros u e (v & Hin & Hv). apply Hhas. exists v. split; [|done].
    destruct Hstep as [k ->]. apply elem_of_app. by left.
  - intros Hu. by apply Huniq, apply_op_unique.
Qed.

(** ** Candidate names across all handlers *)

Lemma same_key_inv c d :
  same_key c d = true ↔
  Candidate.name c = Candidate.name d
  ∧ Candidate.election c = Candidate.election d.
Proof.
  unfold same_key. by rewrite andb_true_iff, String.eqb_eq, N.eqb_eq.
Qed.

Lemma names_unique_rel st st' :
  (∀ i c, candidates st' !! i = Some c →
     ∃ c0, candidates st !! i = Some c0
           ∧ Candidate.name c0 = Candidate.name c
           ∧ Candidate.election c0 = Candidate.election c) →
  names_unique st → names_unique st'.
Proof.
  intros Hrel Hu i j c d Hi Hj Hn He.
  destruct (Hrel _ _ Hi) as (c0 & Hi0 & Hn0 & He0).
  destruct (Hrel _ _ Hj) as (d0 & Hj0 & Hn1 & He1).
  apply (Hu i j c0 d0); congruence.
Qed.

Lemma names_unique_insert st k c :
  (∀ j d, j ≠ k → candidates st !! j = Some d → same_key c d = false) →
  names_unique st →
  names_unique (set_candidates st (<[k := c]> (candidates st))).
Proof.
  intros Hfresh Hu i j x y. simpl. rewrite !lookup_insert.
  destruct (decide (k = i)) as [Hki|Hki], (decide (k = j)) as [Hkj|Hkj].
  - congruence.
  - intros [= <-] Hy Hn He. subst i.
    assert (same_key c y = true) as Hk by (by apply same_key_inv).
    rewrite (Hfresh j y) in Hk; [done | done | done].
  - intros Hx [= <-] Hn He. subst j.
    assert (same_key c x = true) as Hk by (by apply same_key_inv).
    rewrite (Hfresh i x) in Hk; [done | done | done].
  - apply Hu.
Qed.

Lemma apply_op_names_unique mg op st :
  names_unique st → names_unique (apply_op mg op st).
Proof.
  intros Hu.
  destruct op as [req|newId uid body|id body|id|newId eid now body|id body|id];
    cbn [apply_op].
  - destruct (castVote_store req st)
      as [-> | (cid & e & c & _ & _ & _ & _ & _ & _ & ->)]; [done|].
    eapply names_unique_rel; [|exact Hu].
    intros i x. simpl. rewrite lookup_alter.
    case_decide as Hi; [subst i|by intros; exists x].
    destruct (candidates st !! cid) as [c0|]; [|done].
    intros [= <-]. by exists c0.
  - destruct (createElection_store (valid_new_election mg) newId uid body st)
      as [-> | (_ & _ & ->)]; done.
  - destruct (updateElection_store (valid_election_update mg) id body st)
      as [-> | (e & _ & _ & ->)]; done.
  - destruct (deleteElection_store id st) as [-> | (_ & _ & ->)]; [done|].
    eapply names_unique_rel; [|exact Hu].
    intros i x [Hl _]%map_lookup_filter_Some. by exists x.
  - destruct (addCandidate_store (valid_candidate mg) newId eid now body st)
      as [-> | (_ & _ & Hfresh & ->)]; [done|].
    apply names_unique_insert; [|done]. intros j d _. apply Hfresh.
  - destruct (updateCandidate_store (valid_candidate mg) id body st)
      as [-> | (old & Hold & Hkey & ->)]; [done|].
    apply names_unique_insert; [|done].
    destruct Hkey as [Hsame | Hothers]; [|done].
    intros j d Hj Hl. apply not_true_iff_false. intros Hk.
    apply same_key_inv in Hsame as [Hn He], Hk as [Hn' He'].
    apply Hj. apply (Hu j id d old); congruence.
  - destruct (deleteCandidate_store id st) as [-> | (_ & _ & ->)]; [done|].
    eapply names_unique_rel; [|exact Hu].
    intros i x. simpl. intros [_ Hl]%lookup_delete_Some. by exists x.
Qed.

(** X2. Across any sequence of vote requests and administrative requests, no
    two candidates of one election come to bear the same name: the unique
    index on (name, election) refuses the second on creation and on
    renaming, and adding a candidate under a name already taken in the
    election is answered 400 'Candidate already exists in this election'
    with the store unchanged. *)
Theorem names_stay_unique (mg : Validation) (ops : list Op) (st : Store) :
  names_unique st →
  names_unique (apply_ops mg ops st)
  ∧ (∀ newId eid now body j d,
       a_errors_isEmpty body = true →
       valid_candidate mg
         (Candidate.mk (a_name body) (or_default (a_party body) "Independent")
            (or_default (a_description body) "")
            (or_default (a_photo body) "") eid 0 now) = true →
       is_Some (elections st !! eid) →
       candidates st !! newId = None →
       candidates st !! j = Some d →
       Candidate.name d = a_name body →
       Candidate.election d = eid →
       addCandidate (valid_candidate mg) newId eid now body st
       = (Refused
            (json 400 (Message "Candidate already exists in this election")),
          st)).
Proof.
  intros Hu. split.
  - revert st Hu. induction ops as [|op ops IH]; intros st Hu; [done|].
    cbn [apply_ops foldl]. apply IH. by apply apply_op_names_unique.
  - intros newId eid now body j d Herr Hval [e He] Hid Hj Hn Hel.
    unfold addCandidate, Election_findById, Candidate_insert.
    rewrite Herr, He, Hval, Hid. simpl.
    destruct (existsb _ _) eqn:Hex; [done|].
    pose proof (proj1 (existsb_map_to_list_false _ _) Hex j d Hj) as Hk.
    simpl in Hk.
    assert (same_key
              (Candidate.mk (a_name body) (or_default (a_party body) "Independent")
                 (or_default (a_description body) "")
                 (or_default (a_photo body) "") eid 0 now) d = true) as Hk'
      by (by apply same_key_inv).
    by rewrite Hk in Hk'.
Qed.

(** ** References and counters across all handlers *)

Lemma filter_length_0_iff {A} (p : A → bool) (l : list A) :
  length (List.filter p l) = 0%nat ↔ ∀ x, x ∈ l → p x = false.
Proof.
  split; [intros H0 x; by apply filter_length_0|].
  induction l as [|y l IH]; simpl; [done|]. intros Hall.
  rewrite (Hall y) by apply list_elem_of_here.
  apply IH. intros x Hx. apply Hall. by apply list_elem_of_further.
Qed.

Lemma tally_0 st e cid :
  (∀ v, v ∈ votes st → Vote.candidate v ≠ cid) → tally st e cid = 0%nat.
Proof.
  intros Hno. apply filter_length_0_iff. intros v Hv. unfold vote_for.
  apply andb_false_iff. right. apply N.eqb_neq. by apply Hno.
Qed.

Lemma apply_op_consistent mg op st :
  keeps_tally op → refs_ok st → tally_consistent st →
  refs_ok (apply_op mg op st) ∧ tally_consistent (apply_op mg op st).
Proof.
  intros Hsafe [Hvotes Hcands] Htally.
  destruct op as [req|newId uid body|id body|id|newId eid now body|id body|id];
    cbn [apply_op].
  - destruct (castVote_store req st)
      as [-> | (cid & e & c & _ & _ & _ & Hf & _ & _ & ->)]; [done|].
    apply Candidate_findOne_Some in Hf as [Hc Hel].
    split; [split|].
    + intros v [Hv | ->%list_elem_of_singleton]%elem_of_app; simpl.
      * destruct (Hvotes v Hv) as (c1 & Hc1 & He1).
        rewrite lookup_alter. case_decide as Heq.
        -- rewrite <- Heq in Hc1. rewrite Hc1. simpl.
           by exists (inc_voteCount c1).
        -- by exists c1.
      * rewrite lookup_alter, decide_True by done. rewrite Hc. simpl.
        by exists (inc_voteCount c).
    + intros k x. simpl. rewrite lookup_alter. case_decide as Heq.
      * subst k. rewrite Hc. simpl. intros [= <-]. simpl. by eapply Hcands.
      * apply Hcands.
    + intros k x. simpl. rewrite lookup_alter.
      unfold tally. simpl. rewrite filter_length_snoc.
      fold (tally st (Candidate.election x) k). unfold vote_for. simpl.
      case_decide as Heq.
      * subst k. rewrite Hc. simpl. intros [= <-]. simpl.
        rewrite (Htally cid c Hc), Hel, !N.eqb_refl. simpl. lia.
      * intros Hx. rewrite (Htally k x Hx).
        apply N.eqb_neq in Heq. rewrite Heq, andb_false_r. lia.
  - destruct (createElection_store (valid_new_election mg) newId uid body st)
      as [-> | (_ & _ & ->)]; [done|].
    split; [split|]; simpl; try done.
    intros k x Hx. apply lookup_insert_is_Some'. right. by eapply Hcands.
  - destruct (updateElection_store (valid_election_update mg) id body st)
      as [-> | (e & _ & _ & ->)]; [done|].
    split; [split|]; simpl; try done.
    intros k x Hx. apply lookup_insert_is_Some'. right. by eapply Hcands.
  - destruct (deleteElection_store id st) as [-> | (_ & H0 & ->)]; [done|].
    pose proof (proj1 (filter_length_0_iff _ _) H0) as Hnone.
    split; [split|]; simpl.
    + intros v Hv. destruct (Hvotes v Hv) as (c1 & Hc1 & He1).
      exists c1. split; [|done]. apply map_lookup_filter_Some.
      split; [done|]. simpl. rewrite He1.
      specialize (Hnone v Hv). simpl in Hnone. by apply N.eqb_neq.
    + intros k x [Hx Hne]%map_lookup_filter_Some. simpl in Hne.
      rewrite lookup_delete_ne by done. by eapply Hcands.
    + intros k x. simpl. intros [Hx _]%map_lookup_filter_Some.
      by apply Htally.
  - destruct (addCandidate_store (valid_candidate mg) newId eid now body st)
      as [-> | (He & Hid & _ & ->)]; [done|].
    split; [split|]; simpl.
    + intros v Hv. destruct (Hvotes v Hv) as (c1 & Hc1 & He1).
      exists c1. split; [|done]. rewrite lookup_insert.
      case_decide as Heq; [|done]. rewrite <- Heq in Hc1.
      by rewrite Hid in Hc1.
    + intros k x. simpl. rewrite lookup_insert. case_decide as Heq.
      * by intros [= <-].
      * apply Hcands.
    + intros k x. simpl. rewrite lookup_insert. case_decide as Heq.
      * intros [= <-]. simpl. subst k.
        rewrite (tally_0 _ eid newId); [done|].
        intros v Hv Hcv. destruct (Hvotes v Hv) as (c1 & Hc1 & _).
        by rewrite Hcv, Hid in Hc1.
      * apply Htally.
  - destruct Hsafe as [Hke Hkv].
    destruct (updateCandidate_store (valid_candidate mg) id body st)
      as [-> | (old & Hold & _ & ->)]; [done|].
    assert (Candidate.election (assign_candidate body old)
            = Candidate.election old) as Hel
      by (unfold assign_candidate; simpl; by rewrite Hke).
    assert (Candidate.voteCount (assign_candidate body old)
            = Candidate.voteCount old) as Hvc
      by (unfold assign_candidate; simpl; by rewrite Hkv).
    split; [split|]; simpl.
    + intros v Hv. destruct (Hvotes v Hv) as (c1 & Hc1 & He1).
      rewrite lookup_insert. case_decide as Heq.
      * exists (assign_candidate body old). split; [done|].
        rewrite <- Heq in Hc1. rewrite Hold in Hc1. injection Hc1 as <-.
        congruence.
      * by exists c1.
    + intros k x. simpl. rewrite lookup_insert. case_decide as Heq.
      * intros [= <-]. rewrite Hel. by eapply Hcands.
      * apply Hcands.
    + intros k x. simpl. rewrite lookup_insert. case_decide as Heq.
      * intros [= <-]. subst k. rewrite Hel, Hvc. by apply Htally.
      * apply Htally.
  - destruct (deleteCandidate_store id st) as [-> | (_ & H0 & ->)]; [done|].
    pose proof (proj1 (filter_length_0_iff _ _) H0) as Hnone.
    split; [split|]; simpl.
    + intros v Hv. destruct (Hvotes v Hv) as (c1 & Hc1 & He1).
      exists c1. split; [|done]. rewrite lookup_delete_ne; [done|].
      specialize (Hnone v Hv). simpl in Hnone.
      apply N.eqb_neq in Hnone. congruence.
    + intros k x [_ Hx]%lookup_delete_Some. by eapply Hcands.
    + intros k x. simpl. intros [_ Hx]%lookup_delete_Some. by apply Htally.
Qed.

Lemma apply_ops_consistent mg ops st :
  Forall keeps_tally ops → refs_ok st → tally_consistent st →
  refs_ok (apply_ops mg ops st) ∧ tally_consistent (apply_ops mg ops st).
Proof.
  revert st. induction ops as [|op ops IH]; intros st Hsafe Hr Ht; [done|].
  apply Forall_cons in Hsafe as [Hop Hsafe].
  cbn [apply_ops foldl].
  destruct (apply_op_consistent mg op st Hop Hr Ht) as [Hr' Ht'].
  by apply IH.
Qed.

Lemma empty_store_consistent : refs_ok empty_store ∧ tally_consistent empty_store.
Proof.
  split; [split|].
  - by intros v Hv%elem_of_nil.
  - intros k x Hx. simpl in Hx. by rewrite lookup_empty in Hx.
  - intros k x Hx. simpl in Hx. by rewrite lookup_empty in Hx.
Qed.

Lemma counts_total_Permutation l l' :
  l ≡ₚ l' → counts_total l = counts_total l'.
Proof. induction 1; simpl; lia. Qed.

Lemma counts_total_ext (f : ObjectId → nat) (l : list (ObjectId * Candidate.t)) :
  (∀ d, d ∈ l → Candidate.voteCount (snd d) = Z.of_nat (f (fst d))) →
  counts_total l = Z.of_nat (sum_list_with (λ d, f (fst d)) l).
Proof.
  induction l as [|d l IH]; simpl; [done|]. intros Hall.
  rewrite (Hall d) by apply list_elem_of_here.
  rewrite IH; [lia|]. intros d' Hd'. apply Hall. by apply list_elem_of_further.
Qed.

Lemma sum_list_with_0 {A} (l : list A) : sum_list_with (λ _, 0%nat) l = 0%nat.
Proof. induction l; simpl; lia. Qed.

Lemma sum_list_with_add {A} (f g : A → nat) (l : list A) :
  sum_list_with (λ x, f x + g x)%nat l
  = (sum_list_with f l + sum_list_with g l)%nat.
Proof. induction l; simpl; lia. Qed.

Lemma sum_indicator {B} (k0 : N) (l : list (N * B)) :
  NoDup (l.*1) →
  sum_list_with (λ d, if N.eqb k0 (fst d) then 1 else 0)%nat l
  = if bool_decide (k0 ∈ l.*1) then 1%nat else 0%nat.
Proof.
  induction l as [|[k x] l IH]; simpl; [done|].
  intros [Hk Hnd]%NoDup_cons. rewrite IH by done.
  destruct (decide (k0 = k)) as [Heq|Hne].
  - subst k0. rewrite N.eqb_refl.
    rewrite (bool_decide_eq_false_2 _ Hk).
    rewrite bool_decide_eq_true_2; [done | apply list_elem_of_here].
  - apply N.eqb_neq in Hne as Hne'. rewrite Hne'. simpl.
    apply (f_equal (λ b : bool, if b then 1%nat else 0%nat)).
    apply bool_decide_ext. rewrite elem_of_cons.
    split; [by right | by intros [?|?]].
Qed.

Lemma sum_tally_cons (l : list (ObjectId * Candidate.t)) (v : Vote.t)
  (vs : list Vote.t) (eid : ObjectId) :
  sum_list_with (λ d, length (List.filter (vote_for eid (fst d)) (v :: vs))) l
  = (sum_list_with (λ d, if vote_for eid (fst d) v then 1 else 0)%nat l
     + sum_list_with (λ d, length (List.filter (vote_for eid (fst d)) vs)) l)%nat.
Proof.
  induction l as [|d l IHl]; [done|].
  cbn [sum_list_with]. rewrite IHl. cbn [List.filter].
  destruct (vote_for eid (fst d) v); simpl; lia.
Qed.

Lemma sum_tally_votes (l : list (ObjectId * Candidate.t)) (vs : list Vote.t)
  (eid : ObjectId) :
  NoDup (l.*1) →
  (∀ v, v ∈ vs → Vote.election v = eid → Vote.candidate v ∈ l.*1) →
  sum_list_with (λ d, length (List.filter (vote_for eid (fst d)) vs)) l
  = length (List.filter (λ v, N.eqb (Vote.election v) eid) vs).
Proof.
  intros Hnd. induction vs as [|v vs IH]; intros Hin.
  { simpl. apply sum_list_with_0. }
  rewrite sum_tally_cons, IH.
  2:{ intros v' Hv'. apply Hin. by apply list_elem_of_further. }
  cbn [List.filter]. unfold vote_for.
  destruct (N.eqb_spec (Vote.election v) eid) as [He|Hne]; simpl.
  - rewrite sum_indicator by done.
    rewrite bool_decide_eq_true_2; [done|].
    apply Hin; [apply list_elem_of_here | done].
  - by rewrite sum_list_with_0.
Qed.

Lemma NoDup_fst_filter {A B} (p : A * B → bool) (l : list (A * B)) :
  NoDup (l.*1) → NoDup ((List.filter p l).*1).
Proof.
  induction l as [|d l IH]; simpl; [done|].
  intros [Hd Hnd]%NoDup_cons. destruct (p d); simpl; [|by apply IH].
  apply NoDup_cons. split; [|by apply IH].
  intros (d' & Heq & Hin)%list_elem_of_fmap. apply Hd.
  apply list_elem_of_fmap. exists d'. split; [done|].
  apply list_elem_of_In in Hin. apply filter_In in Hin as [Hin _].
  by apply list_elem_of_In.
Qed.

(** X3. In every state reached from a store whose references and counters are
    in order (the empty store is one) through vote requests and
    administrative requests, each run in one piece and no PUT on a
    candidate setting its election or its voteCount: every vote names a
    candidate of its election and every candidate an election of the store;
    the results of an election list each candidate with the number of its
    votes in the log, and the listed counts add up to totalVotes. *)
Theorem counts_add_up (mg : Validation) (ops : list Op) (st0 : Store)
  (natural : list (ObjectId * Candidate.t) → list (ObjectId * Candidate.t))
  (uid eid : ObjectId) (r : ElectionResults.t) :
  refs_ok st0 →
  tally_consistent st0 →
  Forall keeps_tally ops →
  (∀ l, natural l ≡ₚ l) →
  getResults natural uid eid (apply_ops mg ops st0)
  = json 200 (ResultsJson r) →
  refs_ok (apply_ops mg ops st0)
  ∧ (∀ cid c, (cid, c) ∈ ElectionResults.candidates r →
       Candidate.voteCount c
       = Z.of_nat (tally (apply_ops mg ops st0) eid cid))
  ∧ counts_total (ElectionResults.candidates r)
    = Z.of_nat (ElectionResults.totalVotes r).
Proof.
  intros Hr0 Ht0 Hsafe Hnat Hres.
  destruct (apply_ops_consistent mg ops st0 Hsafe Hr0 Ht0) as [Hr Ht].
  set (st := apply_ops mg ops st0) in *.
  unfold getResults in Hres.
  destruct (Election_findById st eid) as [e|]; [|done].
  injection Hres as <-. simpl.
  pose proof (sort_voteCount_desc_Permutation natural Hnat
                (Candidate_find st eid)) as Hperm.
  assert (∀ d, d ∈ Candidate_find st eid →
            Candidate.voteCount (snd d)
            = Z.of_nat (tally st eid (fst d))) as Hcount.
  { intros [cid c] [Hl Hel]%Candidate_find_spec. simpl.
    rewrite (Ht cid c Hl). by rewrite Hel. }
  split_and!; [done | |].
  - intros cid c Hin. rewrite Hperm in Hin. by apply (Hcount (cid, c)).
  - rewrite (counts_total_Permutation _ _ Hperm).
    rewrite (counts_total_ext (tally st eid)) by done.
    f_equal. unfold tally, Vote_countDocuments_election.
    apply sum_tally_votes.
    + apply NoDup_fst_filter, NoDup_fst_map_to_list.
    + intros v Hv Hel. destruct Hr as [Hvotes _].
      destruct (Hvotes v Hv) as (c & Hc & Hce).
      apply list_elem_of_fmap. exists (Vote.candidate v, c). split; [done|].
      apply Candidate_find_spec. split; [done | congruence].
Qed.

(** ** Has the voter voted? *)

Lemma find_snoc_none {A} (p : A → bool) (l : list A) (x : A) :
  List.find p l = None →
  List.find p (l ++ [x]) = if p x then Some x else None.
Proof.
  induction l as [|y l IH]; simpl; [done|].
  destruct (p y); [done | exact IH].
Qed.

Lemma Vote_findOne_elem st u e v :
  Vote_findOne st u e = Some v →
  v ∈ votes st ∧ Vote.voter v = u ∧ Vote.election v = e.
Proof.
  unfold Vote_findOne. intros [Hin Hp]%find_some.
  apply vote_of_inv in Hp as [? ?]. by rewrite list_elem_of_In.
Qed.

Lemma checkVote_not_voted u e st :
  ¬ has_voted st u e → checkVote u e st = Payload 200 (VoteCheck.mk false None).
Proof.
  intros Hv%Vote_findOne_None. unfold checkVote. by rewrite Hv.
Qed.

Lemma checkVote_voted u e st :
  has_voted st u e →
  ∃ v, Vote_findOne st u e = Some v
       ∧ checkVote u e st
         = match candidates st !! Vote.candidate v with
           | Some c =>
             Payload 200
               (VoteCheck.mk true (Some (Candidate.name c, Vote.timestamp v)))
           | None => Refused (json 500 (Message "Server error"))
           end.
Proof.
  intros [v Hv]%Vote_findOne_Some. exists v. split; [done|].
  unfold checkVote, populate_candidate. rewrite Hv.
  by destruct (candidates st !! Vote.candidate v).
Qed.

(** X4. The check-vote route answers for any election id, known or not: 200
    with hasVoted false exactly when the voter has no vote in the election;
    for a voter who has voted, 200 with hasVoted true, the present name of
    the chosen candidate and the vote's timestamp, or 500 when the
    candidate document of the vote is gone.  When every vote names a
    candidate of the store it never answers 500, and whenever it answers
    200 it agrees with the [hasVoted] and the candidate of the results
    route. *)
Theorem checkVote_answers (u e : ObjectId) (st : Store) :
  (checkVote u e st = Payload 200 (VoteCheck.mk false None) ↔
     ¬ has_voted st u e)
  ∧ (∀ v, Vote_findOne st u e = Some v →
       (∀ c, candidates st !! Vote.candidate v = Some c →
          checkVote u e st
          = Payload 200
              (VoteCheck.mk true (Some (Candidate.name c, Vote.timestamp v))))
       ∧ (candidates st !! Vote.candidate v = None →
          checkVote u e st = Refused (json 500 (Message "Server error"))))
  ∧ (refs_ok st →
     ∃ c, checkVote u e st = Payload 200 c
          ∧ (VoteCheck.hasVoted c = true ↔ has_voted st u e))
  ∧ (∀ natural el code c,
       elections st !! e = Some el →
       checkVote u e st = Payload code c →
       ∃ r, getResults natural u e st = json 200 (ResultsJson r)
            ∧ ElectionResults.hasVoted r = VoteCheck.hasVoted c
            ∧ snd <$> ElectionResults.userVote r = fst <$> VoteCheck.vote c).
Proof.
  split_and!.
  - split; [|apply checkVote_not_voted].
    intros Hc Hv. destruct (checkVote_voted u e st Hv) as (v & _ & Heq).
    rewrite Heq in Hc. by destruct (candidates st !! Vote.candidate v).
  - intros v Hv. unfold checkVote, populate_candidate. rewrite Hv.
    split; [intros c Hc | intros Hc]; by rewrite Hc.
  - intros [Hvotes _].
    destruct (Vote_findOne st u e) as [v|] eqn:Hv.
    + destruct (Vote_findOne_elem _ _ _ _ Hv) as (Hin & Hu & He).
      destruct (Hvotes v Hin) as (c & Hc & _).
      unfold checkVote, populate_candidate. rewrite Hv, Hc.
      eexists. split; [done|]. simpl. split; [|done].
      intros _. by exists v.
    + apply Vote_findOne_None in Hv as Hno.
      rewrite (checkVote_not_voted u e st Hno). eexists. split; [done|].
      simpl. split; [done | intros ?; contradiction].
  - intros natural el code c Hel Hc.
    rewrite (getResults_ok natural u e st el Hel). eexists. split; [done|].
    simpl. revert Hc. unfold checkVote, populate_candidate.
    destruct (Vote_findOne st u e) as [v|]; [|by intros [= <- <-]].
    destruct (candidates st !! Vote.candidate v); [|done].
    by intros [= <- <-].
Qed.

(** X5. A vote answered 201 is seen by the check-vote route at once, under the
    name of the chosen candidate and the timestamp of the vote, where it
    answered hasVoted false before; and whatever vote requests and
    administrative requests follow, the route never again answers hasVoted
    false for this voter in this election. *)
Theorem vote_then_checkVote (req : VoteReq) (st st1 : Store) (r : Response) :
  castVote req st = (r, st1) →
  status r = 201 →
  ∃ cid c,
    candidateId req = Some cid
    ∧ candidates st !! cid = Some c
    ∧ checkVote (user req) (electionId req) st
      = Payload 200 (VoteCheck.mk false None)
    ∧ checkVote (user req) (electionId req) st1
      = Payload 200 (VoteCheck.mk true (Some (Candidate.name c, stamp req)))
    ∧ (∀ mg ops code c',
         checkVote (user req) (electionId req) (apply_ops mg ops st1)
         = Payload code c' →
         VoteCheck.hasVoted c' = true).
Proof.
  intros Hrun Hok.
  destruct (castVote_success_inv _ _ _ _ Hrun Hok)
    as (cid & e & c & Hcid & He & Hw & Hf & Hv & -> & ->).
  apply Candidate_findOne_Some in Hf as [Hc Hel].
  exists cid, c. split_and!; try done.
  - apply checkVote_not_voted. by apply Vote_findOne_None.
  - unfold checkVote, populate_candidate, Vote_findOne. simpl.
    unfold Vote_findOne in Hv. rewrite (find_snoc_none _ _ _ Hv).
    unfold vote_of. simpl. rewrite !N.eqb_refl. simpl.
    rewrite lookup_alter, decide_True by done. by rewrite Hc.
  - intros mg ops code c' Hc'.
    destruct (VoteCheck.hasVoted c') eqn:Hh; [done|]. exfalso.
    assert (has_voted
              (Candidate_findByIdAndUpdate_inc
                 (set_votes st (votes st ++ [new_vote req cid])) cid)
              (user req) (electionId req)) as Hhas.
    { exists (new_vote req cid). split; [|done]. simpl.
      apply elem_of_app. right. by apply list_elem_of_singleton. }
    apply (apply_ops_has_voted mg ops) in Hhas.
    destruct (checkVote_voted _ _ _ Hhas) as (v & _ & Heq).
    rewrite Heq in Hc'.
    destruct (candidates _ !! Vote.candidate v); [|done].
    injection Hc' as <- <-. done.
Qed.

(** ** Creating an election *)





(** ** Adding a candidate *)

Lemma addCandidate_success validate newId eid now0 body st c st' :
  addCandidate validate newId eid now0 body st = (Payload 201 c, st') →
  is_Some (elections st !! eid)
  ∧ candidates st !! newId = None
  ∧ c = Candidate.mk (a_name body) (or_default (a_party body) "Independent")
          (or_default (a_description body) "") (or_default (a_photo body) "")
          eid 0 now0
  ∧ st' = set_candidates st (<[newId := c]> (candidates st)).
Proof.
  intros Hrun.
  destruct (addCandidate_store validate newId eid now0 body st)
    as [Hsame | (He & Hid & _ & Heq)].
  - exfalso. revert Hrun Hsame.
    unfold addCandidate, Election_findById, Candidate_insert.
    destruct (a_errors_isEmpty body); simpl; [|done].
    destruct (elections st !! eid); [|done].
    destruct (validate _); [|done].
    destruct (candidates st !! newId) eqn:Hl; [done|].
    destruct (existsb _ _); [done|].
    intros [= <- <-]. simpl. intros Heq.
    assert (candidates (set_candidates st
              (<[newId := Candidate.mk (a_name body)
                   (or_default (a_party body) "Independent")
                   (or_default (a_description body) "")
                   (or_default (a_photo body) "") eid 0 now0]>
                 (candidates st))) !! newId = None) as Hnone
      by (by rewrite Heq).
    simpl in Hnone. by rewrite lookup_insert, decide_True in Hnone.
  - rewrite Heq in Hrun. by injection Hrun as <- <-.
Qed.

(** X7. A candidate added with answer 201 was stored under an id that was free,
    with the name of the request, the election of the URL, counter 0, and
    party 'Independent' when the request gave none or an empty one; nothing
    else of the store changed.  The results of the election then list it and
    report the same totalVotes as before; and a vote for it, by a voter who
    has not voted in the election while its voting window is open, is
    answered 201 and takes its counter to 1. *)
Theorem addCandidate_then_vote (validate : Candidate.t → bool)
  (newId eid : ObjectId) (now0 : Z) (body : CandidateCreate)
  (st st' : Store) (c : Candidate.t) :
  addCandidate validate newId eid now0 body st = (Payload 201 c, st') →
  candidates st !! newId = None
  ∧ candidates st' = <[newId := c]> (candidates st)
  ∧ elections st' = elections st
  ∧ votes st' = votes st
  ∧ Candidate.name c = a_name body
  ∧ Candidate.election c = eid
  ∧ Candidate.voteCount c = 0
  ∧ (a_party body = None ∨ a_party body = Some "" →
     Candidate.party c = "Independent")
  ∧ (∀ p, a_party body = Some p → p ≠ "" → Candidate.party c = p)
  ∧ (∀ natural u, (∀ l, natural l ≡ₚ l) →
       ∃ r, getResults natural u eid st' = json 200 (ResultsJson r)
            ∧ (newId, c) ∈ ElectionResults.candidates r
            ∧ ElectionResults.totalVotes r
              = Vote_countDocuments_election st eid)
  ∧ (∀ req e, candidateId req = Some newId → electionId req = eid →
       elections st !! eid = Some e →
       window_check (now req) e = None →
       ¬ has_voted st (user req) eid →
       ∃ st2, castVote req st' = (vote_cast e c (new_vote req newId), st2)
              ∧ status (vote_cast e c (new_vote req newId)) = 201
              ∧ Candidate.voteCount <$> candidates st2 !! newId = Some 1
              ∧ has_voted st2 (user req) eid).
Proof.
  intros Hrun.
  destruct (addCandidate_success _ _ _ _ _ _ _ _ Hrun)
    as ([e0 He0] & Hid & Hc & ->).
  assert (Candidate.election c = eid) as Hel by (by rewrite Hc).
  split_and!; try done; try (by rewrite Hc).
  - intros [Hp | Hp]; by rewrite Hc; simpl; rewrite Hp.
  - intros p Hp Hne. rewrite Hc. simpl. rewrite Hp. simpl.
    apply String.eqb_neq in Hne. by rewrite Hne.
  - intros natural u Hperm. eexists. split.
    { apply (getResults_ok natural u eid _ e0). exact He0. }
    simpl. split; [|done].
    rewrite (sort_voteCount_desc_Permutation _ Hperm).
    apply Candidate_find_spec. simpl.
    by rewrite lookup_insert, decide_True.
  - intros req e Hcid Hreq He Hw Hnot.
    eexists. split.
    { apply castVote_admit; try done.
      - unfold Election_findById. simpl. by rewrite Hreq.
      - apply Candidate_findOne_Some. simpl.
        rewrite lookup_insert, decide_True by done. by rewrite Hreq.
      - apply Vote_findOne_None. by rewrite Hreq. }
    split; [done|]. split.
    + unfold Candidate_findByIdAndUpdate_inc. simpl.
      rewrite lookup_alter, decide_True by done.
      rewrite lookup_insert, decide_True by done. simpl. by rewrite Hc.
    + exists (new_vote req newId). split_and!; try done.
      simpl. apply elem_of_app. right. by apply list_elem_of_singleton.
Qed.

(** ** Deleting an election or a candidate *)

Lemma countDocuments_election_0 st id :
  Vote_countDocuments_election st id = 0%nat
  ↔ ∀ v, v ∈ votes st → Vote.election v ≠ id.
Proof.
  unfold Vote_countDocuments_election. rewrite filter_length_0_iff.
  apply forall_proper. intros v. by rewrite N.eqb_neq.
Qed.

Lemma countDocuments_candidate_0 st id :
  Vote_countDocuments_candidate st id = 0%nat
  ↔ ∀ v, v ∈ votes st → Vote.candidate v ≠ id.
Proof.
  unfold Vote_countDocuments_candidate. rewrite filter_length_0_iff.
  apply forall_proper. intros v. by rewrite N.eqb_neq.
Qed.


(** X9. Deleting a candidate is answered 200 exactly when the candidate exists
    and no vote of the log names it, whatever its counter says; any other
    answer leaves the store as it was.  A 200 removes that candidate only:
    the elections, the votes and every other candidate stay, the results of
    no election list it any more, and counters that agreed with the log
    still do. *)
Theorem deleteCandidate_by_log (id : ObjectId) (st : Store) :
  (status (fst (deleteCandidate id st)) = 200
   ↔ is_Some (candidates st !! id)
     ∧ ∀ v, v ∈ votes st → Vote.candidate v ≠ id)
  ∧ (status (fst (deleteCandidate id st)) ≠ 200 →
     snd (deleteCandidate id st) = st)
  ∧ (status (fst (deleteCandidate id st)) = 200 →
     candidates (snd (deleteCandidate id st)) = delete id (candidates st)
     ∧ elections (snd (deleteCandidate id st)) = elections st
     ∧ votes (snd (deleteCandidate id st)) = votes st
     ∧ (∀ natural u e r, (∀ l, natural l ≡ₚ l) →
          getResults natural u e (snd (deleteCandidate id st))
          = json 200 (ResultsJson r) →
          (∀ d, d ∈ ElectionResults.candidates r → fst d ≠ id)
          ∧ ElectionResults.totalVotes r = Vote_countDocuments_election st e)
     ∧ (refs_ok st → refs_ok (snd (deleteCandidate id st)))
     ∧ (tally_consistent st →
        tally_consistent (snd (deleteCandidate id st)))).
Proof.
  assert (status (fst (deleteCandidate id st)) = 200
          ↔ is_Some (candidates st !! id)
            ∧ Vote_countDocuments_candidate st id = 0%nat) as Hiff.
  { unfold deleteCandidate, Candidate_findById.
    destruct (candidates st !! id) as [c|] eqn:Hc; simpl.
    - destruct (Nat.ltb_spec 0 (Vote_countDocuments_candidate st id)); simpl.
      + split; [done|]. intros [_ ?]. lia.
      + split; [|done]. intros _. split; [eauto|lia].
    - split; [done|]. by intros [[? ?] _]. }
  split_and!.
  - by rewrite Hiff, countDocuments_candidate_0.
  - intros Hno. destruct (deleteCandidate_store id st) as [?|(Hc & Hn & _)];
      [done|]. destruct Hno. by apply Hiff.
  - intros Hok. apply Hiff in Hok as [Hc Hn].
    assert (deleteCandidate id st
            = (json 200 (Message "Candidate deleted successfully"),
               set_candidates st (delete id (candidates st)))) as Heq.
    { unfold deleteCandidate, Candidate_findById.
      destruct Hc as [c Hc]. by rewrite Hc, Hn. }
    rewrite Heq. simpl. split_and!; try done.
    + intros natural u e r Hperm Hres.
      unfold getResults, Election_findById in Hres. simpl in Hres.
      destruct (elections st !! e) as [x|]; [|done].
      injection Hres as <-. simpl. split; [|done].
      intros [k d].
      rewrite (sort_voteCount_desc_Permutation _ Hperm), Candidate_find_spec.
      simpl.
      intros [Hd _] ->. by rewrite lookup_delete_eq in Hd.
    + intros [Hvotes Hcands]. split; simpl.
      * intros v Hv. destruct (Hvotes v Hv) as (c & Hl & Hel).
        exists c. split; [|done]. rewrite lookup_delete_ne; [done|].
        apply not_eq_sym.
        by apply (proj1 (countDocuments_candidate_0 st id) Hn v).
      * intros k c Hl. apply lookup_delete_Some in Hl as [_ Hl].
        by eapply Hcands.
    + intros Hcons k c. simpl. intros [_ Hl]%lookup_delete_Some.
      by apply Hcons.
Qed.

(** ** Editing a candidate *)

(** X10. Editing a candidate never touches a vote, an election or another
    candidate, and a refusal leaves the store as it was.  A 200 stores the
    old document with the keys of the body overwritten, its creation time
    kept.  No vote blocks the edit: a body holding only [voteCount] sets the
    counter to that number whatever the log says.  A change of name or
    election to a (name, election) pair that another candidate holds is
    answered 500 'Server error' and changes nothing. *)
Theorem updateCandidate_result (validate : Candidate.t → bool)
  (id : ObjectId) (body : CandidateUpdate) (st : Store) :
  votes (snd (updateCandidate validate id body st)) = votes st
  ∧ elections (snd (updateCandidate validate id body st)) = elections st
  ∧ (∀ k, k ≠ id →
       candidates (snd (updateCandidate validate id body st)) !! k
       = candidates st !! k)
  ∧ (∀ r, fst (updateCandidate validate id body st) = Refused r →
       snd (updateCandidate validate id body st) = st)
  ∧ (∀ c st', updateCandidate validate id body st = (Payload 200 c, st') →
       ∃ old, candidates st !! id = Some old
              ∧ c = assign_candidate body old
              ∧ candidates st' !! id = Some c
              ∧ Candidate.createdAt c = Candidate.createdAt old)
  ∧ (∀ old n, k_errors_isEmpty body = true →
       candidates st !! id = Some old →
       k_name body = None → k_election body = None →
       k_voteCount body = Some n →
       validate (assign_candidate body old) = true →
       ∃ st', updateCandidate validate id body st
              = (Payload 200 (assign_candidate body old), st')
              ∧ Candidate.voteCount <$> candidates st' !! id = Some n
              ∧ ∀ e, tally st' e id = tally st e id)
  ∧ (∀ old j d, k_errors_isEmpty body = true →
       candidates st !! id = Some old →
       validate (assign_candidate body old) = true →
       j ≠ id → candidates st !! j = Some d →
       same_key (assign_candidate body old) old = false →
       same_key (assign_candidate body old) d = true →
       updateCandidate validate id body st
       = (Refused (json 500 (Message "Server error")), st)).
Proof.
  split_and!.
  - destruct (updateCandidate_store validate id body st)
      as [->|(old & _ & _ & ->)]; done.
  - destruct (updateCandidate_store validate id body st)
      as [->|(old & _ & _ & ->)]; done.
  - intros k Hk. destruct (updateCandidate_store validate id body st)
      as [->|(old & _ & _ & ->)]; [done|]. simpl.
    by rewrite lookup_insert_ne.
  - intros r. unfold updateCandidate, Candidate_findById.
    destruct (k_errors_isEmpty body); simpl; [|done].
    destruct (candidates st !! id); [|done].
    destruct (validate _); [|done].
    by destruct (Candidate_update _ _ _).
  - intros c st'. unfold updateCandidate, Candidate_findById, Candidate_update.
    destruct (k_errors_isEmpty body); simpl; [|done].
    destruct (candidates st !! id) as [old|] eqn:Hold; [|done].
    destruct (validate _); [|done].
    destruct (_ && _); [done|]. intros [= <- <-].
    exists old. split_and!; try done. simpl.
    by rewrite lookup_insert, decide_True.
  - intros old n Herr Hold Hname Hel Hn Hval.
    unfold updateCandidate, Candidate_findById, Candidate_update.
    rewrite Herr, Hold. simpl. rewrite Hval.
    assert (same_key (assign_candidate body old) old = true) as ->.
    { unfold same_key, assign_candidate. simpl. rewrite Hname, Hel. simpl.
      by rewrite String.eqb_refl, N.eqb_refl. }
    simpl. eexists. split; [done|]. simpl.
    rewrite lookup_insert, decide_True by done. simpl. by rewrite Hn.
  - intros old j d Herr Hold Hval Hj Hd Hkey Hclash.
    unfold updateCandidate, Candidate_findById, Candidate_update.
    rewrite Herr, Hold. simpl. rewrite Hval, Hkey. simpl.
    assert (existsb
              (λ x : N * Candidate.t,
                 negb (fst x =? id)%N
                 && same_key (assign_candidate body old) (snd x))
              (map_to_list (candidates st)) = true) as ->; [|done].
    apply existsb_exists. exists (j, d). split.
    + apply list_elem_of_In. by apply elem_of_map_to_list.
    + simpl. rewrite Hclash. apply N.eqb_neq in Hj. by rewrite Hj.
Qed.

(** ** The figures of the admin dashboard *)

Lemma roles_partition (l : list (ObjectId * User.t)) :
  length l
  = (length (List.filter (is_role role_voter) l)
     + length (List.filter (is_role role_admin) l))%nat.
Proof.
  induction l as [|[k u] l IH]; [done|].
  cbn [List.filter length].
  assert (∀ r, is_role r (k, u) = bool_decide (User.role u = r)) as Hr by done.
  rewrite !Hr. destruct (User.role u); simpl; lia.
Qed.

Lemma list_filter_length_le {A} (p : A → bool) (l : list A) :
  (length (List.filter p l) ≤ length l)%nat.
Proof. induction l as [|x l IH]; simpl; [lia|]. destruct (p x); simpl; lia. Qed.

Lemma size_alter_candidates (f : Candidate.t → Candidate.t) k
  (m : gmap N Candidate.t) :
  size (alter f k m) = size m.
Proof.
  rewrite <- !(size_dom (D := gset N)). by rewrite dom_alter_L.
Qed.

(** X11. The figures of GET /api/admin/stats: the users are the voters plus the
    admins; the active elections are at most the elections; the totalVotes
    of no election's results exceeds the votes figure.  A vote request,
    whichever of its store calls fail, leaves every other figure as it was
    and raises the votes figure by at most one: by one when it is answered
    201, by nothing when it is answered anything other than 201 or 500, and
    by one under a 500 exactly when the vote was saved and the counter
    update was then rejected.  With no store call failing the figure rises
    by one on a 201 and by nothing otherwise. *)
Theorem getStats_figures (users : gmap N User.t) (st : Store) :
  AdminStats.users_total (getStats users st)
  = (AdminStats.users_voters (getStats users st)
     + AdminStats.users_admins (getStats users st))%nat
  ∧ (AdminStats.elections_active (getStats users st)
     ≤ AdminStats.elections_total (getStats users st))%nat
  ∧ (∀ natural u e r,
       getResults natural u e st = json 200 (ResultsJson r) →
       (ElectionResults.totalVotes r ≤ AdminStats.votes (getStats users st))%nat)
  ∧ (∀ fails req, ∃ n : nat,
       getStats users (snd (castVote_with fails req st))
       = AdminStats.mk
           (AdminStats.users_total (getStats users st))
           (AdminStats.users_voters (getStats users st))
           (AdminStats.users_admins (getStats users st))
           (AdminStats.elections_total (getStats users st))
           (AdminStats.elections_active (getStats users st))
           (AdminStats.votes (getStats users st) + n)%nat
           (AdminStats.candidates (getStats users st))
       ∧ (n ≤ 1)%nat
       ∧ (status (fst (castVote_with fails req st)) = 201 → n = 1%nat)
       ∧ (status (fst (castVote_with fails req st)) ≠ 201 →
          status (fst (castVote_with fails req st)) ≠ 500 → n = 0%nat)
       ∧ (status (fst (castVote_with fails req st)) = 500 →
          (n = 1%nat
           ↔ ∃ cid e c,
               candidateId req = Some cid
               ∧ fails (AtIncrement cid e c (new_vote req cid)) = true
               ∧ snd (castVote_with fails req st)
                 = set_votes st (votes st ++ [new_vote req cid])))
       ∧ ((∀ pc, fails pc = false) →
          n = if decide (status (fst (castVote_with fails req st)) = 201%Z)
              then 1%nat else 0%nat)).
Proof.
  split_and!.
  - simpl. rewrite <- length_map_to_list. apply roles_partition.
  - simpl. rewrite <- length_map_to_list. apply list_filter_length_le.
  - intros natural u e r. unfold getResults.
    destruct (Election_findById st e); [|done]. intros [= <-]. simpl.
    apply list_filter_length_le.
  - intros fails req.
    destruct (castVote_with_cases fails req st)
      as [H | [H | (cid & el & c & Hcid & _ & _ & Hf & H)]]; rewrite H.
    + destruct (castVote req st) as [r st1] eqn:Hrun. simpl.
      destruct (decide (status r = 201)) as [Hst|Hst].
      * destruct (castVote_success_inv _ _ _ _ Hrun Hst)
          as (cid & e & c & _ & _ & _ & _ & _ & _ & ->).
        exists 1%nat. split_and!; try done; try lia.
        -- unfold getStats, Election_find_active. simpl.
           by rewrite length_app, size_alter_candidates.
      * rewrite (castVote_reject_unchanged _ _ _ _ Hrun Hst).
        exists 0%nat. split_and!; try done; try lia.
        -- unfold getStats. f_equal. lia.
        -- intros _. split; [done|]. intros (cid & e & c & _ & _ & Heq).
           apply (f_equal (λ s, length (votes s))) in Heq. simpl in Heq.
           rewrite length_app in Heq. simpl in Heq. lia.
    + simpl. exists 0%nat. split_and!; try done; try lia.
      * unfold getStats. f_equal. lia.
      * intros _. split; [done|]. intros (cid & e & c & _ & _ & Heq).
        apply (f_equal (λ s, length (votes s))) in Heq. simpl in Heq.
        rewrite length_app in Heq. simpl in Heq. lia.
    + simpl. exists 1%nat. split_and!; try done; try lia.
      * unfold getStats, Election_find_active. simpl.
        by rewrite length_app.
      * intros _. split; [|done]. intros _. by exists cid, el, c.
      * intros Hno. by rewrite Hno in Hf.
Qed.

(** ** The elections a voter is offered *)

Lemma Election_find_active_spec st id e :
  (id, e) ∈ Election_find_active st
  ↔ elections st !! id = Some e ∧ Election.isActive e = true.
Proof.
  unfold Election_find_active.
  by rewrite list_elem_of_In, filter_In, <- list_elem_of_In,
    elem_of_map_to_list.
Qed.

Ltac card_in := solve [repeat constructor].

Ltac card_out H :=
  repeat (apply elem_of_cons in H as [H|H]; [discriminate H|]);
  by apply elem_of_nil in H.

Ltac card_cases :=
  split_and!;
  (split; intros Hcard);
  first [ done | lia | card_in | card_out Hcard
        | intros Hcard'; card_out Hcard'
        | destruct Hcard; card_in ].

Lemma card_actions_enabled now e :
  Election.isActive e = true →
  (VoteNow ∈ card_actions now e ↔ window_check now e = None)
  ∧ (VoteNow ∈ card_actions now e ↔ isElectionActive now e = true)
  ∧ (ViewResults ∈ card_actions now e ↔ Election.startDate e ≤ now)
  ∧ (NotStarted ∈ card_actions now e ↔ now < Election.startDate e)
  ∧ (NotStarted ∈ card_actions now e ↔ ViewResults ∉ card_actions now e).
Proof.
  intros Hon.
  unfold card_actions, getElectionStatus, window_check, isElectionActive.
  rewrite Hon. simpl.
  destruct (Z.ltb_spec now (Election.startDate e)) as [H1|H1]; simpl.
  - assert ((now >=? Election.startDate e) = false) as -> by lia.
    simpl. card_cases.
  - assert ((now >=? Election.startDate e) = true) as -> by lia. simpl.
    destruct (Z.leb_spec now (Election.endDate e)) as [H2|H2]; simpl.
    + assert ((now >? Election.endDate e) = false) as -> by lia.
      card_cases.
    + assert ((now >? Election.endDate e) = true) as -> by lia.
      card_cases.
Qed.

#[local] Instance by_startDate_desc_trans : Transitive by_startDate_desc.
Proof. unfold by_startDate_desc. intros a b c. lia. Qed.

#[local] Instance by_startDate_desc_total : Total by_startDate_desc.
Proof. unfold by_startDate_desc. intros a b. lia. Qed.

(** X12. GET /api/elections answers 200 with exactly the enabled elections
    of the store, each once and with the name of its creator (null when
    that user is gone), later start dates first, elections with equal start
    dates in the order in which the store yields them.  On the elections
    page every listed election offers at least one action; 'Vote Now' is
    offered exactly when the vote handler's window checks would pass at
    that instant, which is when the voting page counts the election active;
    'View Results' exactly from the start date on and 'Not Started' exactly
    before it. *)
Theorem elections_page_offers (users : gmap N User.t)
  (natural : list (ObjectId * Election.t) → list (ObjectId * Election.t))
  (st : Store) (now : Z) :
  (∀ l, natural l ≡ₚ l) →
  ∃ l, getElections users natural st
       = Payload 200 ((λ d, (d, populate_createdBy users (snd d))) <$> l)
       ∧ (∀ id e, (id, e) ∈ l
                  ↔ elections st !! id = Some e ∧ Election.isActive e = true)
       ∧ NoDup l.*1
       ∧ (∀ i j a b, l !! i = Some a → l !! j = Some b → (i < j)%nat →
            Election.startDate (snd b) ≤ Election.startDate (snd a))
       ∧ (∀ k,
            List.filter (λ d, Election.startDate (snd d) =? k) l
            = List.filter (λ d, Election.startDate (snd d) =? k)
                (natural (Election_find_active st)))
       ∧ (∀ id e, (id, e) ∈ l →
            getElectionStatus now e ≠ inactive
            ∧ card_actions now e ≠ []
            ∧ (VoteNow ∈ card_actions now e ↔ window_check now e = None)
            ∧ (VoteNow ∈ card_actions now e ↔ isElectionActive now e = true)
            ∧ (ViewResults ∈ card_actions now e ↔ Election.startDate e ≤ now)
            ∧ (NotStarted ∈ card_actions now e ↔ now < Election.startDate e)).
Proof.
  intros Hnat. eexists. split; [done|].
  assert (sort_startDate_desc natural (Election_find_active st)
          ≡ₚ Election_find_active st) as Hperm.
  { unfold sort_startDate_desc. by rewrite sort_by_Permutation. }
  assert (StronglySorted by_startDate_desc
            (sort_startDate_desc natural (Election_find_active st)))
    as Hsorted.
  { apply (sort_by_StronglySorted by_startDate_desc). }
  assert (∀ id e,
            (id, e) ∈ sort_startDate_desc natural (Election_find_active st)
            ↔ elections st !! id = Some e ∧ Election.isActive e = true)
    as Hmem.
  { intros id e. by rewrite Hperm, Election_find_active_spec. }
  split_and!.
  - exact Hmem.
  - rewrite Hperm. unfold Election_find_active.
    apply NoDup_fst_filter. apply NoDup_fst_map_to_list.
  - intros i j a b Ha Hb Hij.
    apply (sorted_lookup by_startDate_desc _ Hsorted i j a b); done.
  - intros k. apply sort_by_filter. intros x y Hx%Z.eqb_eq Hy%Z.eqb_eq.
    apply bool_decide_eq_true. unfold by_startDate_desc. lia.
  - intros id e [_ Hon]%Hmem.
    destruct (card_actions_enabled now e Hon) as (H1 & H2 & H3 & H4 & H5).
    split_and!; try done.
    + unfold getElectionStatus. rewrite Hon. simpl.
      by repeat case_match.
    + intros Hnil. destruct (Z.lt_ge_cases now (Election.startDate e)) as [Hlt|Hge].
      * apply H4 in Hlt. rewrite Hnil in Hlt. by apply elem_of_nil in Hlt.
      * apply H3 in Hge. rewrite Hnil in Hge.
        by apply elem_of_nil in Hge.
Qed.

(** ** The voting page *)

Lemma castVote_status req st :
  status (fst (castVote req st)) = 201
  ∨ status (fst (castVote req st)) = 400
  ∨ status (fst (castVote req st)) = 404
  ∨ status (fst (castVote req st)) = 500.
Proof.
  unfold castVote, Vote_save.
  repeat case_match; simpl; auto.
  match goal with
  | H : window_check _ _ = Some _ |- _ =>
    apply window_check_400 in H; rewrite H
  end. auto.
Qed.

Lemma castVote_2xx req st :
  (200 <=? status (fst (castVote req st)))
  && (status (fst (castVote req st)) <? 300) = true
  ↔ status (fst (castVote req st)) = 201.
Proof.
  destruct (castVote_status req st) as [H|[H|[H|H]]]; rewrite H; done.
Qed.

Lemma castVote_error_message req st :
  status (fst (castVote req st)) ≠ 201 →
  match body (fst (castVote req st)) with
  | Message m => if String.eqb m "" then "Failed to cast vote" else m
  | _ => "Failed to cast vote"
  end ≠ "".
Proof.
  unfold castVote, Vote_save, window_check.
  repeat case_match; simpl in *; simplify_eq; try done;
    intros _; by apply String.eqb_neq.
Qed.

(** X13. Submitting on the voting page, whichever store calls of the
    server fail.  Without a selected candidate no request is sent, the
    store stays and the error is 'Please select a candidate'.  With one,
    the page navigates (to the results of that election) exactly when the
    vote request is answered 201; the log has then gained one vote, of this
    voter for the selected candidate.  Whenever the page does not navigate
    a non-empty error is shown, and the store is unchanged unless the
    counter update was the call that failed: then the server has answered
    500, the error is 'Server error' and the vote is in the log all the
    same.  A voter who has already voted in an open election, with a
    candidate of it selected and the three reads succeeding, is shown 'You
    have already voted in this election'.  After a request was sent
    [submitting] is false. *)
Theorem handleSubmitVote_outcome (fails : VotePc → bool) (u eid : ObjectId)
  (now0 stamp0 : Z) (p : VotePage.t) (st : Store) :
  let '(p', nav, st') := handleSubmitVote fails u eid now0 stamp0 p st in
  (VotePage.selectedCandidate p = None →
   nav = None ∧ st' = st
   ∧ VotePage.error p' = "Please select a candidate")
  ∧ (∀ cid, VotePage.selectedCandidate p = Some cid →
       (is_Some nav
        ↔ status
            (fst (castVote_with fails
                    (mkVoteReq u eid (Some cid) now0 stamp0) st))
          = 201)
       ∧ VotePage.submitting p' = false
       ∧ (is_Some nav →
          nav = Some eid ∧ VotePage.error p' = ""
          ∧ votes st' = votes st ++ [Vote.mk u cid eid stamp0]
          ∧ ¬ has_voted st u eid)
       ∧ (nav = None →
          VotePage.error p' ≠ ""
          ∧ (st' = st
             ∨ VotePage.error p' = "Server error"
               ∧ st' = set_votes st (votes st ++ [Vote.mk u cid eid stamp0])
               ∧ ∃ e c,
                   fails (AtIncrement cid e c (Vote.mk u cid eid stamp0))
                   = true))
       ∧ (nav = None → (∀ pc, fails pc = false) → st' = st))
  ∧ (∀ cid e c, VotePage.selectedCandidate p = Some cid →
       elections st !! eid = Some e → window_check now0 e = None →
       Candidate_findOne st cid eid = Some c →
       has_voted st u eid →
       fails (AtFindElection cid) = false →
       fails (AtFindCandidate cid e) = false →
       fails (AtFindVote cid e c) = false →
       nav = None ∧ st' = st
       ∧ VotePage.error p' = "You have already voted in this election")
  ∧ (∀ cid e c, VotePage.selectedCandidate p = Some cid →
       elections st !! eid = Some e → window_check now0 e = None →
       Candidate_findOne st cid eid = Some c →
       ¬ has_voted st u eid →
       fails (AtFindElection cid) = false →
       fails (AtFindCandidate cid e) = false →
       fails (AtFindVote cid e c) = false →
       fails (AtSave cid e c) = false →
       fails (AtIncrement cid e c (Vote.mk u cid eid stamp0)) = true →
       nav = None
       ∧ VotePage.error p' = "Server error"
       ∧ votes st' = votes st ++ [Vote.mk u cid eid stamp0]
       ∧ candidates st' = candidates st).
Proof.
  unfold handleSubmitVote.
  destruct (VotePage.selectedCandidate p) as [cid|] eqn:Hsel;
    [|split_and!; done].
  set (req := mkVoteReq u eid (Some cid) now0 stamp0).
  assert (∀ e c, elections st !! eid = Some e → window_check now0 e = None →
            Candidate_findOne st cid eid = Some c →
            fails (AtFindElection cid) = false →
            fails (AtFindCandidate cid e) = false →
            fails (AtFindVote cid e c) = false →
            (has_voted st u eid →
             castVote_with fails req st = (already_voted, st))
            ∧ (¬ has_voted st u eid →
               fails (AtSave cid e c) = false →
               fails (AtIncrement cid e c (Vote.mk u cid eid stamp0)) = true →
               castVote_with fails req st
               = (json 500 (Message "Server error"),
                  set_votes st (votes st ++ [Vote.mk u cid eid stamp0]))))
    as Hpath.
  { intros e c He Hw Hc F1 F2 F3. unfold castVote_with, vote_enter.
    cbn [candidateId req vote_run_with]. unfold vote_step_with.
    cbn [awaiting andb]. rewrite F1. cbn [vote_step].
    unfold Election_findById. cbn [electionId now user req].
    rewrite He, Hw. cbn [awaiting andb]. rewrite F2. cbn [vote_step].
    cbn [electionId now user req]. rewrite Hc. cbn [awaiting andb].
    rewrite F3. cbn [vote_step electionId now user req]. split.
    - intros [v Hv]%Vote_findOne_Some. by rewrite Hv.
    - intros Hv%Vote_findOne_None F4 F5. rewrite Hv. cbn [awaiting andb].
      rewrite F4. cbn [vote_step]. unfold Vote_save.
      apply find_none_existsb in Hv. unfold Vote_findOne in Hv.
      unfold req.
      cbn [new_vote Vote.voter Vote.election user electionId stamp].
      rewrite Hv. cbn [awaiting andb]. unfold new_vote.
      cbn [user electionId stamp]. by rewrite F5. }
  destruct (castVote_with_cases fails req st)
    as [Hcase | [Hcase | (cid' & el & c & Hcid & Hok & _ & Hf & Hcase)]].
  - pose proof (castVote_2xx req st) as H2xx.
    pose proof (castVote_error_message req st) as Hmsg.
    fold req in Hpath |- *. rewrite Hcase in Hpath |- *.
    destruct (castVote req st) as [r st1] eqn:Hrun. simpl in H2xx, Hmsg.
    destruct ((200 <=? status r) && (status r <? 300)) eqn:H2.
    + assert (status r = 201) as H201 by (by apply H2xx).
      destruct (castVote_success_inv _ _ _ _ Hrun H201)
        as (cid' & e & c & Hcid & He & Hw & Hc & Hnot & _ & ->).
      simpl in Hcid. injection Hcid as <-.
      apply Vote_findOne_None in Hnot.
      split_and!; try done.
      * intros cid' [= <-]. fold req. rewrite Hcase. simpl.
        split_and!; try done.
      * intros cid' e' c' [= <-] He' Hw' Hc' _ F1 F2 F3 F4 F5.
        destruct (Hpath e' c' He' Hw' Hc' F1 F2 F3) as [_ Hlost].
        specialize (Hlost Hnot F4 F5). injection Hlost as -> _. done.
    + assert (status r ≠ 201) as Hno.
      { intros H201. apply H2xx in H201. done. }
      pose proof (castVote_reject_unchanged _ _ _ _ Hrun Hno) as ->.
      split_and!; try done.
      * intros cid' [= <-]. fold req. rewrite Hcase. simpl.
        split_and!; try done; try (by intros [? ?]).
        intros _. split; [|by left]. simpl. by apply Hmsg.
      * intros cid' e c [= <-] He Hw Hc Hhas F1 F2 F3.
        destruct (Hpath e c He Hw Hc F1 F2 F3) as [Hdup _].
        specialize (Hdup Hhas). by injection Hdup as ->.
      * intros cid' e c [= <-] He Hw Hc Hnot F1 F2 F3 F4 F5.
        destruct (Hpath e c He Hw Hc F1 F2 F3) as [_ Hlost].
        specialize (Hlost Hnot F4 F5). injection Hlost as -> Hst.
        exfalso. apply (f_equal (λ s, length (votes s))) in Hst.
        simpl in Hst. rewrite length_app in Hst. simpl in Hst. lia.
  - fold req in Hpath |- *. rewrite Hcase in Hpath |- *. simpl.
    split_and!; try done.
    + intros cid' [= <-]. fold req. rewrite Hcase. simpl.
      split_and!; try done; try (by intros [? ?]).
      intros _. split; [done | by left].
    + intros cid' e c [= <-] He Hw Hc Hhas F1 F2 F3.
      destruct (Hpath e c He Hw Hc F1 F2 F3) as [Hdup _].
      by specialize (Hdup Hhas).
    + intros cid' e c [= <-] He Hw Hc Hnot F1 F2 F3 F4 F5.
      destruct (Hpath e c He Hw Hc F1 F2 F3) as [_ Hlost].
      specialize (Hlost Hnot F4 F5). injection Hlost as Hst.
      exfalso. apply (f_equal (λ s, length (votes s))) in Hst.
      simpl in Hst. rewrite length_app in Hst. simpl in Hst. lia.
  - simpl in Hcid. injection Hcid as <-.
    fold req in Hpath |- *. rewrite Hcase in Hpath |- *. simpl.
    split_and!; try done.
    + intros cid' [= <-]. fold req. rewrite Hcase. simpl.
      split_and!; try done; try (by intros [? ?]).
      * intros _. split; [done|]. right. split_and!; try done.
        by exists el, c.
      * intros _ Hall. by rewrite Hall in Hf.
    + intros cid' e c' [= <-] He Hw Hc Hhas F1 F2 F3.
      destruct (Hpath e c' He Hw Hc F1 F2 F3) as [Hdup _].
      by specialize (Hdup Hhas).
    + by intros cid' e c' [= <-] _ _ _ _ _ _ _ _ _.
Qed.

Lemma checkVote_hasVoted u e st k :
  outcome (checkVote u e st) = Some k →
  (VoteCheck.hasVoted k = true ↔ has_voted st u e).
Proof.
  unfold checkVote. rewrite <- (not_false_iff_true (VoteCheck.hasVoted k)).
  destruct (Vote_findOne st u e) as [v|] eqn:Hv; simpl.
  - destruct (populate_candidate st v) as [[? ?]|]; [|done].
    intros [= <-]. simpl. split; [|done]. intros _.
    exists v. by apply Vote_findOne_elem.
  - intros [= <-]. simpl. apply Vote_findOne_None in Hv. tauto.
Qed.

Lemma sort_name_asc_Permutation natural :
  (∀ l, natural l ≡ₚ l) → ∀ l, sort_name_asc natural l ≡ₚ l.
Proof.
  intros Hnat l. unfold sort_name_asc, insertion_order.
  rewrite sort_by_Permutation. by rewrite sort_by_Permutation.
Qed.

(** X14. The voting page, loaded from the store for a signed-in voter whose
    check-vote request was answered: if it shows the ballot, then choosing
    any listed candidate and submitting, before the end date, with no other
    request in between and no store call failing, navigates to the results
    with the vote recorded; and a reload of the page whose check-vote
    request is answered shows 'Vote Already Cast'.  The two loads of the
    page commute. *)
Theorem ballot_vote_accepted (users : gmap N User.t)
  (natural : list (ObjectId * Candidate.t) → list (ObjectId * Candidate.t))
  (u eid cid : ObjectId) (now0 now1 stamp0 : Z) (st : Store)
  (d : ElectionDetails.t) (k : VoteCheck.t)
  (cands : list (ObjectId * Candidate.t)) (c : Candidate.t) :
  (∀ l, natural l ≡ₚ l) →
  outcome (getElectionById users natural eid st) = Some d →
  outcome (checkVote u eid st) = Some k →
  vote_view now0
    (checkVoteStatus (Some k) (loadElectionData (Some d) VotePage_init))
  = BallotForm cands →
  (cid, c) ∈ cands →
  now0 ≤ now1 ≤ Election.endDate (ElectionDetails.election d) →
  let p := handleCandidateSelect cid
             (checkVoteStatus (Some k)
                (loadElectionData (Some d) VotePage_init)) in
  let '(p', nav, st') :=
    handleSubmitVote no_failure u eid now1 stamp0 p st in
  nav = Some eid
  ∧ VotePage.error p' = ""
  ∧ votes st' = votes st ++ [Vote.mk u cid eid stamp0]
  ∧ Candidate.voteCount <$> candidates st' !! cid
    = Some (Candidate.voteCount c + 1)
  ∧ (∀ users' natural' t d' k',
       outcome (getElectionById users' natural' eid st') = Some d' →
       outcome (checkVote u eid st') = Some k' →
       vote_view t
         (checkVoteStatus (Some k') (loadElectionData (Some d') VotePage_init))
       = VoteAlreadyCast)
  ∧ checkVoteStatus (Some k) (loadElectionData (Some d) VotePage_init)
    = loadElectionData (Some d) (checkVoteStatus (Some k) VotePage_init).
Proof.
  intros Hperm Hd Hk Hview Hin Hnow.
  unfold getElectionById, Election_findById in Hd.
  destruct (elections st !! eid) as [e|] eqn:He; [|done].
  simpl in Hd. injection Hd as <-. simpl in Hnow.
  unfold vote_view in Hview. simpl in Hview.
  destruct (VoteCheck.hasVoted k) eqn:Hvoted; [done|].
  destruct (isElectionActive now0 e) eqn:Hact; [|done].
  simpl in Hview. injection Hview as <-.
  rewrite (sort_name_asc_Permutation _ Hperm) in Hin.
  apply Candidate_find_spec in Hin as [Hc Hel].
  assert (¬ has_voted st u eid) as Hnot.
  { intros Hhas. apply (checkVote_hasVoted _ _ _ _ Hk) in Hhas.
    by rewrite Hvoted in Hhas. }
  assert (window_check now1 e = None) as Hw.
  { unfold isElectionActive in Hact.
    apply andb_prop in Hact as [[Hon Hs]%andb_prop Hend].
    unfold window_check. rewrite Hon. simpl.
    assert ((now1 <? Election.startDate e) = false) as -> by lia.
    by assert ((now1 >? Election.endDate e) = false) as -> by lia. }
  set (req := mkVoteReq u eid (Some cid) now1 stamp0).
  assert (castVote req st
          = (vote_cast e c (new_vote req cid),
             Candidate_findByIdAndUpdate_inc
               (set_votes st (votes st ++ [new_vote req cid])) cid)) as Hrun.
  { apply castVote_admit; try done.
    - by apply Candidate_findOne_Some.
    - by apply Vote_findOne_None. }
  simpl. unfold handleSubmitVote. simpl. fold req.
  rewrite castVote_with_no_failure, Hrun. simpl.
  split_and!; try done.
  - rewrite lookup_alter, decide_True by done. by rewrite Hc.
  - intros users' natural' t d' k' Hd' Hk'.
    assert (VoteCheck.hasVoted k' = true) as Hv'.
    { apply (checkVote_hasVoted _ _ _ _ Hk').
      exists (new_vote req cid). split; [|done]. simpl.
      apply elem_of_app. right. by apply list_elem_of_singleton. }
    unfold vote_view. simpl. by rewrite Hv'.
Qed.

(** ** The authentication context *)

Lemma auth_states_snoc {U} (actions : list (Auth.Action U)) a :
  Auth.states (actions ++ [a]) = Auth.authReducer (Auth.states actions) a.
Proof. unfold Auth.states. by rewrite foldl_app. Qed.

Lemma auth_states_consistent {U} (actions : list (Auth.Action U)) :
  Auth.isAuthenticated (Auth.states actions) = true
  ↔ is_Some (Auth.user (Auth.states actions)).
Proof.
  induction actions as [|a actions IH] using rev_ind.
  - simpl. split; [done|]. by intros [? ?].
  - rewrite auth_states_snoc. destruct a; simpl; try done;
      (split; [done|]; by intros [? ?]).
Qed.

(** X15. Whatever actions were dispatched since the provider mounted, it holds a
    user exactly when it says authenticated; so [Home] sends to the login
    page exactly when there is no user, to the admin pages exactly when the
    user is an admin and to the elections exactly when the user is a voter.
    The state is loading only before any action or right after an
    AUTH_START, and any action but AUTH_START gives a state that does not
    depend on the one before. *)
Theorem auth_state_invariant {U} (role : U → Role)
  (actions : list (Auth.Action U)) :
  (Auth.isAuthenticated (Auth.states actions) = true
   ↔ is_Some (Auth.user (Auth.states actions)))
  ∧ (Auth.Home role (Auth.states actions) = Auth.to_login
     ↔ Auth.user (Auth.states actions) = None)
  ∧ (Auth.Home role (Auth.states actions) = Auth.to_admin
     ↔ ∃ u, Auth.user (Auth.states actions) = Some u ∧ role u = role_admin)
  ∧ (Auth.Home role (Auth.states actions) = Auth.to_elections
     ↔ ∃ u, Auth.user (Auth.states actions) = Some u ∧ role u = role_voter)
  ∧ (Auth.isLoading (Auth.states actions) = true
     ↔ actions = [] ∨ last actions = Some Auth.AUTH_START)
  ∧ (∀ (a : Auth.Action U) (s s' : Auth.State U), a ≠ Auth.AUTH_START →
       Auth.authReducer s a = Auth.authReducer s' a).
Proof.
  pose proof (auth_states_consistent actions) as Hc.
  split; [exact Hc|].
  assert (∀ s : Auth.State U,
            (Auth.isAuthenticated s = true ↔ is_Some (Auth.user s)) →
            (Auth.Home role s = Auth.to_login ↔ Auth.user s = None)
            ∧ (Auth.Home role s = Auth.to_admin
               ↔ ∃ u, Auth.user s = Some u ∧ role u = role_admin)
            ∧ (Auth.Home role s = Auth.to_elections
               ↔ ∃ u, Auth.user s = Some u ∧ role u = role_voter)) as Hhome.
  { intros [[u|] [|] l] Hs; unfold Auth.Home; simpl in *.
    - destruct (role u) eqn:Hr; simpl.
      + split_and!; split; try done.
        * by intros _; exists u.
        * intros (u' & [= <-] & Hu). by rewrite Hr in Hu.
      + split_and!; split; try done.
        * intros (u' & [= <-] & Hu). by rewrite Hr in Hu.
        * by intros _; exists u.
    - exfalso. by assert (false = true) by (apply Hs; eauto).
    - exfalso. by destruct (proj1 Hs eq_refl).
    - split_and!; split; try done; by intros (u' & [=] & _). }
  destruct (Hhome _ Hc) as (H1 & H2 & H3).
  split_and!; try done.
  - destruct actions as [|a actions _] using rev_ind.
    + simpl. split; [by left|done].
    + rewrite auth_states_snoc, last_snoc.
      destruct a; simpl; split; try done; try (by right);
        intros [Habs|[=]]; by destruct actions.
  - intros a s s' Ha. by destruct a.
Qed.

(** X16. The session functions of the provider, from any state: [login] and
    [register] end authenticated with the user the service returned, or
    signed out when the call threw, never loading; [logout] ends signed
    out; [checkAuth] ends authenticated exactly when a token is stored, a
    user is stored and the server confirmed the token, then with the stored
    user, and it clears the stored session whenever a storage read threw or
    the server did not confirm. *)
Theorem auth_session_outcome {U} (actions : list (Auth.Action U))
  (result : option U) (hasToken : option bool) (stored : option (option U))
  (verified : bool) :
  Auth.states (actions ++ Auth.login result)
  = Auth.mk result (bool_decide (is_Some result)) false
  ∧ Auth.states (actions ++ [Auth.LOGOUT]) = Auth.mk None false false
  ∧ Auth.isLoading
      (Auth.states (actions ++ [snd (Auth.checkAuth hasToken stored verified)]))
    = false
  ∧ (∀ u, Auth.user
            (Auth.states
               (actions ++ [snd (Auth.checkAuth hasToken stored verified)]))
          = Some u
          ↔ hasToken = Some true ∧ stored = Some (Some u) ∧ verified = true)
  ∧ (fst (Auth.checkAuth hasToken stored verified) = true
     ↔ hasToken = None
       ∨ hasToken = Some true
         ∧ (stored = None ∨ is_Some (default None stored) ∧ verified = false)).
Proof.
  split_and!.
  - unfold Auth.login, Auth.states. rewrite foldl_app. by destruct result.
  - by rewrite auth_states_snoc.
  - rewrite auth_states_snoc.
    by destruct hasToken as [[|]|], stored as [[u|]|], verified.
  - intros u. rewrite auth_states_snoc.
    destruct hasToken as [[|]|], stored as [[u'|]|], verified; simpl;
      split; try done; try (by intros (? & ? & ?)).
    + by intros [= ->].
    + by intros (_ & [= ->] & _).
  - destruct hasToken as [[|]|], stored as [[u'|]|], verified; simpl;
      split; try done; try (by intros [?|(? & ?)]);
      try (by left); try (by right; split; [done|left]);
      try (by right; split; [done|right; split; [eexists|done]]);
      intros [?|(_ & [?|([? ?] & ?)])]; done.
Qed.

(** ** The voting window once a vote is in *)

Lemma has_voted_count st u id :
  has_voted st u id → (0 < Vote_countDocuments_election st id)%nat.
Proof.
  intros (v & Hin & _ & Hel).
  destruct (Vote_countDocuments_election st id) eqn:Hn; [|lia].
  by destruct (proj1 (countDocuments_election_0 st id) Hn v Hin).
Qed.

Lemma apply_op_frozen mg op st id e u :
  elections st !! id = Some e → has_voted st u id →
  ∃ e', elections (apply_op mg op st) !! id = Some e' ∧ same_window e e'.
Proof.
  intros He Hv. pose proof (has_voted_count _ _ _ Hv) as Hpos.
  destruct op as [req|newId uid body|id' body|id'|newId eid now body|id' body|id'];
    cbn [apply_op].
  - exists e. split; [|done].
    destruct (castVote_store req st)
      as [-> | (cid & e0 & c & _ & _ & _ & _ & _ & _ & ->)]; done.
  - exists e. split; [|done].
    destruct (createElection_store (valid_new_election mg) newId uid body st)
      as [-> | (Hfree & _ & ->)]; [done|]. simpl.
    rewrite lookup_insert_ne; [done|]. intros ->. by rewrite He in Hfree.
  - destruct (updateElection_store (valid_election_update mg) id' body st)
      as [-> | (e0 & He0 & Hdates & ->)]; [by exists e|]. simpl.
    destruct (decide (id' = id)) as [->|Hne].
    + rewrite lookup_insert, decide_True by done.
      rewrite He in He0. injection He0 as <-.
      destruct (Hdates Hpos) as [Hs Hd].
      eexists. split; [done|]. unfold same_window, assign_election. simpl.
      by rewrite Hs, Hd.
    + rewrite lookup_insert_ne by done. by exists e.
  - exists e. split; [|done].
    destruct (deleteElection_store id' st) as [-> | (_ & Hn & ->)]; [done|].
    simpl. rewrite lookup_delete_ne; [done|]. intros ->. lia.
  - exists e. split; [|done].
    destruct (addCandidate_store (valid_candidate mg) newId eid now body st)
      as [-> | (_ & _ & _ & ->)]; done.
  - exists e. split; [|done].
    destruct (updateCandidate_store (valid_candidate mg) id' body st)
      as [-> | (old & _ & _ & ->)]; done.
  - exists e. split; [|done].
    destruct (deleteCandidate_store id' st) as [-> | (_ & _ & ->)]; done.
Qed.

Lemma apply_ops_frozen mg ops st id e u :
  elections st !! id = Some e → has_voted st u id →
  ∃ e', elections (apply_ops mg ops st) !! id = Some e' ∧ same_window e e'.
Proof.
  revert st e. induction ops as [|op ops IH]; intros st e He Hv.
  - by exists e.
  - cbn [apply_ops foldl].
    destruct (apply_op_frozen mg op st id e u He Hv) as (e1 & He1 & H1).
    destruct (IH (apply_op mg op st) e1 He1
                (apply_op_has_voted mg op st u id Hv)) as (e2 & He2 & H2).
    exists e2. split; [done|].
    destruct H1 as [? ?], H2 as [? ?]. split; congruence.
Qed.

(** ** Resubmission after a success *)

Lemma apply_ops_unique mg ops st :
  votes_unique st → votes_unique (apply_ops mg ops st).
Proof.
  revert st. induction ops as [|op ops IH]; intros st Hu; [done|].
  cbn [apply_ops foldl]. by apply IH, apply_op_unique.
Qed.

(** C5, refuted as stated: voter 7's vote for Alice is answered 201; an
    administrator then disables the election, which is answered 200; the
    identical request (same voter, election, candidate and instant) is then
    answered 400 'Election is not active' and not 'You have already voted
    in this election', although the voter's vote is in the log: the window
    is checked before the duplicate vote. *)
Lemma resubmission_after_disable :
  status (fst (castVote (ballot 7 10) store0)) = 201
  ∧ snd (castVote (ballot 7 10) store0) = store_voted
  ∧ status (fst (updateElection validate_endDate 1 disable store_voted)) = 200
  ∧ snd (updateElection validate_endDate 1 disable store_voted)
    = store_disabled
  ∧ has_voted store_disabled 7 1
  ∧ castVote (ballot 7 10) store_disabled
    = (json 400 (Message "Election is not active"), store_disabled)
  ∧ fst (castVote (ballot 7 10) store_disabled) ≠ already_voted.
Proof.
  split_and!; try reflexivity; [|discriminate].
  exists (new_vote (ballot 7 10) 10). split; [|done].
  apply list_elem_of_here.
Qed.

(** C5, amended.  Once the handler has answered 201 to a request, the same
    request run again is never answered 201 and never writes: the log
    keeps exactly one vote of the voter in the election.  In the state the
    success leaves and in every state the system reaches from there
    through vote requests alone (interleaved, with or without rejected
    store calls) it is answered 400 'You have already voted in this
    election', and no request of the voter for the election, whatever its
    candidate, stands past its insertion or has been answered 201.  After
    any sequence of vote requests and administrative requests, each run in
    one piece, the election is still in the store and the answer is 400
    'Election is not active' if the election has been disabled, 404
    'Candidate not found in this election' if it is enabled and the
    candidate is no longer one of its candidates (a PUT can move a
    candidate to another election), and that 400 'You have already voted
    in this election' in every other case.  More generally, in every
    state in which the voter has a vote in the election, a request of the
    voter for the election is never answered 201 and writes nothing, is
    answered 'You have already voted in this election' whenever the checks
    that come first pass (the election exists and is 'active' at now, the
    candidate belongs to it), and at [vote.save()] gets the duplicate-key
    error 11000, which the handler answers with the same 400 response. *)
Theorem resubmission_already_voted (req : VoteReq) :
  (∀ faulty st st1 r sys,
     castVote req st = (r, st1) →
     status r = 201 →
     votes_unique st →
     reachable faulty st1 sys →
     castVote req st1 = (already_voted, st1)
     ∧ castVote req (store sys) = (already_voted, store sys)
     ∧ votes_of (store sys) (user req) (electionId req) = 1%nat
     ∧ (∀ t, t ∈ threads sys →
          user (t_req t) = user req →
          electionId (t_req t) = electionId req →
          (∀ cid e c v, t_pc t ≠ AtIncrement cid e c v)
          ∧ (∀ r', t_pc t = Responded r' → status r' ≠ 201)))
  ∧ (∀ st2,
       has_voted st2 (user req) (electionId req) →
       status (fst (castVote req st2)) ≠ 201
       ∧ snd (castVote req st2) = st2
       ∧ (∀ cid e c,
            candidateId req = Some cid →
            elections st2 !! electionId req = Some e →
            getElectionStatus (now req) e = active →
            candidates st2 !! cid = Some c →
            Candidate.election c = electionId req →
            castVote req st2 = (already_voted, st2))
       ∧ (∀ cid e c,
            Vote_save st2 (new_vote req cid) = inl E11000
            ∧ vote_step req (AtSave cid e c) st2
              = (Responded already_voted, st2)))
  ∧ (∀ mg ops st st1 r,
       castVote req st = (r, st1) →
       status r = 201 →
       has_voted (apply_ops mg ops st1) (user req) (electionId req)
       ∧ (votes_unique st →
          votes_of (apply_ops mg ops st1) (user req) (electionId req) = 1%nat)
       ∧ status (fst (castVote req (apply_ops mg ops st1))) ≠ 201
       ∧ snd (castVote req (apply_ops mg ops st1)) = apply_ops mg ops st1
       ∧ ∃ cid e',
           candidateId req = Some cid
           ∧ elections (apply_ops mg ops st1) !! electionId req = Some e'
           ∧ (Election.isActive e' = false →
              fst (castVote req (apply_ops mg ops st1))
              = json 400 (Message "Election is not active"))
           ∧ (Election.isActive e' = true →
              Candidate_findOne (apply_ops mg ops st1) cid (electionId req)
              = None →
              fst (castVote req (apply_ops mg ops st1))
              = json 404 (Message "Candidate not found in this election"))
           ∧ (Election.isActive e' = true →
              is_Some
                (Candidate_findOne (apply_ops mg ops st1) cid
                   (electionId req)) →
              fst (castVote req (apply_ops mg ops st1)) = already_voted)).
Proof.
  split; [|split]; cycle 1.
  { intros st2 Hv.
    destruct (castVote_voted req st2 Hv) as [Hno Hsame].
    split_and!; try done.
    - intros cid e c Hcid He Hs Hc Hel.
      eapply (castVote_duplicate req cid st2 e c); try done.
      + by rewrite window_check_status, Hs.
      + by apply Candidate_findOne_Some.
    - intros cid e c.
      assert (Vote_save st2 (new_vote req cid) = inl E11000) as Hs
        by (by apply Vote_save_duplicate).
      split; [done|]. cbn [vote_step]. by rewrite Hs. }
  { intros mg ops st st1 r Hrun Hok.
    destruct (castVote_success_post _ _ _ _ Hrun Hok)
      as (cid & e & c & Hcid & He & Hw & _ & Hv).
    pose proof (apply_ops_has_voted mg ops st1 _ _ Hv) as Hv2.
    destruct (castVote_voted req _ Hv2) as [Hno Hsame].
    destruct (apply_ops_frozen mg ops st1 _ e _ He Hv)
      as (e' & He' & Hs & Hd).
    split_and!; try done.
    - intros Hu.
      assert (votes_unique (apply_ops mg ops st1)) as Hu2
        by (by eapply apply_ops_unique, castVote_unique).
      specialize (Hu2 (user req) (electionId req)).
      apply has_voted_votes_of in Hv2. lia.
    - exists cid, e'. split; [done|]. split; [done|].
      assert (Election.isActive e' = true → window_check (now req) e' = None)
        as Hw'.
      { intros Hon. revert Hw. unfold window_check. rewrite Hon, Hs, Hd.
        by destruct (Election.isActive e). }
      unfold castVote, Election_findById. rewrite Hcid, He'.
      split_and!.
      + intros Hoff. unfold window_check. by rewrite Hoff.
      + intros Hon Hnone. by rewrite (Hw' Hon), Hnone.
      + intros Hon [c' Hc']. rewrite (Hw' Hon), Hc'.
        apply Vote_findOne_Some in Hv2 as [v ->]. done. }
  intros faulty st st1 r sys Hrun Hok Hu Hreach.
  destruct (castVote_success_post _ _ _ _ Hrun Hok)
    as (cid & e & c & Hcid & He & Hw & Hf & Hv).
  pose proof (run_extends _ _ _ Hreach) as Hext. simpl in Hext.
  assert (votes_unique (store sys)) as Hu'.
  { apply (run_unique _ _ _ Hreach). simpl. by eapply castVote_unique. }
  assert (votes_of (store sys) (user req) (electionId req) = 1%nat) as Hone.
  { specialize (Hu' (user req) (electionId req)).
    apply (has_voted_extends _ _ _ _ Hext), has_voted_votes_of in Hv. lia. }
  split_and!.
  - by eapply (castVote_duplicate req cid st1 e c).
  - pose proof Hext as (Hel & Hcs & _).
    apply Candidate_findOne_Some in Hf as [Hc Hce].
    destruct (Hcs _ _ Hc) as (c' & Hc' & Hce').
    eapply (castVote_duplicate req cid _ e c'); try done.
    + unfold Election_findById in *. by rewrite Hel.
    + apply Candidate_findOne_Some. split; [done | congruence].
    + by eapply has_voted_extends.
  - done.
  - intros t Ht Hut Het.
    assert (successes (threads sys) (user req) (electionId req) = 0%nat) as H0.
    { pose proof (run_successes faulty _ _ (user req) (electionId req)
                    (votes_of st1 (user req) (electionId req)) Hreach) as Hs.
      simpl in Hs. apply has_voted_votes_of in Hv.
      specialize (Hs ltac:(unfold successes; simpl; lia)). lia. }
    pose proof (filter_length_0 _ _ t H0 Ht) as Hnc.
    unfold committed in Hnc. rewrite Hut, Het, !N.eqb_refl in Hnc.
    simpl in Hnc. split.
    + intros cid' e' c' v' Hpc. by rewrite Hpc in Hnc.
    + intros r' Hpc. rewrite Hpc in Hnc. by apply Z.eqb_neq in Hnc.
Qed.

Lemma resubmission_already_voted_witness :
  castVote (ballot 7 10) store0
  = (fst (castVote (ballot 7 10) store0), store_voted)
  ∧ status (fst (castVote (ballot 7 10) store0)) = 201
  ∧ votes_unique store0
  ∧ reachable true store_voted sys_next
  ∧ castVote (ballot 7 10) store_voted = (already_voted, store_voted)
  ∧ castVote (ballot 7 10) (store sys_next) = (already_voted, store sys_next)
  ∧ votes_of (store sys_next) 7 1 = 1%nat
  ∧ (∀ mg, votes_of (apply_ops mg session_after store_voted) 7 1 = 1%nat)
  ∧ fst (castVote (ballot 7 10) (apply_ops mongoose session_after store_voted))
    = json 400 (Message "Election is not active").
Proof.
  split; [reflexivity|]. split; [reflexivity|].
  split; [apply store0_unique|]. split; [apply sys_next_reachable|].
  destruct (proj1 (resubmission_already_voted (ballot 7 10))
              true store0 store_voted
              (fst (castVote (ballot 7 10) store0)) sys_next)
    as (Hnext & Hagain & Hone & _);
    [reflexivity | reflexivity | apply store0_unique
    | apply sys_next_reachable | ].
  split; [exact Hnext|]. split; [exact Hagain|]. split; [exact Hone|].
  split.
  - intros mg.
    destruct (proj2 (proj2 (resubmission_already_voted (ballot 7 10)))
                mg session_after store0 store_voted
                (fst (castVote (ballot 7 10) store0)) eq_refl eq_refl)
      as (_ & Hone' & _).
    apply Hone', store0_unique.
  - destruct (proj2 (proj2 (resubmission_already_voted (ballot 7 10)))
                mongoose session_after store0 store_voted
                (fst (castVote (ballot 7 10) store0)) eq_refl eq_refl)
      as (_ & _ & _ & _ & cid & e' & _ & He' & Hoff & _).
    apply Hoff. vm_compute in He'. by injection He' as <-.
Defined.

(** X17. Once an election holds a vote, no sequence of vote requests and
    administrative requests, each run in one piece, removes it or moves its
    start date or its end date: the election is still in the store with
    the same window, still holds the vote, and a request to delete it is
    still answered 400 'Cannot delete election with existing votes'.  (Its
    title, description, isActive and createdBy may change.) *)
Theorem voting_window_frozen (mg : Validation) (ops : list Op) (st : Store)
  (id u : ObjectId) (e : Election.t) :
  elections st !! id = Some e →
  has_voted st u id →
  ∃ e', elections (apply_ops mg ops st) !! id = Some e'
        ∧ Election.startDate e' = Election.startDate e
        ∧ Election.endDate e' = Election.endDate e
        ∧ has_voted (apply_ops mg ops st) u id
        ∧ deleteElection id (apply_ops mg ops st)
          = (json 400 (Message "Cannot delete election with existing votes"),
             apply_ops mg ops st).
Proof.
  intros He Hv.
  destruct (apply_ops_frozen mg ops st id e u He Hv) as (e' & He' & Hs & Hd).
  pose proof (apply_ops_has_voted mg ops st u id Hv) as Hv'.
  exists e'. split_and!; try done.
  unfold deleteElection, Election_findById. rewrite He'.
  apply has_voted_count, Nat.ltb_lt in Hv'. by rewrite Hv'.
Qed.

(** ** The election page and the results *)

#[local] Instance by_name_asc_total : Total by_name_asc.
Proof. intros a b. apply String.leb_total. Qed.

(** X18. The details of an election and its results agree: one is answered
    404 'Election not found' exactly when the other is, namely when the
    store has no such election; otherwise both are answered 200 with the
    same title, description, dates and isActive of the election, where the
    results carry the id of its creator and the details that id with the
    creator's name, or null when no user has the id; and with the same
    candidates, exactly those whose election it is, each once, the details
    by name ascending and the results by voteCount descending. *)
Theorem details_match_results (users : gmap N User.t)
  (naturalN naturalV
     : list (ObjectId * Candidate.t) → list (ObjectId * Candidate.t))
  (u eid : ObjectId) (st : Store) :
  (∀ l, naturalN l ≡ₚ l) → (∀ l, naturalV l ≡ₚ l) →
  (elections st !! eid = None →
   getElectionById users naturalN eid st
   = Refused (json 404 (Message "Election not found"))
   ∧ getResults naturalV u eid st = json 404 (Message "Election not found"))
  ∧ (∀ e, elections st !! eid = Some e →
       ∃ d r, getElectionById users naturalN eid st = Payload 200 d
              ∧ getResults naturalV u eid st = json 200 (ResultsJson r)
              ∧ ElectionResults.election r = e
              ∧ Election.title (ElectionDetails.election d) = Election.title e
              ∧ Election.description (ElectionDetails.election d)
                = Election.description e
              ∧ Election.startDate (ElectionDetails.election d)
                = Election.startDate e
              ∧ Election.endDate (ElectionDetails.election d)
                = Election.endDate e
              ∧ Election.isActive (ElectionDetails.election d)
                = Election.isActive e
              ∧ ElectionDetails.createdBy d
                = (λ x, (Election.createdBy e, User.name x))
                  <$> users !! Election.createdBy e
              ∧ ElectionDetails.candidates d ≡ₚ ElectionResults.candidates r
              ∧ NoDup (ElectionDetails.candidates d).*1
              ∧ (∀ k c, (k, c) ∈ ElectionDetails.candidates d
                        ↔ candidates st !! k = Some c
                          ∧ Candidate.election c = eid)
              ∧ Sorted by_name_asc (ElectionDetails.candidates d)
              ∧ StronglySorted by_voteCount_desc (ElectionResults.candidates r)).
Proof.
  intros HN HV. split.
  - intros He. unfold getElectionById, getResults, Election_findById.
    by rewrite He.
  - intros e He. eexists _, _. split_and!.
    + unfold getElectionById, Election_findById. by rewrite He.
    + by apply getResults_ok.
    + done.
    + done.
    + done.
    + done.
    + done.
    + done.
    + simpl. unfold populate_createdBy.
      by destruct (users !! Election.createdBy e).
    + simpl. by rewrite (sort_name_asc_Permutation _ HN),
        (sort_voteCount_desc_Permutation _ HV).
    + simpl. rewrite (sort_name_asc_Permutation _ HN). unfold Candidate_find.
      apply NoDup_fst_filter, NoDup_fst_map_to_list.
    + intros k c. simpl. rewrite (sort_name_asc_Permutation _ HN).
      apply Candidate_find_spec.
    + simpl. apply (sort_by_Sorted by_name_asc).
    + simpl. apply sort_voteCount_desc_sorted.
Qed.

(** ** The worked session *)

Ltac store0_candidate H :=
  apply elem_of_map_to_list in H; vm_compute in H;
  repeat (apply elem_of_cons in H as [[= -> ->] | H]; [|]);
  [..|by apply elem_of_nil in H].

Lemma store0_names_unique : names_unique store0.
Proof.
  intros i j c d Hi Hj Hn He.
  store0_candidate Hi; store0_candidate Hj; done.
Qed.

Lemma store0_refs_ok : refs_ok store0.
Proof.
  split.
  - by intros v Hv%elem_of_nil.
  - intros k c Hc. store0_candidate Hc; by eexists.
Qed.

Lemma names_stay_unique_witness :
  names_unique store0
  ∧ names_unique (apply_ops mongoose session store0)
  ∧ addCandidate (valid_candidate mongoose) 13 1 40 alice_again store0
    = (Refused (json 400 (Message "Candidate already exists in this election")),
       store0).
Proof.
  split; [apply store0_names_unique|].
  destruct (names_stay_unique mongoose session store0 store0_names_unique)
    as [Hu Hdup].
  split; [exact Hu|].
  apply (Hdup 13%N 1%N 40 alice_again 10%N alice); try reflexivity.
  by eexists.
Defined.

Lemma counts_add_up_witness :
  refs_ok store0
  ∧ tally_consistent store0
  ∧ Forall keeps_tally session
  ∧ (∀ l : list (ObjectId * Candidate.t), in_id_order l ≡ₚ l)
  ∧ ∃ r, getResults in_id_order 7 1 (apply_ops mongoose session store0)
         = json 200 (ResultsJson r)
         ∧ refs_ok (apply_ops mongoose session store0)
         ∧ (∀ cid c, (cid, c) ∈ ElectionResults.candidates r →
              Candidate.voteCount c
              = Z.of_nat (tally (apply_ops mongoose session store0) 1 cid))
         ∧ counts_total (ElectionResults.candidates r)
           = Z.of_nat (ElectionResults.totalVotes r).
Proof.
  assert (Forall keeps_tally session) as Hsafe by (repeat constructor).
  split; [apply store0_refs_ok|]. split; [apply store0_consistent|].
  split; [exact Hsafe|]. split; [apply in_id_order_Permutation|].
  eexists. split.
  - apply (getResults_ok in_id_order 7 1 _ (assign_election disable election1)).
    reflexivity.
  - apply (counts_add_up mongoose session store0 in_id_order 7 1 _
             store0_refs_ok store0_consistent Hsafe in_id_order_Permutation).
    apply (getResults_ok in_id_order 7 1 _ (assign_election disable election1)).
    reflexivity.
Defined.

Lemma vote_then_checkVote_witness :
  castVote (ballot 7 10) store0
  = (fst (castVote (ballot 7 10) store0), store_voted)
  ∧ status (fst (castVote (ballot 7 10) store0)) = 201
  ∧ ∃ cid c,
      candidateId (ballot 7 10) = Some cid
      ∧ candidates store0 !! cid = Some c
      ∧ checkVote 7 1 store0 = Payload 200 (VoteCheck.mk false None)
      ∧ checkVote 7 1 store_voted
        = Payload 200 (VoteCheck.mk true (Some (Candidate.name c, 50)))
      ∧ (∀ mg ops code c',
           checkVote 7 1 (apply_ops mg ops store_voted) = Payload code c' →
           VoteCheck.hasVoted c' = true).
Proof.
  split; [reflexivity|]. split; [reflexivity|].
  apply (vote_then_checkVote (ballot 7 10) store0 store_voted
           (fst (castVote (ballot 7 10) store0))); reflexivity.
Defined.

Lemma addCandidate_then_vote_witness :
  addCandidate (valid_candidate mongoose) 13 1 40 dave store0
  = (Payload 201 dave_doc,
     set_candidates store0 (<[13%N := dave_doc]> (candidates store0)))
  ∧ Candidate.party dave_doc = "Independent"
  ∧ Candidate.voteCount dave_doc = 0
  ∧ (∃ r, getResults in_id_order 7 1
            (set_candidates store0 (<[13%N := dave_doc]> (candidates store0)))
          = json 200 (ResultsJson r)
          ∧ (13%N, dave_doc) ∈ ElectionResults.candidates r
          ∧ ElectionResults.totalVotes r
            = Vote_countDocuments_election store0 1)
  ∧ ∃ st2,
      castVote (ballot 7 13)
        (set_candidates store0 (<[13%N := dave_doc]> (candidates store0)))
      = (vote_cast election1 dave_doc (new_vote (ballot 7 13) 13), st2)
      ∧ status (vote_cast election1 dave_doc (new_vote (ballot 7 13) 13)) = 201
      ∧ Candidate.voteCount <$> candidates st2 !! 13%N = Some 1
      ∧ has_voted st2 7 1.
Proof.
  split; [reflexivity|].
  destruct (addCandidate_then_vote (valid_candidate mongoose) 13 1 40 dave
              store0 _ dave_doc eq_refl)
    as (_ & _ & _ & _ & _ & _ & Hcount & Hparty & _ & Hres & Hvote).
  split; [apply Hparty; by left|]. split; [exact Hcount|]. split.
  - apply (Hres in_id_order 7%N). apply in_id_order_Permutation.
  - apply (Hvote (ballot 7 13) election1); try reflexivity.
    intros (v & Hv & _). by apply elem_of_nil in Hv.
Defined.

Lemma elections_page_offers_witness :
  (∀ l : list (ObjectId * Election.t), in_id_order l ≡ₚ l)
  ∧ ∃ l, getElections users0 in_id_order store_three
         = Payload 200 ((λ d, (d, populate_createdBy users0 (snd d))) <$> l)
         ∧ (∀ id e, (id, e) ∈ l
                    ↔ elections store_three !! id = Some e
                      ∧ Election.isActive e = true)
         ∧ NoDup l.*1
         ∧ (∀ i j a b, l !! i = Some a → l !! j = Some b → (i < j)%nat →
              Election.startDate (snd b) ≤ Election.startDate (snd a))
         ∧ (∀ k,
              List.filter (λ d, Election.startDate (snd d) =? k) l
              = List.filter (λ d, Election.startDate (snd d) =? k)
                  (in_id_order (Election_find_active store_three)))
         ∧ (∀ id e, (id, e) ∈ l →
              getElectionStatus 50 e ≠ inactive
              ∧ card_actions 50 e ≠ []
              ∧ (VoteNow ∈ card_actions 50 e ↔ window_check 50 e = None)
              ∧ (VoteNow ∈ card_actions 50 e ↔ isElectionActive 50 e = true)
              ∧ (ViewResults ∈ card_actions 50 e ↔ Election.startDate e ≤ 50)
              ∧ (NotStarted ∈ card_actions 50 e ↔ 50 < Election.startDate e)).
Proof.
  split; [apply in_id_order_Permutation|].
  apply (elections_page_offers users0 in_id_order store_three 50
           in_id_order_Permutation).
Defined.

Lemma ballot_vote_accepted_witness :
  (∀ l : list (ObjectId * Candidate.t), in_id_order l ≡ₚ l)
  ∧ outcome (getElectionById users0 in_id_order 1 store0) = Some details0
  ∧ outcome (checkVote 7 1 store0) = Some (VoteCheck.mk false None)
  ∧ vote_view 50 page0 = BallotForm (ElectionDetails.candidates details0)
  ∧ (10%N, alice) ∈ ElectionDetails.candidates details0
  ∧ 50 ≤ 60 ≤ Election.endDate (ElectionDetails.election details0)
  ∧ let '(p', nav, st') :=
      handleSubmitVote no_failure 7 1 60 60 (handleCandidateSelect 10 page0)
        store0 in
    nav = Some 1%N
    ∧ VotePage.error p' = ""
    ∧ votes st' = votes store0 ++ [Vote.mk 7 10 1 60]
    ∧ Candidate.voteCount <$> candidates st' !! 10%N
      = Some (Candidate.voteCount alice + 1)
    ∧ (∀ users' natural' t d' k',
         outcome (getElectionById users' natural' 1 st') = Some d' →
         outcome (checkVote 7 1 st') = Some k' →
         vote_view t
           (checkVoteStatus (Some k')
              (loadElectionData (Some d') VotePage_init))
         = VoteAlreadyCast)
    ∧ page0
      = loadElectionData (Some details0)
          (checkVoteStatus (Some (VoteCheck.mk false None)) VotePage_init).
Proof.
  assert ((10%N, alice) ∈ ElectionDetails.candidates details0) as Hin.
  { unfold details0. simpl.
    rewrite (sort_name_asc_Permutation _ in_id_order_Permutation).
    by apply Candidate_find_spec. }
  split; [apply in_id_order_Permutation|]. split; [reflexivity|].
  split; [reflexivity|]. split; [reflexivity|]. split; [exact Hin|].
  split; [done|].
  apply (ballot_vote_accepted users0 in_id_order 7 1 10 50 60 60 store0
           details0 (VoteCheck.mk false None)
           (ElectionDetails.candidates details0) alice
           in_id_order_Permutation eq_refl eq_refl eq_refl Hin).
  done.
Defined.

Lemma voting_window_frozen_witness :
  elections store_voted !! 1%N = Some election1
  ∧ has_voted store_voted 7 1
  ∧ (∃ e', elections (apply_ops mongoose session_after store_voted) !! 1%N
           = Some e'
           ∧ Election.startDate e' = Election.startDate election1
           ∧ Election.endDate e' = Election.endDate election1
           ∧ has_voted (apply_ops mongoose session_after store_voted) 7 1
           ∧ deleteElection 1 (apply_ops mongoose session_after store_voted)
             = (json 400
                  (Message "Cannot delete election with existing votes"),
                apply_ops mongoose session_after store_voted))
  ∧ Election.createdBy
    <$> elections (apply_ops mongoose session_after store_voted) !! 1%N
    = Some 9%N.
Proof.
  assert (has_voted store_voted 7 1) as Hv.
  { apply has_voted_votes_of. vm_compute. lia. }
  split; [reflexivity|]. split; [exact Hv|]. split; [|reflexivity].
  apply (voting_window_frozen mongoose session_after store_voted 1 7 election1
           eq_refl Hv).
Defined.

Lemma details_match_results_witness :
  (∀ l : list (ObjectId * Candidate.t), in_reverse_order l ≡ₚ l)
  ∧ (∀ l : list (ObjectId * Candidate.t), in_id_order l ≡ₚ l)
  ∧ ∃ d r, getElectionById users0 in_reverse_order 1 store_tie = Payload 200 d
           ∧ getResults in_id_order 7 1 store_tie = json 200 (ResultsJson r)
           ∧ ElectionResults.election r = election1
           ∧ Election.title (ElectionDetails.election d) = "Board"
           ∧ ElectionDetails.createdBy d = Some (1%N, "Root")
           ∧ ElectionDetails.candidates d ≡ₚ ElectionResults.candidates r
           ∧ fst <$> ElectionDetails.candidates d = [10%N; 11%N; 12%N]
           ∧ Sorted by_name_asc (ElectionDetails.candidates d)
           ∧ StronglySorted by_voteCount_desc (ElectionResults.candidates r).
Proof.
  split; [apply in_reverse_order_Permutation|].
  split; [apply in_id_order_Permutation|].
  destruct (details_match_results users0 in_reverse_order in_id_order 7 1
              store_tie in_reverse_order_Permutation in_id_order_Permutation)
    as [_ Hboth].
  destruct (Hboth election1 eq_refl)
    as (d & r & Hd & Hr & He & Ht & _ & _ & _ & _ & Hc & Hp & _ & _ & Hn & Hv).
  exists d, r. split; [exact Hd|]. split; [exact Hr|]. split; [exact He|].
  split; [exact Ht|]. split; [rewrite Hc; reflexivity|]. split; [exact Hp|].
  split; [|split; [exact Hn | exact Hv]].
  vm_compute in Hd. injection Hd as <-. reflexivity.
Defined.

Lemma store_voted_vote : new_vote (ballot 7 10) 10 ∈ votes store_voted.
Proof. vm_compute. apply list_elem_of_here. Qed.

Lemma store_voted_has_voted : has_voted store_voted 7 1.
Proof. exists (new_vote (ballot 7 10) 10). split; [apply store_voted_vote|done]. Qed.

Lemma store_voted_unique : votes_unique store_voted.
Proof.
  apply (castVote_unique (ballot 7 10) store0
           (fst (castVote (ballot 7 10) store0)) store_voted);
    [reflexivity | apply store0_unique].
Qed.

Lemma votes_append_only_witness :
  votes store_voted `prefix_of` votes (apply_ops mongoose session_after store_voted)
  ∧ has_voted (apply_ops mongoose session_after store_voted) 7 1
  ∧ votes_unique (apply_ops mongoose session_after store_voted).
Proof.
  destruct (votes_append_only mongoose session_after store_voted)
    as (Hpre & Hhas & Huniq).
  split; [exact Hpre|]. split.
  - apply Hhas, store_voted_has_voted.
  - apply Huniq, store_voted_unique.
Defined.

Lemma checkVote_answers_witness :
  checkVote 8 1 store_voted = Payload 200 (VoteCheck.mk false None)
  ∧ checkVote 7 1 store_voted
    = Payload 200 (VoteCheck.mk true (Some ("Alice", 50)))
  ∧ checkVote 7 1 store_orphan = Refused (json 500 (Message "Server error")).
Proof.
  split_and!.
  - apply (checkVote_answers 8 1 store_voted).
    rewrite has_voted_votes_of. vm_compute. lia.
  - destruct (checkVote_answers 7 1 store_voted) as (_ & Hv & _).
    exact (proj1 (Hv (new_vote (ballot 7 10) 10) eq_refl)
             (inc_voteCount alice) eq_refl).
  - destruct (checkVote_answers 7 1 store_orphan) as (_ & Hv & _).
    exact (proj2 (Hv (new_vote (ballot 7 10) 10) eq_refl) eq_refl).
Defined.



Lemma deleteCandidate_by_log_witness :
  status (fst (deleteCandidate 11 store_voted)) = 200
  ∧ candidates (snd (deleteCandidate 11 store_voted))
    = delete 11%N (candidates store_voted)
  ∧ Candidate.voteCount
    <$> candidates
          (snd (updateCandidate (valid_candidate mongoose) 10 (set_count 0) store_voted))
        !! 10%N
    = Some 0
  ∧ status
      (fst (deleteCandidate 10
              (snd (updateCandidate (valid_candidate mongoose) 10 (set_count 0) store_voted))))
    ≠ 200.
Proof.
  destruct (deleteCandidate_by_log 11 store_voted) as (_ & _ & Hok).
  destruct (Hok eq_refl) as (Hc & _).
  split; [reflexivity|]. split; [exact Hc|]. split; [reflexivity|].
  destruct (deleteCandidate_by_log 10
              (snd (updateCandidate (valid_candidate mongoose) 10 (set_count 0) store_voted)))
    as (Hiff & _).
  intros [_ Hno]%Hiff. by apply (Hno _ store_voted_vote).
Defined.

Lemma updateCandidate_result_witness :
  (∃ st', updateCandidate (valid_candidate mongoose) 10 (set_count 0) store_voted
          = (Payload 200 (assign_candidate (set_count 0) (inc_voteCount alice)),
             st')
          ∧ Candidate.voteCount <$> candidates st' !! 10%N = Some 0
          ∧ ∀ e, tally st' e 10 = tally store_voted e 10)
  ∧ updateCandidate (valid_candidate mongoose) 12 rename_to_alice store0
    = (Refused (json 500 (Message "Server error")), store0).
Proof.
  split.
  - destruct (updateCandidate_result (valid_candidate mongoose) 10 (set_count 0) store_voted)
      as (_ & _ & _ & _ & _ & Hset & _).
    by apply (Hset (inc_voteCount alice) 0).
  - destruct (updateCandidate_result (valid_candidate mongoose) 12 rename_to_alice store0)
      as (_ & _ & _ & _ & _ & _ & Hclash).
    by apply (Hclash carol 10%N alice).
Defined.

Lemma getStats_figures_witness :
  AdminStats.users_total (getStats users0 store0) = 3%nat
  ∧ AdminStats.users_voters (getStats users0 store0) = 2%nat
  ∧ AdminStats.votes
      (getStats users0 (snd (castVote_with no_failure (ballot 7 10) store0)))
    = 1%nat
  ∧ AdminStats.votes
      (getStats users0
         (snd (castVote_with no_failure (ballot 7 11) store_voted)))
    = 1%nat
  ∧ status (fst (castVote_with increment_fails (ballot 7 10) store0)) = 500
  ∧ AdminStats.votes
      (getStats users0
         (snd (castVote_with increment_fails (ballot 7 10) store0)))
    = 1%nat.
Proof.
  destruct (getStats_figures users0 store0) as (Husers & _ & _ & Hvote).
  destruct (getStats_figures users0 store_voted) as (_ & _ & _ & Hagain).
  split; [by rewrite Husers|]. split; [reflexivity|]. split_and!.
  - destruct (Hvote no_failure (ballot 7 10)) as (n & -> & _ & Hn & _).
    by rewrite (Hn eq_refl).
  - destruct (Hagain no_failure (ballot 7 11)) as (n & -> & _ & _ & _ & _ & Hn).
    by rewrite (Hn (λ _, eq_refl)).
  - reflexivity.
  - destruct (Hvote increment_fails (ballot 7 10))
      as (n & -> & _ & _ & _ & Hn & _).
    rewrite (proj2 (Hn eq_refl)); [reflexivity|].
    by exists 10%N, election1, alice.
Defined.

Lemma handleSubmitVote_outcome_witness :
  (let '(p', nav, st') := handleSubmitVote no_failure 7 1 60 60 page0 store0 in
   nav = None ∧ st' = store0
   ∧ VotePage.error p' = "Please select a candidate")
  ∧ (let '(p', nav, st') :=
       handleSubmitVote no_failure 7 1 60 60 (handleCandidateSelect 11 page0)
         store_voted in
     nav = None ∧ st' = store_voted
     ∧ VotePage.error p' = "You have already voted in this election")
  ∧ (let '(p', nav, st') :=
       handleSubmitVote increment_fails 7 1 60 60
         (handleCandidateSelect 10 page0) store0 in
     nav = None
     ∧ VotePage.error p' = "Server error"
     ∧ votes st' = votes store0 ++ [Vote.mk 7 10 1 60]
     ∧ candidates st' = candidates store0).
Proof.
  split_and!.
  - pose proof (handleSubmitVote_outcome no_failure 7 1 60 60 page0 store0)
      as H.
    destruct (handleSubmitVote no_failure 7 1 60 60 page0 store0)
      as [[p' nav] st'].
    destruct H as (Hnone & _). by apply Hnone.
  - pose proof (handleSubmitVote_outcome no_failure 7 1 60 60
                  (handleCandidateSelect 11 page0) store_voted) as H.
    destruct (handleSubmitVote no_failure 7 1 60 60
                (handleCandidateSelect 11 page0) store_voted)
      as [[p' nav] st'].
    destruct H as (_ & _ & Hdup & _).
    apply (Hdup 11%N election1 bob); try reflexivity.
    apply store_voted_has_voted.
  - pose proof (handleSubmitVote_outcome increment_fails 7 1 60 60
                  (handleCandidateSelect 10 page0) store0) as H.
    destruct (handleSubmitVote increment_fails 7 1 60 60
                (handleCandidateSelect 10 page0) store0)
      as [[p' nav] st'].
    destruct H as (_ & _ & _ & Hlost).
    apply (Hlost 10%N election1 alice); try reflexivity.
    intros (v & Hin & _). by apply elem_of_nil in Hin.
Defined.

Lemma auth_state_invariant_witness :
  Auth.Home User.role (Auth.states (Auth.login (Some root))) = Auth.to_admin
  ∧ Auth.Home User.role (Auth.states (Auth.login (Some root) ++ [Auth.LOGOUT]))
    = Auth.to_login.
Proof.
  split.
  - destruct (auth_state_invariant User.role (Auth.login (Some root)))
      as (_ & _ & Hadmin & _). apply Hadmin. by exists root.
  - destruct (auth_state_invariant User.role
                (Auth.login (Some root) ++ [Auth.LOGOUT]))
      as (_ & Hlogin & _). by apply Hlogin.
Defined.

Lemma auth_session_outcome_witness :
  Auth.user
    (Auth.states
       ([Auth.LOGOUT]
        ++ [snd (Auth.checkAuth (Some true) (Some (Some root)) true)]))
  = Some root
  ∧ fst (Auth.checkAuth (Some true) (Some (Some root)) false) = true.
Proof.
  split.
  - destruct (auth_session_outcome [Auth.LOGOUT] None (Some true)
                (Some (Some root)) true) as (_ & _ & _ & Huser & _).
    by apply Huser.
  - destruct (auth_session_outcome (U := User.t) [] None (Some true)
                (Some (Some root)) false) as (_ & _ & _ & _ & Hclear).
    apply Hclear. right. split; [done|]. right. split; [by eexists|done].
Defined.
